(** * The ops setup CLI: step runner, step functions and exec wrapper

    A shallow embedding of the JavaScript sources of the [ops] command line
    tool (ops.js, firebase.js, gcloud.js, validate.js, exec.js, logger.js)
    and the properties of its step runner and step functions.

    JavaScript values are a small untyped universe ([value]); objects are
    association lists in insertion order.  Asynchronous functions are
    computations over an explicit [World]: every promise the program creates
    is awaited before the next statement runs, so [await] is sequencing. *)

From Stdlib Require Import String Ascii List ZArith Bool Lia DecimalString.
Import ListNotations.
Open Scope string_scope.

Set Warnings "-register-all".

(** ** JavaScript values *)

Inductive value : Type :=
| VUndefined
| VNull
| VBool (b : bool)
| VNum (n : Z)
| VStr (s : string)
| VArr (elems : list value)
| VObj (fields : list (string * value))
| VErr (name message stack : string)   (* an Error instance *)
| VFun (name : string).                (* an opaque built-in function *)

Fixpoint assoc (k : string) (fs : list (string * value)) : option value :=
  match fs with
  | [] => None
  | (k', v) :: rest => if String.eqb k k' then Some v else assoc k rest
  end.

(** [obj.k = v]: replaces an own property in place, otherwise appends it. *)
Fixpoint assign (k : string) (v : value) (fs : list (string * value))
  : list (string * value) :=
  match fs with
  | [] => [(k, v)]
  | (k', v') :: rest =>
      if String.eqb k k' then (k, v) :: rest else (k', v') :: assign k v rest
  end.

(** The properties every plain object inherits from [Object.prototype]:
    [constructor] is the function [Object], every other method is a
    function named after its key, and [__proto__] is the prototype itself,
    an object without keys. *)
Definition object_prototype_methods : list string :=
  [ "constructor"; "hasOwnProperty"; "isPrototypeOf"; "propertyIsEnumerable";
    "toLocaleString"; "toString"; "valueOf";
    "__defineGetter__"; "__defineSetter__"; "__lookupGetter__"; "__lookupSetter__" ].

Definition object_prototype (k : string) : value :=
  if String.eqb k "constructor" then VFun "Object"
  else if existsb (String.eqb k) object_prototype_methods then VFun k
  else if String.eqb k "__proto__" then VObj []
  else VUndefined.

(** [v.k] and [v[k]] for a [v] that is neither [undefined] nor [null].
    Strings, arrays and functions are only ever read at fixed field names
    of the program ([error], [message], [token], [length], ...). *)
Definition prop (v : value) (k : string) : value :=
  match v with
  | VObj fs => match assoc k fs with Some x => x | None => object_prototype k end
  | VErr _ m st =>
      if String.eqb k "message" then VStr m
      else if String.eqb k "stack" then VStr st
      else VUndefined
  | VStr s => if String.eqb k "length" then VNum (Z.of_nat (String.length s)) else VUndefined
  | VArr xs => if String.eqb k "length" then VNum (Z.of_nat (List.length xs)) else VUndefined
  | _ => VUndefined
  end.

Definition truthy (v : value) : bool :=
  match v with
  | VUndefined | VNull => false
  | VBool b => b
  | VNum n => negb (Z.eqb n 0)
  | VStr s => negb (String.eqb s "")
  | VArr _ | VObj _ | VErr _ _ _ | VFun _ => true
  end.

Definition typeof (v : value) : string :=
  match v with
  | VUndefined => "undefined"
  | VNull | VArr _ | VObj _ | VErr _ _ _ => "object"
  | VBool _ => "boolean"
  | VNum _ => "number"
  | VStr _ => "string"
  | VFun _ => "function"
  end.

(** [a === b] where one side is a primitive. *)
Definition strict_eq (a b : value) : bool :=
  match a, b with
  | VUndefined, VUndefined | VNull, VNull => true
  | VBool x, VBool y => Bool.eqb x y
  | VNum x, VNum y => Z.eqb x y
  | VStr x, VStr y => String.eqb x y
  | _, _ => false
  end.

(** [a || b] and [a && b] on values. *)
Definition js_or (a b : value) : value := if truthy a then a else b.
Definition js_and (a b : value) : value := if truthy a then b else a.

(** String conversion, as done by template literals and [Array.prototype.join]. *)
Fixpoint to_string (v : value) : string :=
  match v with
  | VUndefined => "undefined"
  | VNull => "null"
  | VBool true => "true"
  | VBool false => "false"
  | VNum n => NilZero.string_of_int (Z.to_int n)
  | VStr s => s
  | VArr xs =>
      (fix join (l : list value) : string :=
         match l with
         | [] => ""
         | x :: r =>
             (match x with VUndefined | VNull => "" | _ => to_string x end)
             ++ (match r with [] => "" | _ :: _ => "," ++ join r end)
         end) xs
  | VObj _ => "[object Object]"
  | VErr n m _ => if String.eqb m "" then n else n ++ ": " ++ m
  | VFun n => "function " ++ n ++ "() { [native code] }"
  end.

(** [xs.join('')] *)
Definition join_empty (xs : list value) : string :=
  String.concat ""
    (map (fun x => match x with VUndefined | VNull => "" | _ => to_string x end) xs).

Definition type_error (msg : string) : value := VErr "TypeError" msg "".

Definition is_nullish (v : value) : bool :=
  match v with VUndefined | VNull => true | _ => false end.

(** ** The world the program runs in *)

Inductive Console := ConsoleLog | ConsoleError | ConsoleInfo | ConsoleWarn.

(** One call of a console method with the styled output: the colour applied
    to the header ([None] is chalk's reset) and the unstyled content. *)
Record Line := mkLine {
  line_console : Console;
  line_color : option string;
  line_header : string;
  line_content : string
}.

Record World := mkWorld {
  console : list Line;              (* console output, oldest first *)
  shell_env : list (string * string);  (* shelljs.env, i.e. process.env *)
  spawned : list string;            (* commands handed to child_process.spawn *)
  prompted : nat;                   (* calls of inquirer.prompt *)
  logins : nat;                     (* calls of firebase-tools' login *)
  exitCode : option Z               (* process.exitCode, while it is assigned *)
}.

(** ** Asynchronous computations *)

Inductive Outcome (A : Type) : Type :=
| Returned (a : A)      (* returns, or the promise is fulfilled *)
| Threw (e : value)     (* throws, or the promise is rejected *)
| Pending.              (* the promise is never settled *)
Arguments Returned {A} a.
Arguments Threw {A} e.
Arguments Pending {A}.

Definition M (A : Type) : Type := World -> Outcome A * World.

Definition ret {A} (a : A) : M A := fun w => (Returned a, w).
Definition throw {A} (e : value) : M A := fun w => (Threw e, w).
Definition bind {A B} (m : M A) (f : A -> M B) : M B :=
  fun w =>
    match m w with
    | (Returned a, w') => f a w'
    | (Threw e, w') => (Threw e, w')
    | (Pending, w') => (Pending, w')
    end.

Notation "x <- m ;; k" := (bind m (fun x => k))
  (at level 61, m at next level, right associativity).
Notation "m ;;; k" := (bind m (fun _ => k))
  (at level 61, right associativity).

Definition when (b : bool) (m : M unit) : M unit := if b then m else ret tt.

(** [v.k], which throws a TypeError on [undefined] and [null]. *)
Definition get (v : value) (k : string) : M value :=
  if is_nullish v
  then throw (type_error ("Cannot read properties of " ++ to_string v
                            ++ " (reading '" ++ k ++ "')"))
  else ret (prop v k).

(** ** logger.js *)

Module logger.

Inductive Level := Log | Error | Info | Success | Warn.

(** [styleMap]: the colour of each style. *)
Definition styleMap (l : Level) : option string :=
  match l with
  | Error => Some "d82727"
  | Info => Some "0094ff"
  | Log => None
  | Success => Some "5bcf70"
  | Warn => Some "ffef7f"
  end.

(** [const [header, ...content] = isMessageString ? [messages, ''] : messages] *)
Definition styleOutput (l : Level) (messages : value)
  : value + (option string * string * string) :=
  match messages with
  | VStr s => inr (styleMap l, s, "")
  | VArr [] => inr (styleMap l, "undefined", "")
  | VArr (header :: content) => inr (styleMap l, to_string header, join_empty content)
  | other => inl (type_error (to_string other ++ " is not iterable"))
  end.

(** [logger[logLevel] || logger.log]: the console has no [success] method. *)
Definition printer (l : Level) : Console :=
  match l with
  | Error => ConsoleError
  | Info => ConsoleInfo
  | Warn => ConsoleWarn
  | Log | Success => ConsoleLog
  end.

Definition print (l : Level) (messages : value) : M unit :=
  fun w =>
    match styleOutput l messages with
    | inl e => (Threw e, w)
    | inr (color, header, content) =>
        (Returned tt,
         mkWorld (console w ++ [mkLine (printer l) color header content])
                 (shell_env w) (spawned w) (prompted w) (logins w) (exitCode w))
    end.

Definition log := print Log.
Definition error := print Error.
Definition info := print Info.
Definition success := print Success.
Definition warn := print Warn.

End logger.

(** ** The step runner (ops.js) *)

(** A step function: [(options) => Promise<Result>]. *)
Definition Step : Type := value -> M value.

(** What a call of [runSteps] leaves behind: its outcome, the calls it made
    (each step with the argument it received, oldest first), the content of
    the caller's [steps] array afterwards, and the world. *)
Record Run := mkRun {
  outcome : Outcome value;
  invoked : list (Step * value);
  remaining : list Step;
  world_after : World
}.

Definition and_then (call : Step * value) (r : Run) : Run :=
  mkRun (outcome r) (call :: invoked r) (remaining r) (world_after r).

(** The logging of a failing result:
    [if (result.message) logger.error([result.message])]
    [if (result.messages) logger.log(result.messages)] *)
Definition report (result : value) : M unit :=
  when (truthy (prop result "message")) (logger.error (VArr [prop result "message"])) ;;;
  when (truthy (prop result "messages")) (logger.log (prop result "messages")).

Fixpoint runSteps (steps : list Step) (options : value) (w : World) : Run :=
  match steps with
  | [] =>
      (* steps.shift() is undefined, and calling it throws *)
      mkRun (Threw (type_error "step is not a function")) [] [] w
  | step :: steps =>
      match step options w with
      | (Returned result, w1) =>
          match get result "error" w1 with
          | (Returned err, w2) =>
              let runNextStep := negb (truthy err) && negb (Nat.eqb (List.length steps) 0) in
              match when (truthy err) (report result) w2 with
              | (Returned _, w3) =>
                  if runNextStep
                  then and_then (step, options) (runSteps steps options w3)
                  else mkRun (Returned result) [(step, options)] steps w3
              | (Threw e, w3) => mkRun (Threw e) [(step, options)] steps w3
              | (Pending, w3) => mkRun Pending [(step, options)] steps w3
              end
          | (Threw e, w2) => mkRun (Threw e) [(step, options)] steps w2
          | (Pending, w2) => mkRun Pending [(step, options)] steps w2
          end
      | (Threw e, w1) => mkRun (Threw e) [(step, options)] steps w1
      | (Pending, w1) => mkRun Pending [(step, options)] steps w1
      end
  end.

(** A Result as the data model has it: [error] is a boolean, [message] is
    absent or a string, [messages] is absent or an array of strings. *)
Definition is_string (v : value) : bool :=
  match v with VStr _ => true | _ => false end.

Definition is_Result (r : value) : bool :=
  match r with
  | VObj _ =>
      (match prop r "error" with VBool _ => true | _ => false end)
      && (match prop r "message" with VUndefined | VStr _ => true | _ => false end)
      && (match prop r "messages" with
          | VUndefined => true
          | VArr lines => forallb is_string lines
          | _ => false
          end)
  | _ => false
  end.

(** [pass_all options steps w]: run one after the other from [w], every
    step of [steps] returns a Result with [error: false]; the value is those
    Results and the world after the last one. *)
Fixpoint pass_all (options : value) (steps : list Step) (w : World)
  : option (list value * World) :=
  match steps with
  | [] => Some ([], w)
  | step :: rest =>
      match step options w with
      | (Returned r, w1) =>
          match prop r "error" with
          | VBool false =>
              match pass_all options rest w1 with
              | Some (rs, w2) => Some (r :: rs, w2)
              | None => None
              end
          | _ => None
          end
      | _ => None
      end
  end.

(** ** The platform: Node built-ins and the external tools

    None of these is written by the program.  The child process of a command
    is the list of events its emitter fires, in order. *)

Inductive ProcEvent :=
| StdoutData (data : string)
| StderrData (data : string)
| ExitEvent (code : value)      (* a number, or null when killed by a signal *)
| CloseEvent (code : value).

(** The result of calling a function that is expected to return a promise:
    it throws before returning one, or returns a promise with an outcome. *)
Inductive Call (A : Type) : Type :=
| SyncThrow (e : value)
| Promise (o : Outcome A).
Arguments SyncThrow {A} e.
Arguments Promise {A} o.

Record Platform := mkPlatform {
  JSON_parse : string -> value + value;       (* the value, or the error thrown *)
  path_join : string -> string -> string;
  fs_readFile : string -> string + value;     (* the content, or the rejection *)
  spawn : string -> World -> list ProcEvent;
  inquirer_prompt : value -> World -> Call value;
  cli_login : World -> Call value;
  process_env : string -> option string
}.

(** [await call] inside an async function. *)
Definition await {A} (c : Call A) : M A :=
  fun w =>
    match c with
    | SyncThrow e => (Threw e, w)
    | Promise o => (o, w)
    end.

(** [await call.catch(handler)]: only a rejection reaches the handler. *)
Definition await_catch (c : Call value) (handler : value -> M value) : M value :=
  fun w =>
    match c with
    | SyncThrow e => (Threw e, w)
    | Promise (Threw e) => handler e w
    | Promise o => (o, w)
    end.

(** [try { body } catch (e) { handler(e) }] *)
Definition try_catch {A} (body : M A) (handler : value -> M A) : M A :=
  fun w =>
    match body w with
    | (Threw e, w') => handler e w'
    | other => other
    end.

(** [v?.k] *)
Definition opt_prop (v : value) (k : string) : value :=
  if is_nullish v then VUndefined else prop v k.

(** [v.k = x]; only objects reach an assignment in this program. *)
Definition set_prop (v : value) (k : string) (x : value) : value :=
  match v with
  | VObj fs => VObj (assign k x fs)
  | other => other
  end.

(** [Object.keys(v).length] for a [v] that is not [undefined] or [null]. *)
Definition keys_length (v : value) : nat :=
  match v with
  | VObj fs => List.length fs
  | VArr xs => List.length xs
  | VStr s => String.length s
  | _ => 0
  end.

(** ToNumber, on the integers this model has; [None] is NaN.  A string is
    read as an optionally signed decimal integer. *)
Definition to_number (v : value) : option Z :=
  match v with
  | VUndefined => None
  | VNull => Some 0%Z
  | VBool b => Some (if b then 1 else 0)%Z
  | VNum n => Some n
  | other => option_map Z.of_int (NilZero.int_of_string (to_string other))
  end.

(** [v > 0] *)
Definition gt_zero (v : value) : bool :=
  match to_number v with
  | Some n => Z.ltb 0 n
  | None => false
  end.

(** ** exec.js *)

Record ExecState := mkExecState {
  stdout : string;
  stderr : string;
  settled : option value     (* the value the promise was resolved with *)
}.

Definition ExecResponse (code : value) (err out : string) : value :=
  VObj [("code", code); ("stderr", VStr err); ("stdout", VStr out)].

(** [resolve(v)]: a promise keeps the first value it is resolved with. *)
Definition resolve (v : value) (st : ExecState) : ExecState :=
  match settled st with
  | Some _ => st
  | None => mkExecState (stdout st) (stderr st) (Some v)
  end.

(** The four listeners [exec] registers on the child process. *)
Definition on_event (debug : bool) (ev : ProcEvent) (st : ExecState) : M ExecState :=
  match ev with
  | StdoutData data =>
      when debug (logger.info (VArr [VStr "STDOUT: "; VStr data])) ;;;
      ret (mkExecState (stdout st ++ data) (stderr st) (settled st))
  | StderrData data =>
      when debug (logger.error (VArr [VStr ("STDERR: " ++ data)])) ;;;
      let st' := mkExecState (stdout st) (stderr st ++ data) (settled st) in
      ret (resolve (ExecResponse (VNum 1) (stderr st') (stdout st')) st')
  | ExitEvent code =>
      ret (resolve (ExecResponse code (stderr st) (stdout st)) st)
  | CloseEvent code =>
      ret (resolve (ExecResponse code (stderr st) (stdout st)) st)
  end.

Fixpoint emit (debug : bool) (events : list ProcEvent) (st : ExecState) : M ExecState :=
  match events with
  | [] => ret st
  | ev :: rest => st' <- on_event debug ev st ;; emit debug rest st'
  end.

Definition record_spawn (command : string) : M unit :=
  fun w => (Returned tt,
            mkWorld (console w) (shell_env w) (spawned w ++ [command])
                    (prompted w) (logins w) (exitCode w)).

(** [exec(command, options)] with the spawn function it is given
    ([options.spawn], by default child_process.spawn), for the calls in
    which the child has a stdout and a stderr stream to listen to: options
    that can be taken apart (anything but [null]) and leave [stdio] at its
    default.  The listeners run for every event of the child, also after the
    promise is resolved; the promise stays pending when no event resolves
    it. *)
Definition exec_with (spawner : string -> World -> list ProcEvent)
    (command : string) (options : value) : M value :=
  fun w =>
    let debug :=
      truthy (match prop options "debug" with
              | VUndefined => prop options "verbose"
              | d => d
              end) in
    let events := spawner command w in
    (record_spawn command ;;;
     when debug (logger.log (VArr [VStr ("Executing `" ++ command ++ "` ...")])) ;;;
     st <- emit debug events (mkExecState "" "" None) ;;
     match settled st with
     | Some response => ret response
     | None => fun w' => (Pending, w')
     end) w.

(** The double quote and the line feed, for the messages that contain them. *)
Definition dq : string := String (ascii_of_nat 34) EmptyString.
Definition nl : string := String (ascii_of_nat 10) EmptyString.

(** A parameter's default value applies when the argument is [undefined]. *)
Definition default_to (d v : value) : value :=
  match v with VUndefined => d | other => other end.

(** ** validate.js *)

Definition response (error : bool) (message : string) : value :=
  VObj [("error", VBool error); ("message", VStr message)].

(** [validators.reduce(...)]: the first failing validator's result, or
    [successResponse]; validators after a failure are not called. *)
Fixpoint runValidators_from (validators : list (unit -> M value))
    (currentResult : value) : M value :=
  match validators with
  | [] => ret currentResult
  | fnValidator :: rest =>
      result <- (if truthy (opt_prop currentResult "error")
                 then ret currentResult
                 else fnValidator tt) ;;
      error <- get result "error" ;;
      runValidators_from rest (if truthy error then result else currentResult)
  end.

Definition runValidators (validators : list (unit -> M value))
    (successResponse : value) : M value :=
  runValidators_from validators successResponse.

(** [typeof v === 'string' && v.length > 0] *)
Definition is_nonempty_string (v : value) : bool :=
  String.eqb (typeof v) "string" && gt_zero (prop v "length").

Definition validateDirectory (directory : value) : value :=
  let successResponse := response false "The directory option is valid." in
  let errorResponse := response true "The directory option is required." in
  let isValidDirectory := is_nonempty_string directory in
  js_or (js_and (VBool isValidDirectory) successResponse) errorResponse.

Definition validateProjectKey (projectKey : value) : value :=
  let successResponse := response false "The projectKey option is valid." in
  let errorResponse := response true "The projectKey option is required." in
  let isValidProjectKey := is_nonempty_string projectKey in
  js_or (js_and (VBool isValidProjectKey) successResponse) errorResponse.

Definition validateProjectName (projectName : value) : value :=
  let successResponse := response false "The project name is valid." in
  let errorResponse := response true "The project name is invalid." in
  let isValidProjectName := is_nonempty_string projectName in
  js_or (js_and (VBool isValidProjectName) successResponse) errorResponse.

Definition is_array (v : value) : bool :=
  match v with VArr _ => true | _ => false end.

Definition validateFirebasercProjects (projects : value) : value :=
  let successResponse :=
    response false ("The .firebaserc file contains a valid " ++ dq ++ "projects" ++ dq ++ " property.") in
  let errorResponse :=
    response true ("The .firebaserc file does not contain a valid " ++ dq ++ "projects" ++ dq ++ " property.") in
  let haveProjects := truthy projects && String.eqb (typeof projects) "object" in
  let haveValidProjectsType := haveProjects && negb (is_array projects) in
  let haveDefinedProjects :=
    haveValidProjectsType && Nat.ltb 0 (keys_length projects) in
  js_or (js_and (VBool haveDefinedProjects) successResponse) errorResponse.

Definition validateParsedFirebaserc (firebaserc : value) : value :=
  let successResponse := response false "The .firebaserc file contains a valid object." in
  let errorResponse :=
    response true "The .firebaserc file contains an empty or invalid object." in
  let haveFirebaserc := String.eqb (typeof firebaserc) "object" && truthy firebaserc in
  let isValidFirebaserc := haveFirebaserc && Nat.ltb 0 (keys_length firebaserc) in
  js_or (js_and (VBool isValidFirebaserc) successResponse) errorResponse.

Section Program.

Variable P : Platform.

(** [exec(command)] as the program calls it: no options, the real spawn. *)
Definition exec (command : string) : M value :=
  exec_with (spawn P) command (VObj []).

(** ** firebase.js *)

Definition validateFirebaserc (firebaserc : value) : M value :=
  let successResponse := response false "The .firebaserc JSON is valid." in
  runValidators
    [ (fun _ => ret (validateParsedFirebaserc firebaserc));
      (fun _ => projects <- get firebaserc "projects" ;;
                ret (validateFirebasercProjects projects)) ]
    successResponse.

Definition validateOptions (options : value) : M value :=
  let successResponse := response false "The options are valid." in
  runValidators
    [ (fun _ => directory <- get options "directory" ;;
                ret (validateDirectory directory));
      (fun _ => projectKey <- get options "projectKey" ;;
                ret (validateProjectKey projectKey)) ]
    successResponse.

(** [path.join(directory, '.firebaserc')] throws unless [directory] is a string. *)
Definition path_join_firebaserc (directory : value) : M string :=
  match directory with
  | VStr d => ret (path_join P d ".firebaserc")
  | _ =>
      throw (type_error ("The " ++ dq ++ "path" ++ dq
                           ++ " argument must be of type string."))
  end.

(** [await fs.readFile(path, 'utf8')] *)
Definition readFile (path : string) : M string :=
  match fs_readFile P path with
  | inl content => ret content
  | inr e => throw e
  end.

Definition readFirebaserc (directory : value) : M value :=
  try_catch
    (firebasercPath <- path_join_firebaserc directory ;;
     firebaserc <- readFile firebasercPath ;;
     ret (VObj [("error", VBool false); ("firebaserc", VStr firebaserc)]))
    (fun e =>
       message <- get e "message" ;;
       ret (VObj [("error", VBool true); ("message", message)])).

Definition parseJson (jsonString : value) : M value :=
  try_catch
    (match JSON_parse P (to_string jsonString) with
     | inl json => ret (VObj [("error", VBool false); ("json", json)])
     | inr e => throw e
     end)
    (fun e =>
       message <- get e "message" ;;
       ret (VObj [("error", VBool true); ("message", message)])).

Definition parseFirebaserc (firebaserc : value) (parser : value -> M value) : M value :=
  result <- parser firebaserc ;;
  error <- get result "error" ;;
  let json := prop result "json" in
  ret (if truthy error then result
       else VObj [("error", error); ("firebaserc", json)]).

Definition getFirebaserc (directory : value)
    (parser reader : value -> M value) : M value :=
  result <- reader directory ;;
  error <- get result "error" ;;
  let firebaserc := prop result "firebaserc" in
  if truthy error then ret result else parser firebaserc.

Definition findProjectsInFirebaserc (firebaserc : value)
    (validator : value -> M value) : M value :=
  validationResult <- validator firebaserc ;;
  if truthy (opt_prop validationResult "error")
  then ret validationResult
  else projects <- get firebaserc "projects" ;;
       ret (VObj [("error", VBool false); ("projects", projects)]).

Definition findProjectNameByKey (projectKey projects : value)
    (validator : value -> value) : M value :=
  projectName <- get projects (to_string projectKey) ;;
  let result := validator projectName in
  ret (if truthy (opt_prop result "error") then result
       else VObj [("error", VBool false); ("projectName", projectName)]).

Definition getFirebasercProjects (directory : value)
    (parser reader : value -> M value) : M value :=
  firebasercJson <- reader directory ;;
  error <- get firebasercJson "error" ;;
  let firebaserc := prop firebasercJson "firebaserc" in
  if truthy error then ret firebasercJson else parser firebaserc.

Definition readProjectNameFromFirebaserc (options : value)
    (parser : value -> value -> M value) (reader : value -> M value) : M value :=
  directory <- get options "directory" ;;
  let projectKey := prop options "projectKey" in
  readerResult <- reader directory ;;
  error <- get readerResult "error" ;;
  let projects := prop readerResult "projects" in
  if truthy error then ret readerResult else parser projectKey projects.

Definition getProjectName (options : value)
    (validator runner : value -> M value) : M value :=
  validation <- validator options ;;
  if truthy (opt_prop validation "error") then ret validation else runner options.

(** The functions above with the default values of their optional parameters. *)
Definition parseFirebaserc_default (firebaserc : value) : M value :=
  parseFirebaserc firebaserc parseJson.
Definition getFirebaserc_default (directory : value) : M value :=
  getFirebaserc directory parseFirebaserc_default readFirebaserc.
Definition findProjectsInFirebaserc_default (firebaserc : value) : M value :=
  findProjectsInFirebaserc firebaserc validateFirebaserc.
Definition findProjectNameByKey_default (projectKey projects : value) : M value :=
  findProjectNameByKey projectKey projects validateProjectName.
Definition getFirebasercProjects_default (directory : value) : M value :=
  getFirebasercProjects directory findProjectsInFirebaserc_default getFirebaserc_default.
Definition readProjectNameFromFirebaserc_default (options : value) : M value :=
  readProjectNameFromFirebaserc options
    findProjectNameByKey_default getFirebasercProjects_default.
Definition getProjectName_default (options : value) : M value :=
  getProjectName options validateOptions readProjectNameFromFirebaserc_default.

(** A provider that returns a promise and is called with [.catch]. *)
Definition Provider : Type := World -> Call value * World.

Definition call_catch (provider : Provider) (handler : value -> M value) : M value :=
  fun w => let (c, w') := provider w in await_catch c handler w'.

(** [cli.login] of firebase-tools. *)
Definition login : Provider :=
  fun w => (cli_login P w,
            mkWorld (console w) (shell_env w) (spawned w) (prompted w) (S (logins w))
                    (exitCode w)).

Definition configureFirebaseProject (options : value)
    (executable : string -> M value) : M value :=
  projectKey <- get options "projectKey" ;;
  result <- executable ("firebase use " ++ to_string projectKey) ;;
  code <- get result "code" ;;
  let error := negb (strict_eq code (VNum 0)) in
  let message := if error
                 then "The Firebase project could not be configured."
                 else "The Firebase project has been configured." in
  ret (response error message).

Definition configureFirebaseWebFrameworks (options : value)
    (executable : string -> M value) : M value :=
  result <- executable "firebase experiments:enable webframeworks" ;;
  code <- get result "code" ;;
  let error := negb (strict_eq code (VNum 0)) in
  let message := if error
                 then "The Firebase webframeworks feature could not be enabled."
                 else "The Firebase webframeworks feature has been enabled." in
  ret (response error message).

Definition configureFirebaseLogin (options : value) (executable : Provider) : M value :=
  let options := default_to (VObj []) options in
  debug <- get options "debug" ;;
  let debug := default_to (VBool false) debug in
  result <- call_catch executable
              (fun e =>
                 message <- get e "message" ;;
                 when (truthy debug) (logger.error (VArr [VStr (to_string message)])) ;;;
                 ret (VObj [("error", VBool true); ("message", message)])) ;;
  let valid := String.eqb (typeof result) "object" && truthy result
               && truthy (prop result "email") in
  if valid
  then ret (VObj [("email", prop result "email"); ("error", VBool false);
                  ("message", VStr "The user has been logged in to Firebase.")])
  else ret (VObj [("error", VBool true);
                  ("message", js_or (opt_prop result "message")
                                    (VStr "The Firebase login attempt failed."))]).

Definition makeFirebaseConfigurationSteps (options : value)
    (executable : string -> M value) : list (value -> M value) :=
  [ (fun _ =>
       logger.info (VArr [VStr "Enabling Firebase's experimental webframeworks feature ..."]) ;;;
       configureFirebaseWebFrameworks options executable);
    (fun _ =>
       logger.info (VArr [VStr "Signing into Firebase ..."]) ;;;
       configureFirebaseLogin VUndefined login);
    (fun _ =>
       logger.info (VArr [VStr "Configuring the Firebase project ..."]) ;;;
       configureFirebaseProject options executable) ].

(** [steps.reduce(...)] of [configureFirebase]: each step runs once the
    previous one has settled, and not at all after a failing result. *)
Fixpoint configureFirebase_from (steps : list (value -> M value)) (state : value)
  : M value :=
  match steps with
  | [] => ret state
  | fnStep :: rest =>
      result <- (if truthy (opt_prop state "error") then ret state else fnStep state) ;;
      error <- get result "error" ;;
      configureFirebase_from rest (if truthy error then result else state)
  end.

Definition configureFirebase (options : value) (steps : list (value -> M value))
  : M value :=
  let successResponse := response false "Firebase has been configured." in
  configureFirebase_from steps successResponse.

Definition configureFirebase_default (options : value) : M value :=
  configureFirebase options (makeFirebaseConfigurationSteps options exec).

(** ** gcloud.js *)

Definition validateGoogleProjectName (projectName : value) : value :=
  let isValidProjectName := is_nonempty_string projectName in
  let error := negb isValidProjectName in
  let message := if error
                 then "The Google Cloud project name is invalid."
                 else "The Google Cloud project name is valid." in
  response error message.

Definition setGoogleCloudProject (projectName : value)
    (executable : string -> M value) : M value :=
  let flags := "--no-user-output-enabled" in
  result <- executable ("gcloud config set project " ++ to_string projectName
                          ++ " " ++ flags) ;;
  code <- get result "code" ;;
  let error := negb (strict_eq code (VNum 0)) in
  let message :=
    if error
    then "Failed to set the Google Cloud project to " ++ dq ++ to_string projectName ++ dq ++ "."
    else "The Google Cloud project has been set to " ++ dq ++ to_string projectName ++ dq ++ "." in
  ret (response error message).

Definition configureGoogleProject (projectName : value)
    (executable : string -> M value) : M value :=
  let validationResult := validateGoogleProjectName projectName in
  let error := prop validationResult "error" in
  if truthy error then ret validationResult
  else setGoogleCloudProject projectName executable.

Definition configureGoogleProject_default (projectName : value) : M value :=
  configureGoogleProject projectName exec.

(** ** ops.js *)

Definition FONT_AWESOME_ACCOUNT_URL : string := "fontawesome.com/account".
Definition FONT_AWESOME_NPM_REGISTRY : string := "npm.fontawesome.com/".

Definition FONT_AWESOME_TOKEN : value :=
  match process_env P "FONT_AWESOME_TOKEN" with
  | Some s => VStr s
  | None => VUndefined
  end.

Definition FONT_AWESOME_TOKEN_LOCATION : string :=
  match process_env P "FONT_AWESOME_TOKEN_LOCATION" with
  | Some s => s
  | None => FONT_AWESOME_ACCOUNT_URL
  end.

Fixpoint set_env (k v : string) (env : list (string * string)) : list (string * string) :=
  match env with
  | [] => [(k, v)]
  | (k', v') :: rest =>
      if String.eqb k k' then (k, v) :: rest else (k', v') :: set_env k v rest
  end.

Fixpoint get_env (k : string) (env : list (string * string)) : value :=
  match env with
  | [] => VUndefined
  | (k', v) :: rest => if String.eqb k k' then VStr v else get_env k rest
  end.

(** [shelljs.env] is [process.env], which stores every value as a string. *)
Definition configureNodeEnv (env : value) : M value :=
  fun w =>
    let w' := mkWorld (console w) (set_env "NODE_ENV" (to_string env) (shell_env w))
                      (spawned w) (prompted w) (logins w) (exitCode w) in
    let error := negb (strict_eq (get_env "NODE_ENV" (shell_env w')) env) in
    (Returned (VObj [("error", VBool error)]), w').

(** [inquirer.prompt] *)
Definition prompt (questions : value) : Provider :=
  fun w => (inquirer_prompt P questions w,
            mkWorld (console w) (shell_env w) (spawned w) (S (prompted w)) (logins w)
                    (exitCode w)).

Definition obtainFontAwesomeToken (prompter : value -> Provider) : M value :=
  logger.info (VArr [VStr ("Obtain the Font Awesome token from "
                             ++ FONT_AWESOME_TOKEN_LOCATION)]) ;;;
  response <- call_catch
                (prompter (VArr [VObj [("type", VStr "input");
                                       ("name", VStr "token");
                                       ("message", VStr "Enter the Font Awesome token.");
                                       ("default", js_or FONT_AWESOME_TOKEN (VStr ""))]]))
                (fun error =>
                   message <- get error "message" ;;
                   ret (VObj [("error", VBool true); ("message", message)])) ;;
  let response := js_or response (VObj []) in
  let promptError := prop response "error" in
  let promptMessage := prop response "message" in
  let token := prop response "token" in
  let isValidToken := js_and token (VBool (gt_zero (prop token "length"))) in
  let error := js_or promptError (VBool (negb (truthy isValidToken))) in
  let message :=
    if truthy error
    then js_or promptMessage (VStr "The Font Awesome token is invalid.")
    else VStr "The Font Awesome token has been obtained." in
  ret (VObj [("error", error); ("message", message); ("token", token)]).

Definition setFontAwesomeRegistry (executable : string -> M value) : M value :=
  result <- executable ("npm config set " ++ dq ++ "@fortawesome:registry" ++ dq ++ " "
                          ++ FONT_AWESOME_NPM_REGISTRY) ;;
  code <- get result "code" ;;
  let error := negb (strict_eq code (VNum 0)) in
  let message := if error
                 then "Failed to set the Font Awesome registry."
                 else "The Font Awesome registry has been set." in
  ret (response error message).

Definition setFontAwesomeToken (options : value)
    (executable : string -> M value) : M value :=
  logger.info (VArr [VStr "Configuring access to the Font Awesome registry ..."]) ;;;
  result <- executable ("npm config set " ++ dq ++ "//" ++ FONT_AWESOME_NPM_REGISTRY
                          ++ ":_authToken" ++ dq ++ " "
                          ++ to_string (opt_prop options "token")) ;;
  code <- get result "code" ;;
  let error := negb (strict_eq code (VNum 0)) in
  let message := if error
                 then "Failed to set the Font Awesome token."
                 else "The Font Awesome token has been set." in
  ret (response error message).

Definition makeFontAwesomeConfigurationSteps (prompter : value -> Provider)
    (executable : string -> M value) : list (value -> M value) :=
  [ (fun _ => obtainFontAwesomeToken prompter);
    (fun _ => setFontAwesomeRegistry executable);
    (fun state => setFontAwesomeToken state executable) ].

(** [steps.reduce(...)] of [configureFontAwesome]; [state] is one object,
    updated in place with the token a step returns. *)
Fixpoint configureFontAwesome_from (steps : list (value -> M value)) (state : value)
  : M value :=
  match steps with
  | [] => ret state
  | step :: rest =>
      stateError <- get state "error" ;;
      latestState <- (if truthy stateError then ret state else step state) ;;
      error <- get latestState "error" ;;
      let token := prop latestState "token" in
      let haveToken := negb (truthy error) && truthy token
                       && gt_zero (prop token "length") in
      let state := if haveToken then set_prop state "token" token else state in
      configureFontAwesome_from rest (if truthy error then latestState else state)
  end.

Definition configureFontAwesome (steps : list (value -> M value)) : M value :=
  logger.info (VArr [VStr ("Setting up Font Awesome ... " ++ nl)]) ;;;
  let successResponse := response false "Font Awesome is ready." in
  configureFontAwesome_from steps successResponse.

Definition configureFontAwesome_default : M value :=
  configureFontAwesome (makeFontAwesomeConfigurationSteps prompt exec).

Definition stepConfigureNodeEnv (options : value) (executable : value -> M value)
  : M value :=
  env <- get options "env" ;;
  logger.info (VArr [VStr ("Configuring the NODE_ENV environment variable to "
                             ++ to_string env ++ " ...")]) ;;;
  result <- executable env ;;
  error <- get result "error" ;;
  if truthy error
  then
    ret (set_prop result "messages"
           (VArr [ VStr ("Failed to set the NODE_ENV environment variable to "
                           ++ to_string env ++ "." ++ nl);
                   VStr ("- Confirm the OPS_NODE_ENV env var in the .env file or the env option on the command line." ++ nl);
                   VStr ("- Ensure the env option is set to a valid and desirable value." ++ nl) ]))
  else
    logger.log (VArr [VStr ("NODE_ENV is set to " ++ to_string env ++ ".")]) ;;;
    logger.success (VArr [VStr "The environment is ready."]) ;;;
    ret result.

Definition stepConfigureGoogle (options : value)
    (parser reader : value -> M value) : M value :=
  logger.info (VArr [VStr "Configuring Google Cloud ..."]) ;;;
  projectNameResult <- reader options ;;
  let error := prop (js_or projectNameResult (VObj [])) "error" in
  let projectName := prop (js_or projectNameResult (VObj [])) "projectName" in
  logger.log (VArr [VStr ("Setting the Google Cloud project to " ++ dq
                            ++ to_string projectName ++ dq ++ " ...")]) ;;;
  result <- (if truthy error then ret projectNameResult else parser projectName) ;;
  resultError <- get result "error" ;;
  if truthy resultError
  then
    projectKey <- get options "projectKey" ;;
    ret (set_prop result "messages"
           (VArr [ VStr ("Failed to configure Google Cloud using " ++ dq
                           ++ to_string projectKey ++ dq ++ " as the projectKey." ++ nl);
                   VStr ("  1. Review the OPS_PROJECT_KEY env var in the .env file or the "
                           ++ dq ++ "projectKey" ++ dq ++ " flag on the command line." ++ nl);
                   VStr ("     Ensure the project key is set to a valid and desirable value."
                           ++ nl ++ nl);
                   VStr ("  2. Ensure the .firebaserc file has a property for the corresponding project key." ++ nl);
                   VStr ("     Ensure the project name in the .firebaserc file is set to a valid and desirable value." ++ nl ++ nl);
                   VStr ("  3. Ensure your gcloud user has access to the project referenced in the .firebaserc file." ++ nl);
                   VStr ("     Run " ++ dq ++ "gcloud auth list" ++ dq
                           ++ " to review your auth state." ++ nl) ]))
  else
    logger.success (VArr [VStr "Google Cloud is ready."]) ;;;
    ret result.

Definition stepConfigureFirebaseProject (options : value)
    (executable : value -> M value) : M value :=
  result <- executable options ;;
  error <- get result "error" ;;
  if truthy error
  then
    projectKey <- get options "projectKey" ;;
    ret (set_prop result "messages"
           (VArr [ VStr ("Failed to configure Firebase using " ++ dq
                           ++ to_string projectKey ++ dq ++ " as the projectKey." ++ nl);
                   VStr ("  1. Confirm the OPS_PROJECT_KEY env var in the .env file or the "
                           ++ dq ++ "projectKey" ++ dq ++ " flag on the command line." ++ nl);
                   VStr ("     Ensure the project key is set to a valid and desirable value."
                           ++ nl ++ nl);
                   VStr ("  2. Ensure the .firebaserc file has a property for the corresponding project key." ++ nl);
                   VStr ("     Ensure the project name in the .firebaserc file is set to a valid and desirable value." ++ nl ++ nl);
                   VStr ("  3. Ensure your gcloud user has access to the project referenced in the .firebaserc file." ++ nl);
                   VStr ("     Run " ++ dq ++ "firebase login:list" ++ dq
                           ++ " to review your auth state." ++ nl) ]))
  else
    logger.success (VArr [VStr "Firebase is ready."]) ;;;
    ret result.

Definition stepConfigureFontAwesome (executable : M value) : M value :=
  result <- executable ;;
  error <- get result "error" ;;
  if truthy error
  then ret (set_prop result "messages" (VArr [VStr "Failed to configure Font Awesome."]))
  else ret result.

Definition stepFinish : M value :=
  logger.success (VArr [VStr (nl ++ "The setup is complete. Happy coding!" ++ nl)]) ;;;
  ret (VObj [("error", VBool false)]).

(** [runSteps(allSteps, options)] on an array no one else holds. *)
Definition run_sequence (steps : list Step) (options : value) : M value :=
  fun w => let r := runSteps steps options w in (outcome r, world_after r).

(** The steps as [runSteps] calls them: with [options] only, so every
    optional parameter takes its default. *)
Definition stepConfigureNodeEnv_default : Step :=
  fun options => stepConfigureNodeEnv options configureNodeEnv.
Definition stepConfigureGoogle_default : Step :=
  fun options =>
    stepConfigureGoogle options configureGoogleProject_default getProjectName_default.
Definition stepConfigureFirebaseProject_default : Step :=
  fun options => stepConfigureFirebaseProject options configureFirebase_default.
(** [stepConfigureFontAwesome.bind(null, configureFontAwesome)] *)
Definition stepConfigureFontAwesome_bound : Step :=
  fun _ => stepConfigureFontAwesome configureFontAwesome_default.
Definition stepFinish_step : Step := fun _ => stepFinish.

Definition setupFirebase_steps : list Step :=
  [ stepConfigureGoogle_default;
    stepConfigureFirebaseProject_default;
    stepFinish_step ].

Definition setup_steps : list Step :=
  [ stepConfigureNodeEnv_default;
    stepConfigureGoogle_default;
    stepConfigureFirebaseProject_default;
    stepConfigureFontAwesome_bound;
    stepFinish_step ].

Definition setupFirebase (options : value) : M value :=
  let options := default_to (VObj []) options in
  logger.info (VArr [VStr "Configuring Firebase ..."]) ;;;
  run_sequence setupFirebase_steps options.

Definition setup (options : value) : M value :=
  let options := default_to (VObj []) options in
  logger.info (VArr [VStr "Setting up the environment ..."]) ;;;
  run_sequence setup_steps options.

(** ** The command line interface *)

Inductive Subcommand := CmdSetup | CmdFirebase.

(** The action handlers: [(options) => { return setup(options) }] and
    [(options) => { return setupFirebase(options) }]. *)
Definition action (c : Subcommand) (options : value) : M value :=
  match c with
  | CmdSetup => setup options
  | CmdFirebase => setupFirebase options
  end.

(** The exit code of the process for one invocation of a subcommand.
    [commander.parse] calls the action handler and drops the promise it
    returns.  When the promise is fulfilled, whatever its value, Node exits
    with [process.exitCode] if something assigned it and with 0 otherwise;
    when it is rejected, the rejection is left unhandled and Node exits
    with 1.  [None]: the promise stays pending. *)
Definition exit_code (c : Subcommand) (options : value) (w : World) : option Z :=
  let (o, w') := action c options w in
  match o with
  | Returned _ => Some (match exitCode w' with Some code => code | None => 0%Z end)
  | Threw _ => Some 1%Z
  | Pending => None
  end.

End Program.

(** ** The earlier draft of the runner and of exec (src/ops.js)

    The tree also holds an earlier, simpler ops.js.  Its runner logs
    [result.messages] of a failing result without looking at it first, and
    its exec logs every chunk. *)

Module Legacy.

Fixpoint runSteps (steps : list Step) (options : value) (w : World) : Run :=
  match steps with
  | [] => mkRun (Threw (type_error "step is not a function")) [] [] w
  | step :: steps =>
      match step options w with
      | (Returned result, w1) =>
          match get result "error" w1 with
          | (Returned err, w2) =>
              let runNextStep := negb (truthy err) && negb (Nat.eqb (List.length steps) 0) in
              match when (truthy err) (logger.error (prop result "messages")) w2 with
              | (Returned _, w3) =>
                  if runNextStep
                  then and_then (step, options) (runSteps steps options w3)
                  else mkRun (Returned result) [(step, options)] steps w3
              | (Threw e, w3) => mkRun (Threw e) [(step, options)] steps w3
              | (Pending, w3) => mkRun Pending [(step, options)] steps w3
              end
          | (Threw e, w2) => mkRun (Threw e) [(step, options)] steps w2
          | (Pending, w2) => mkRun Pending [(step, options)] steps w2
          end
      | (Threw e, w1) => mkRun (Threw e) [(step, options)] steps w1
      | (Pending, w1) => mkRun Pending [(step, options)] steps w1
      end
  end.

(** [console.log(text)], unstyled. *)
Definition console_log (text : string) : M unit :=
  fun w => (Returned tt,
            mkWorld (console w ++ [mkLine ConsoleLog None text ""])
                    (shell_env w) (spawned w) (prompted w) (logins w) (exitCode w)).

Definition on_event (ev : ProcEvent) (st : ExecState) : M ExecState :=
  match ev with
  | StdoutData data =>
      console_log data ;;;
      ret (mkExecState (stdout st ++ data) (stderr st) (settled st))
  | StderrData data =>
      logger.error (VArr [VStr ("STDERR: " ++ data)]) ;;;
      let st' := mkExecState (stdout st) (stderr st ++ data) (settled st) in
      ret (resolve (ExecResponse (VNum 1) (stderr st') (stdout st')) st')
  | ExitEvent code =>
      ret (resolve (VObj [("code", code); ("stdout", VStr (stdout st))]) st)
  | CloseEvent _ => ret st      (* no listener for close *)
  end.

Fixpoint emit (events : list ProcEvent) (st : ExecState) : M ExecState :=
  match events with
  | [] => ret st
  | ev :: rest => st' <- on_event ev st ;; emit rest st'
  end.

Definition exec (P : Platform) (command : string) : M value :=
  fun w =>
    let events := spawn P command w in
    (record_spawn command ;;;
     logger.log (VArr [VStr ("Running `" ++ command ++ "` ...")]) ;;;
     st <- emit events (mkExecState "" "" None) ;;
     match settled st with
     | Some response => ret response
     | None => fun w' => (Pending, w')
     end) w.

(** The earlier service functions.  The registry file is read and parsed
    once, when the module is loaded; [execSync] runs a command with the
    terminal inherited and throws unless it exits with 0. *)
Section Draft.

Variable P : Platform.
Variable firebaserc : value.
Variable execSync : string -> M unit.

Definition configureFirebaseProject (options : value) : M value :=
  projectKey <- get options "projectKey" ;;
  result <- exec P ("firebase use " ++ to_string projectKey) ;;
  code <- get result "code" ;;
  ret (VObj [("error", VBool (negb (strict_eq code (VNum 0))))]).

Definition configureGoogleProject (options : value) : M value :=
  projectKey <- get options "projectKey" ;;
  projects <- get firebaserc "projects" ;;
  projectName <- get projects (to_string projectKey) ;;
  if negb (truthy projectName)
  then ret (VObj [("error", VBool true)])
  else
    result <- exec P ("gcloud config set project " ++ to_string projectName
                        ++ " --no-user-output-enabled") ;;
    code <- get result "code" ;;
    ret (VObj [("error", VBool (negb (strict_eq code (VNum 0))))]).

Definition configureFirebase (options : value) : M value :=
  logger.info (VArr [VStr "Enabling Firebase's experimental webframeworks feature ..."]) ;;;
  exec P "firebase experiments:enable webframeworks" ;;;
  logger.info (VArr [VStr "Signing into Firebase ..."]) ;;;
  execSync "firebase login" ;;;
  configureFirebaseProject options ;;;
  logger.success (VArr [VStr "Firebase is ready."]) ;;;
  ret (VObj [("error", VBool false)]).

Definition configureFontAwesome : M value :=
  logger.info (VArr [VStr ("Setting up Font Awesome ... " ++ nl)]) ;;;
  logger.info (VArr [VStr ("Obtain the Font Awesome token from "
                             ++ FONT_AWESOME_TOKEN_LOCATION P)]) ;;;
  promptForFontAwesomeToken <-
    (fun w =>
       let (c, w') :=
         prompt P (VArr [VObj [("type", VStr "input");
                               ("name", VStr "token");
                               ("message", VStr "Enter the Font Awesome token.");
                               ("default", js_or (FONT_AWESOME_TOKEN P) (VStr ""))]]) w in
       await c w') ;;
  logger.info (VArr [VStr "Configuring access to the Font Awesome registry ..."]) ;;;
  exec P ("npm config set " ++ dq ++ "@fortawesome:registry" ++ dq ++ " "
            ++ FONT_AWESOME_NPM_REGISTRY) ;;;
  token <- get promptForFontAwesomeToken "token" ;;
  exec P ("npm config set " ++ dq ++ "//" ++ FONT_AWESOME_NPM_REGISTRY
            ++ ":_authToken" ++ dq ++ " " ++ to_string token) ;;;
  logger.success (VArr [VStr "Font Awesome is ready."]) ;;;
  ret (VObj [("error", VBool false)]).

End Draft.

End Legacy.

(** ** Predicates used in the statements *)

(** [r] has an own property [k]. *)
Definition has_own (r : value) (k : string) : bool :=
  match r with
  | VObj fs => match assoc k fs with Some _ => true | None => false end
  | _ => false
  end.

(** Chunks of output, as opposed to the exit and close events. *)
Definition is_data (ev : ProcEvent) : bool :=
  match ev with
  | StdoutData _ | StderrData _ => true
  | ExitEvent _ | CloseEvent _ => false
  end.

(** The promise of exec was resolved with code 1. *)
Definition code_is_1 (p : option value) : Prop :=
  exists response, p = Some response /\ prop response "code" = VNum 1.

(** The answer of a prompt left empty, and what the token step makes of it. *)
Definition empty_token_answer : value := VObj [("token", VStr "")].

Definition invalid_token_result : value :=
  VObj [("error", VBool true);
        ("message", VStr "The Font Awesome token is invalid.");
        ("token", VStr "")].

Definition boom_result : value :=
  VObj [("error", VBool true); ("message", VStr "boom")].

(** ** Sample inputs *)

Definition empty_world : World := mkWorld [] [] [] 0 0 None.

(** The registry file [{ projects: { default: acme-prod } }] at /app. *)
Definition sample_firebaserc_text : string :=
  "{" ++ dq ++ "projects" ++ dq ++ ":{" ++ dq ++ "default" ++ dq ++ ":"
      ++ dq ++ "acme-prod" ++ dq ++ "}}".

Definition sample_firebaserc : value :=
  VObj [("projects", VObj [("default", VStr "acme-prod")])].

Definition enoent (path : string) : value :=
  VErr "Error" ("ENOENT: no such file or directory, open '" ++ path ++ "'") "".

(** A machine on which every command exits with 0 without output, the
    developer enters an empty token and the login succeeds. *)
Definition sample_platform : Platform :=
  mkPlatform
    (fun text => if String.eqb text sample_firebaserc_text
                 then inl sample_firebaserc
                 else inr (VErr "SyntaxError" "Unexpected end of JSON input" ""))
    (fun directory file => directory ++ "/" ++ file)
    (fun path => if String.eqb path "/app/.firebaserc"
                 then inl sample_firebaserc_text
                 else inr (enoent path))
    (fun _ _ => [ExitEvent (VNum 0); CloseEvent (VNum 0)])
    (fun _ _ => Promise (Returned (VObj [("token", VStr "")])))
    (fun _ => Promise (Returned (VObj [("email", VStr "dev@example.com")])))
    (fun _ => None).

Definition sample_options (projectKey : string) : value :=
  VObj [("directory", VStr "/app"); ("env", VStr "development");
        ("projectKey", VStr projectKey)].

(** An Error with message boom and some stack trace. *)
Definition boom : value :=
  VErr "Error" "boom" "Error: boom at Object.<anonymous> (provider.js:1:1)".

(** Steps that always return the same Result and leave a mark on the console. *)
Definition const_step (name : string) (r : value) : Step :=
  fun _ => logger.info (VArr [VStr name]) ;;; ret r.

Definition ok_result : value := VObj [("error", VBool false)].
Definition failed_result : value :=
  VObj [("error", VBool true); ("message", VStr "step failed")].

(** A machine on which the file read, JSON.parse, the prompt and the login
    all fail with boom. *)
Definition rejecting_platform : Platform :=
  mkPlatform
    (fun _ => inr boom)
    (path_join sample_platform)
    (fun _ => inr boom)
    (spawn sample_platform)
    (fun _ _ => Promise (Threw boom))
    (fun _ => Promise (Threw boom))
    (process_env sample_platform).

(** A command that prints a warning on stderr and then exits with 0. *)
Definition noisy_spawner : string -> World -> list ProcEvent :=
  fun _ _ => [StdoutData "installing"; StderrData "npm WARN deprecated";
              ExitEvent (VNum 0); CloseEvent (VNum 0)].

Definition three_steps : list Step :=
  [ const_step "one" ok_result;
    const_step "two" failed_result;
    const_step "three" ok_result ].

Definition two_passing_steps : list Step :=
  [ const_step "one" ok_result;
    const_step "two" (VObj [("error", VBool false); ("message", VStr "done")]) ].

(** ** Further predicates and sample inputs *)

(** [all_succeed calls w]: run one after the other from [w], every call
    returns a value whose [error] is not set; the value is the world after
    the last one. *)
Fixpoint all_succeed (calls : list (M value)) (w : World) : option World :=
  match calls with
  | [] => Some w
  | call :: rest =>
      match call w with
      | (Returned r, w1) =>
          if is_nullish r then None
          else if truthy (prop r "error") then None
          else all_succeed rest w1
      | _ => None
      end
  end.

Definition is_stdout (ev : ProcEvent) : bool :=
  match ev with
  | StdoutData _ => true
  | _ => false
  end.

(** The events the earlier exec listens to for resolving: stderr data and exit. *)
Definition settles_the_draft (ev : ProcEvent) : bool :=
  match ev with
  | StderrData _ | ExitEvent _ => true
  | StdoutData _ | CloseEvent _ => false
  end.

(** The text of a list of stdout chunks. *)
Definition chunks (outs : list string) : string := String.concat "" outs.

(** A computation that neither calls [inquirer.prompt] nor assigns a
    variable of [shelljs.env]. *)
Definition quiet {A} (m : M A) : Prop :=
  forall w, prompted (snd (m w)) = prompted w /\ shell_env (snd (m w)) = shell_env w.

(** A computation that leaves [process.exitCode] as it found it. *)
Definition keeps_exitCode {A} (m : M A) : Prop :=
  forall w, exitCode (snd (m w)) = exitCode w.

(** [w'] differs from [w] by console output at most. *)
Definition same_but_console (w w' : World) : Prop :=
  shell_env w' = shell_env w /\ spawned w' = spawned w
  /\ prompted w' = prompted w /\ logins w' = logins w.

(** The world after one more command was spawned. *)
Definition after_spawn (command : string) (w : World) : World :=
  mkWorld (console w) (shell_env w) (spawned w ++ [command]) (prompted w) (logins w) (exitCode w).

(** The commands the program runs. *)
Definition gcloud_command (name : string) : string :=
  "gcloud config set project " ++ name ++ " --no-user-output-enabled".

Definition webframeworks_command : string :=
  "firebase experiments:enable webframeworks".

Definition firebase_use_command (projectKey : string) : string :=
  "firebase use " ++ projectKey.

Definition npm_registry_command : string :=
  "npm config set " ++ dq ++ "@fortawesome:registry" ++ dq ++ " npm.fontawesome.com/".

Definition npm_token_command (token : string) : string :=
  "npm config set " ++ dq ++ "//npm.fontawesome.com/:_authToken" ++ dq ++ " " ++ token.

(** A validator that must not be reached. *)
Definition unreachable_validator : unit -> M value :=
  fun _ => throw (type_error "not reached").

(** A machine like the sample one on which the developer enters a token. *)
Definition token_platform (token : string) : Platform :=
  mkPlatform
    (JSON_parse sample_platform)
    (path_join sample_platform)
    (fs_readFile sample_platform)
    (spawn sample_platform)
    (fun _ _ => Promise (Returned (VObj [("token", VStr token)])))
    (cli_login sample_platform)
    (process_env sample_platform).

(** A machine like the sample one on which every command exits with 1. *)
Definition failing_platform : Platform :=
  mkPlatform
    (JSON_parse sample_platform)
    (path_join sample_platform)
    (fs_readFile sample_platform)
    (fun _ _ => [ExitEvent (VNum 1); CloseEvent (VNum 1)])
    (inquirer_prompt sample_platform)
    (cli_login sample_platform)
    (process_env sample_platform).

(** A login command that succeeds. *)
Definition execSync_ok : string -> M unit := fun _ => ret tt.

(** Validators, steps and events for the samples. *)
Definition sample_validators : list (unit -> M value) :=
  [ (fun _ => ret (validateDirectory (VStr "/app")));
    (fun _ => ret (validateProjectKey (VStr "")));
    unreachable_validator ].

Definition passing_validators : list (unit -> M value) :=
  [ (fun _ => ret (validateDirectory (VStr "/app")));
    (fun _ => ret (validateProjectKey (VStr "default"))) ].

Definition chatty_spawner : string -> World -> list ProcEvent :=
  fun _ _ => [StdoutData "added 1 package"; StdoutData " in 2s"; ExitEvent (VNum 0)].

Definition sample_state_steps : list (value -> M value) :=
  [ (fun _ => ret (response false "first"));
    (fun _ => ret (response true "second failed"));
    (fun _ => throw (type_error "not reached")) ].

Definition passing_state_steps : list (value -> M value) :=
  [ (fun _ => ret (response false "first"));
    (fun _ => ret (VObj [("email", VStr "dev@example.com"); ("error", VBool false)])) ].

Definition rejecting_steps : list Step :=
  [ const_step "one" ok_result;
    (fun _ => throw boom);
    const_step "three" ok_result ].

Definition sample_token : string := "tok-123".

(** What the array destructuring of [styleOutput] can take apart. *)
Definition is_iterable (v : value) : bool :=
  match v with VStr _ | VArr _ => true | _ => false end.

Definition is_TypeError (o : Outcome value) : bool :=
  match o with
  | Threw (VErr name _ _) => String.eqb name "TypeError"
  | _ => false
  end.

Definition unprintable_result : value :=
  VObj [("error", VBool true); ("messages", VObj [("text", VStr "step failed")])].

Definition unprintable_steps : list Step :=
  [ const_step "one" ok_result;
    (fun _ => ret unprintable_result);
    const_step "three" ok_result ].


(** ** Facts about the monad and the logger *)



Lemma get_not_nullish v k w :
  is_nullish v = false -> get v k w = (Returned (prop v k), w).
Proof. unfold get. intros ->. reflexivity. Qed.

Lemma truthy_prop_not_nullish v k :
  truthy (prop v k) = true -> is_nullish v = false.
Proof. destruct v; cbn; intros H; try reflexivity; discriminate. Qed.

Lemma prop_bool_not_nullish v k b :
  prop v k = VBool b -> is_nullish v = false.
Proof. destruct v; cbn; intros H; try reflexivity; discriminate. Qed.

Lemma print_array_returns l xs w :
  exists w', logger.print l (VArr xs) w = (Returned tt, w')
             /\ shell_env w' = shell_env w /\ spawned w' = spawned w
             /\ prompted w' = prompted w /\ logins w' = logins w.
Proof.
  unfold logger.print. destruct xs as [| header content]; cbn; eexists; repeat split.
Qed.

Lemma report_of_Result r w :
  is_Result r = true -> exists w', report r w = (Returned tt, w').
Proof.
  unfold is_Result, report. destruct r; try discriminate.
  intros H. apply andb_prop in H as [H Hmessages]. apply andb_prop in H as [_ Hmessage].
  unfold bind.
  assert (Hfirst : exists w1,
             when (truthy (prop (VObj fields) "message"))
                  (logger.error (VArr [prop (VObj fields) "message"])) w = (Returned tt, w1)).
  { destruct (truthy (prop (VObj fields) "message")); cbn.
    - destruct (print_array_returns logger.Error [prop (VObj fields) "message"] w)
        as (w1 & E & _). exists w1. exact E.
    - exists w. reflexivity. }
  destruct Hfirst as (w1 & ->).
  destruct (prop (VObj fields) "messages") as [| | | | | lines | | |] eqn:E;
    try discriminate; cbn.
  - exists w1. reflexivity.
  - destruct (print_array_returns logger.Log lines w1) as (w2 & E2 & _).
    exists w2. exact E2.
Qed.

(** ** The step runner *)

Lemma runSteps_failing_step step rest options w r w1 :
  step options w = (Returned r, w1) ->
  is_Result r = true ->
  prop r "error" = VBool true ->
  runSteps (step :: rest) options w
  = mkRun (Returned r) [(step, options)] rest (snd (report r w1)).
Proof.
  intros Hstep HR Herr. cbn [runSteps]. rewrite Hstep.
  rewrite (get_not_nullish r "error" w1 (prop_bool_not_nullish _ _ _ Herr)).
  rewrite Herr. cbn [truthy negb andb when].
  destruct (report_of_Result r w1 HR) as (w2 & ->). reflexivity.
Qed.

Lemma runSteps_passing_step step rest options w r w1 :
  step options w = (Returned r, w1) ->
  prop r "error" = VBool false ->
  runSteps (step :: rest) options w
  = match rest with
    | [] => mkRun (Returned r) [(step, options)] [] w1
    | _ :: _ => and_then (step, options) (runSteps rest options w1)
    end.
Proof.
  intros Hstep Herr. cbn [runSteps]. rewrite Hstep.
  rewrite (get_not_nullish r "error" w1 (prop_bool_not_nullish _ _ _ Herr)).
  rewrite Herr. cbn [truthy negb andb when ret].
  destruct rest; reflexivity.
Qed.

Lemma pass_all_cons options step rest w rs w' :
  pass_all options (step :: rest) w = Some (rs, w') ->
  exists r w1 rs',
    step options w = (Returned r, w1) /\ prop r "error" = VBool false
    /\ pass_all options rest w1 = Some (rs', w') /\ rs = r :: rs'.
Proof.
  cbn [pass_all]. destruct (step options w) as [[r | e |] w1]; try discriminate.
  destruct (prop r "error") as [| | [|] | | | | | |] eqn:E; try discriminate.
  destruct (pass_all options rest w1) as [[rs' w2] |] eqn:Erest; try discriminate.
  intros H. inversion H; subst. exists r, w1, rs'. repeat split; auto.
Qed.

(** C1 (short-circuit).  When the steps before step k all return a Result
    with error: false and step k returns a Result with error: true, runSteps
    calls exactly steps 1..k, in order and each with the options it was
    given, returns step k's Result as it is, leaves the later steps in the
    array uncalled, and the world is the one step k left plus the report of
    its failure. *)
Theorem runSteps_short_circuit
    (options : value) (pre : list Step) (step : Step) (post : list Step)
    (w w1 w2 : World) (rs : list value) (r : value) :
  pass_all options pre w = Some (rs, w1) ->
  step options w1 = (Returned r, w2) ->
  is_Result r = true ->
  prop r "error" = VBool true ->
  runSteps (pre ++ step :: post) options w
  = mkRun (Returned r)
          (map (fun s => (s, options)) (pre ++ [step]))
          post
          (snd (report r w2)).
Proof.
  intros Hpre Hstep HR Herr. revert w rs Hpre.
  induction pre as [| s steps IH]; intros w rs Hpre.
  - cbn in Hpre. inversion Hpre; subst.
    cbn [app map]. apply runSteps_failing_step; assumption.
  - apply pass_all_cons in Hpre as (r0 & w0 & rs' & Hs & Hok & Hrest & _).
    cbn [app map].
    rewrite (runSteps_passing_step _ _ _ _ _ _ Hs Hok).
    rewrite (IH _ _ Hrest).
    destruct steps; reflexivity.
Qed.

(** C2 (pass-through).  When every step of a non-empty sequence returns a
    Result with error: false, runSteps calls all of them in order, each with
    the same options, and returns the Result of the last one. *)
Theorem runSteps_pass_through
    (options : value) (steps : list Step) (w w' : World) (rs : list value) :
  steps <> [] ->
  pass_all options steps w = Some (rs, w') ->
  runSteps steps options w
  = mkRun (Returned (last rs VUndefined))
          (map (fun s => (s, options)) steps)
          []
          w'.
Proof.
  intros Hne. revert w rs.
  induction steps as [| s steps IH]; intros w rs Hpasses.
  - contradiction.
  - apply pass_all_cons in Hpasses as (r0 & w0 & rs' & Hs & Hok & Hrest & ->).
    rewrite (runSteps_passing_step _ _ _ _ _ _ Hs Hok).
    destruct steps as [| s' steps'].
    + cbn in Hrest. inversion Hrest; subst. reflexivity.
    + rewrite (IH ltac:(discriminate) _ _ Hrest).
      apply pass_all_cons in Hrest as (r1 & w1 & rs1 & _ & _ & _ & ->).
      reflexivity.
Qed.

(** C7 (the runner does not throw).  On a non-empty sequence whose steps
    each return a Result whatever the world they start from, runSteps
    returns a Result: it neither throws nor stays pending. *)
Theorem runSteps_returns_a_Result
    (options : value) (steps : list Step) (w : World) :
  steps <> [] ->
  (forall s w0, In s steps ->
     exists r w1, s options w0 = (Returned r, w1) /\ is_Result r = true) ->
  exists r, outcome (runSteps steps options w) = Returned r /\ is_Result r = true.
Proof.
  revert w. induction steps as [| s rest IH]; intros w Hne Hsteps.
  - contradiction.
  - destruct (Hsteps s w (or_introl eq_refl)) as (r & w1 & Hs & HR).
    assert (Hbool : exists b, prop r "error" = VBool b).
    { unfold is_Result in HR. destruct r; try discriminate.
      destruct (prop (VObj fields) "error"); try discriminate. eexists; reflexivity. }
    destruct Hbool as ([|] & Herr).
    + rewrite (runSteps_failing_step _ _ _ _ _ _ Hs HR Herr).
      exists r. split; [reflexivity | exact HR].
    + rewrite (runSteps_passing_step _ _ _ _ _ _ Hs Herr).
      destruct rest as [| s' rest'].
      * exists r. split; [reflexivity | exact HR].
      * apply IH; [discriminate |].
        intros s0 w0 Hin. apply Hsteps. right. exact Hin.
Qed.

(** C10 (the array is consumed).  Whatever runSteps does, it has shifted
    every step it called off the front of the caller's array, each called
    with the options it was given: the array is left holding exactly the
    steps that were not called. *)
Theorem runSteps_consumes_the_array
    (options : value) (steps : list Step) (w : World) :
  let run := runSteps steps options w in
  steps = (map fst (invoked run) ++ remaining run)%list
  /\ Forall (fun call => snd call = options) (invoked run).
Proof.
  revert w. induction steps as [| s rest IH]; intros w; cbn zeta.
  - split; [reflexivity | constructor].
  - cbn [runSteps].
    destruct (s options w) as [[r | e |] w1]; cbn;
      try (split; [reflexivity | repeat constructor]).
    destruct (get r "error" w1) as [[err | e |] w2]; cbn;
      try (split; [reflexivity | repeat constructor]).
    destruct (when (truthy err) (report r) w2) as [[[] | e |] w3]; cbn;
      try (split; [reflexivity | repeat constructor]).
    destruct (negb (truthy err) && negb (Nat.eqb (List.length rest) 0)); cbn.
    + destruct (IH w3) as [Heq Hall]. split.
      * f_equal. exact Heq.
      * constructor; [reflexivity | exact Hall].
    + split; [reflexivity | repeat constructor].
Qed.

(** ** The exec wrapper *)

Lemma when_print_returns b l xs w :
  exists w', when b (logger.print l (VArr xs)) w = (Returned tt, w').
Proof.
  destruct b; cbn.
  - destruct (print_array_returns l xs w) as (w' & E & _). exists w'. exact E.
  - exists w. reflexivity.
Qed.

Lemma on_event_returns debug ev st w :
  exists st' w',
    on_event debug ev st w = (Returned st', w')
    /\ (forall v, settled st = Some v -> settled st' = Some v)
    /\ (is_data ev = true -> settled st = None ->
        settled st' = None \/ code_is_1 (settled st'))
    /\ (forall data, ev = StderrData data -> settled st = None ->
        code_is_1 (settled st')).
Proof.
  destruct ev as [data | data | code | code]; cbn [on_event]; unfold bind.
  - destruct (when_print_returns debug logger.Info [VStr "STDOUT: "; VStr data] w)
      as (w' & E).
    unfold logger.info. rewrite E. eexists _, w'. split; [reflexivity |].
    cbn. repeat split; auto; discriminate.
  - destruct (when_print_returns debug logger.Error [VStr ("STDERR: " ++ data)] w)
      as (w' & E).
    unfold logger.error. rewrite E. eexists _, w'. split; [reflexivity |].
    unfold resolve; cbn. repeat split.
    + intros v Hv. rewrite Hv. reflexivity.
    + intros _ ->. right. eexists. split; reflexivity.
    + intros d _ ->. eexists. split; reflexivity.
  - eexists _, w. split; [reflexivity |]. unfold resolve. repeat split.
    + intros v Hv. rewrite Hv. exact Hv.
    + discriminate.
    + discriminate.
  - eexists _, w. split; [reflexivity |]. unfold resolve. repeat split.
    + intros v Hv. rewrite Hv. exact Hv.
    + discriminate.
    + discriminate.
Qed.

Lemma emit_keeps_settled debug events : forall st w v,
  settled st = Some v ->
  exists st' w', emit debug events st w = (Returned st', w') /\ settled st' = Some v.
Proof.
  induction events as [| ev rest IH]; intros st w v Hv; cbn [emit].
  - exists st, w. split; [reflexivity | exact Hv].
  - destruct (on_event_returns debug ev st w) as (st1 & w1 & E & Hkeep & _).
    unfold bind. rewrite E. apply IH. apply Hkeep. exact Hv.
Qed.

Lemma emit_data_only debug events : forall st w,
  forallb is_data events = true ->
  settled st = None \/ code_is_1 (settled st) ->
  exists st' w', emit debug events st w = (Returned st', w')
                 /\ (settled st' = None \/ code_is_1 (settled st')).
Proof.
  induction events as [| ev rest IH]; intros st w Hdata Hst; cbn [emit].
  - exists st, w. split; [reflexivity | exact Hst].
  - cbn in Hdata. apply andb_prop in Hdata as [Hev Hrest].
    destruct (on_event_returns debug ev st w) as (st1 & w1 & E & Hkeep & Hnone & _).
    unfold bind. rewrite E. apply IH; [exact Hrest |].
    destruct Hst as [Hst | (v & Hv & Hcode)].
    + apply Hnone; assumption.
    + right. exists v. split; [apply Hkeep; exact Hv | exact Hcode].
Qed.

Lemma emit_app debug pre post st w :
  emit debug (pre ++ post) st w = bind (emit debug pre st) (emit debug post) w.
Proof.
  revert st w. induction pre as [| ev rest IH]; intros st w; cbn [emit app].
  - reflexivity.
  - unfold bind.
    destruct (on_event debug ev st w) as [[st1 | e |] w1]; try reflexivity.
    rewrite IH. reflexivity.
Qed.

Lemma emit_stderr_before_exit debug pre data post st w :
  forallb is_data pre = true ->
  settled st = None ->
  exists st' w', emit debug (pre ++ StderrData data :: post) st w = (Returned st', w')
                 /\ code_is_1 (settled st').
Proof.
  intros Hpre Hst. rewrite emit_app. unfold bind at 1.
  destruct (emit_data_only debug pre st w Hpre (or_introl Hst))
    as (st1 & w1 & -> & Hst1).
  cbn [emit]. unfold bind at 1.
  destruct (on_event_returns debug (StderrData data) st1 w1)
    as (st2 & w2 & -> & Hkeep & _ & Hstderr).
  assert (H2 : code_is_1 (settled st2)).
  { destruct Hst1 as [Hnone | (v & Hv & Hcode)].
    - apply (Hstderr data eq_refl Hnone).
    - exists v. split; [apply Hkeep; exact Hv | exact Hcode]. }
  destruct H2 as (v & Hv & Hcode).
  destruct (emit_keeps_settled debug post st2 w2 v Hv) as (st3 & w3 & -> & Hst3).
  exists st3, w3. split; [reflexivity |]. exists v. split; assumption.
Qed.

(** C9 (stderr means failure).  When the child process emits data on
    stderr before its exit and close events, the promise of exec is resolved
    with code 1, whatever follows: a later exit with code 0 does not change
    it. *)
Theorem exec_stderr_before_exit_is_code_1
    (spawner : string -> World -> list ProcEvent) (command : string)
    (options : value) (w : World)
    (pre : list ProcEvent) (data : string) (post : list ProcEvent) :
  spawner command w = (pre ++ StderrData data :: post)%list ->
  forallb is_data pre = true ->
  exists response w',
    exec_with spawner command options w = (Returned response, w')
    /\ prop response "code" = VNum 1.
Proof.
  intros Hevents Hpre. unfold exec_with. rewrite Hevents.
  set (debug := truthy _).
  unfold bind at 1. cbn [record_spawn].
  unfold bind at 1.
  destruct (when_print_returns debug logger.Log
              [VStr ("Executing `" ++ command ++ "` ...")]
              (mkWorld (console w) (shell_env w) (spawned w ++ [command])
                       (prompted w) (logins w) (exitCode w))) as (w1 & E).
  unfold logger.log. rewrite E.
  unfold bind at 1.
  destruct (emit_stderr_before_exit debug pre data post (mkExecState "" "" None) w1
              Hpre eq_refl) as (st & w2 & -> & v & Hv & Hcode).
  rewrite Hv. exists v, w2. split; [reflexivity | exact Hcode].
Qed.

(** The earlier exec resolves with code 1 in the same situation; it has no
    listener for close, so only an exit event can come first. *)
Lemma Legacy_on_event_returns ev st w :
  exists st' w',
    Legacy.on_event ev st w = (Returned st', w')
    /\ (forall v, settled st = Some v -> settled st' = Some v)
    /\ (is_data ev = true -> settled st = None ->
        settled st' = None \/ code_is_1 (settled st'))
    /\ (forall data, ev = StderrData data -> settled st = None ->
        code_is_1 (settled st')).
Proof.
  destruct ev as [data | data | code | code]; cbn [Legacy.on_event]; unfold bind.
  - cbn. eexists _, _. split; [reflexivity |]. repeat split; auto; discriminate.
  - destruct (print_array_returns logger.Error [VStr ("STDERR: " ++ data)] w)
      as (w' & E & _).
    unfold logger.error. rewrite E. eexists _, w'. split; [reflexivity |].
    unfold resolve; cbn. repeat split.
    + intros v Hv. rewrite Hv. reflexivity.
    + intros _ ->. right. eexists. split; reflexivity.
    + intros d _ ->. eexists. split; reflexivity.
  - eexists _, w. split; [reflexivity |]. unfold resolve. repeat split.
    + intros v Hv. rewrite Hv. exact Hv.
    + discriminate.
    + discriminate.
  - eexists _, w. split; [reflexivity |]. repeat split; auto; discriminate.
Qed.

Lemma Legacy_exec_stderr_resolves_first
    (P : Platform) (command : string) (w : World)
    (pre : list ProcEvent) (data : string) (post : list ProcEvent) :
  spawn P command w = (pre ++ StderrData data :: post)%list ->
  forallb is_data pre = true ->
  exists response w',
    Legacy.exec P command w = (Returned response, w')
    /\ prop response "code" = VNum 1.
Proof.
  intros Hevents Hpre. unfold Legacy.exec. rewrite Hevents.
  unfold bind at 1. cbn [record_spawn]. unfold bind at 1.
  destruct (print_array_returns logger.Log [VStr ("Running `" ++ command ++ "` ...")]
              (mkWorld (console w) (shell_env w) (spawned w ++ [command])
                       (prompted w) (logins w) (exitCode w))) as (w1 & E & _).
  unfold logger.log. rewrite E. unfold bind at 1.
  assert (Hkeep : forall events st w0 v, settled st = Some v ->
            exists st' w', Legacy.emit events st w0 = (Returned st', w')
                           /\ settled st' = Some v).
  { induction events as [| ev rest IH]; intros st w0 v Hv; cbn [Legacy.emit].
    - exists st, w0. split; [reflexivity | exact Hv].
    - destruct (Legacy_on_event_returns ev st w0) as (st1 & w2 & E1 & Hk & _).
      unfold bind. rewrite E1. apply IH. apply Hk. exact Hv. }
  assert (Hgo : forall events st w0,
            forallb is_data events = true ->
            settled st = None \/ code_is_1 (settled st) ->
            exists st' w', Legacy.emit (events ++ StderrData data :: post) st w0
                           = (Returned st', w')
                           /\ code_is_1 (settled st')).
  { induction events as [| ev rest IH]; intros st w0 Hdata Hst; cbn [Legacy.emit app].
    - destruct (Legacy_on_event_returns (StderrData data) st w0)
        as (st1 & w2 & E1 & Hk & _ & Hstderr).
      unfold bind. rewrite E1.
      assert (H1 : code_is_1 (settled st1)).
      { destruct Hst as [Hnone | (v & Hv & Hcode)].
        - apply (Hstderr data eq_refl Hnone).
        - exists v. split; [apply Hk; exact Hv | exact Hcode]. }
      destruct H1 as (v & Hv & Hcode).
      destruct (Hkeep post st1 w2 v Hv) as (st2 & w3 & -> & Hst2).
      exists st2, w3. split; [reflexivity |]. exists v. split; assumption.
    - cbn in Hdata. apply andb_prop in Hdata as [Hev Hrest].
      destruct (Legacy_on_event_returns ev st w0) as (st1 & w2 & E1 & Hk & Hnone & _).
      unfold bind. rewrite E1. apply IH; [exact Hrest |].
      destruct Hst as [Hst | (v & Hv & Hcode)].
      + apply Hnone; assumption.
      + right. exists v. split; [apply Hk; exact Hv | exact Hcode]. }
  destruct (Hgo pre (mkExecState "" "" None) w1 Hpre (or_introl eq_refl))
    as (st & w2 & -> & v & Hv & Hcode).
  rewrite Hv. exists v, w2. split; [reflexivity | exact Hcode].
Qed.

(** ** The earlier runner *)

(** The earlier runner consumes the array in the same way. *)
Lemma Legacy_array_is_consumed
    (options : value) (steps : list Step) (w : World) :
  let run := Legacy.runSteps steps options w in
  steps = (map fst (invoked run) ++ remaining run)%list.
Proof.
  revert w. induction steps as [| s rest IH]; intros w; cbn zeta.
  - reflexivity.
  - cbn [Legacy.runSteps].
    destruct (s options w) as [[r | e |] w1]; cbn; try reflexivity.
    destruct (get r "error" w1) as [[err | e |] w2]; cbn; try reflexivity.
    destruct (when (truthy err) (logger.error (prop r "messages")) w2)
      as [[[] | e |] w3]; cbn; try reflexivity.
    destruct (negb (truthy err) && negb (Nat.eqb (List.length rest) 0)); cbn.
    + f_equal. apply IH.
    + reflexivity.
Qed.

(** It does not look at [result.messages] before logging it: a failing
    Result that has a message and no messages makes it throw, where the
    later runner returns the Result. *)
Example Legacy_runSteps_throws_without_messages :
  outcome (Legacy.runSteps [const_step "one" failed_result]
             (sample_options "default") empty_world)
  = Threw (type_error "undefined is not iterable")
  /\ outcome (runSteps [const_step "one" failed_result]
                (sample_options "default") empty_world)
     = Returned failed_result.
Proof. split; reflexivity. Qed.

(** ** The step functions *)


Lemma assoc_assign_same k x fs : assoc k (assign k x fs) = Some x.
Proof.
  induction fs as [| [k' v'] rest IH]; cbn.
  - rewrite String.eqb_refl. reflexivity.
  - destruct (String.eqb k k') eqn:E; cbn.
    + rewrite String.eqb_refl. reflexivity.
    + rewrite E. exact IH.
Qed.

Lemma assoc_assign_other k k' x fs :
  String.eqb k' k = false -> assoc k' (assign k x fs) = assoc k' fs.
Proof.
  intros Hne. induction fs as [| [k0 v0] rest IH]; cbn.
  - rewrite Hne. reflexivity.
  - destruct (String.eqb k k0) eqn:E; cbn.
    + apply String.eqb_eq in E. subst k0. rewrite Hne. reflexivity.
    + destruct (String.eqb k' k0); [reflexivity | exact IH].
Qed.

(** Attaching [messages] to a failing result. *)
Lemma set_messages_of_failure result lines :
  truthy (prop result "error") = true ->
  has_own (set_prop result "messages" lines) "messages" = true
  /\ prop (set_prop result "messages" lines) "error" = prop result "error"
  /\ prop (set_prop result "messages" lines) "message" = prop result "message"
  /\ prop (set_prop result "messages" lines) "messages" = lines.
Proof.
  destruct result; cbn; try discriminate. intros _.
  rewrite assoc_assign_same.
  rewrite !assoc_assign_other by reflexivity. repeat split.
Qed.







(** ** The cloud-project step and the registry file *)

Lemma is_nonempty_string_prototype k :
  is_nonempty_string (object_prototype k) = false.
Proof.
  unfold object_prototype.
  destruct (String.eqb k "constructor"); [reflexivity |].
  destruct (existsb (String.eqb k) object_prototype_methods); [reflexivity |].
  destruct (String.eqb k "__proto__"); reflexivity.
Qed.

Lemma get_eq v k : is_nullish v = false -> get v k = ret (prop v k).
Proof. unfold get. intros ->. reflexivity. Qed.

Lemma validateOptions_returns options w :
  is_nullish options = false ->
  exists v,
    validateOptions options w = (Returned v, w)
    /\ (exists b, prop v "error" = VBool b)
    /\ is_nullish v = false.
Proof.
  intros Hn. unfold validateOptions, runValidators.
  rewrite !(get_eq options) by exact Hn.
  unfold validateDirectory, validateProjectKey. cbn.
  destruct (is_nonempty_string (prop options "directory")); cbn;
    [ destruct (is_nonempty_string (prop options "projectKey")); cbn | ];
    eexists; repeat split; eexists; reflexivity.
Qed.

Section RegistryWithoutKey.

Variable P : Platform.
Variables (options : value) (directory content : string).
Variables (fields projects : list (string * value)).

Hypothesis Hdirectory : prop options "directory" = VStr directory.
Hypothesis Hread : fs_readFile P (path_join P directory ".firebaserc") = inl content.
Hypothesis Hparse : JSON_parse P content = inl (VObj fields).
Hypothesis Hprojects : assoc "projects" fields = Some (VObj projects).
Hypothesis Hnonempty : projects <> [].
Hypothesis Hmissing : assoc (to_string (prop options "projectKey")) projects = None.

Lemma options_not_nullish : is_nullish options = false.
Proof. destruct options; try reflexivity; discriminate. Qed.

Lemma getFirebaserc_reads_registry w :
  getFirebaserc_default P (VStr directory) w
  = (Returned (VObj [("error", VBool false); ("firebaserc", VObj fields)]), w).
Proof.
  unfold getFirebaserc_default, getFirebaserc, readFirebaserc, try_catch, bind.
  cbn [path_join_firebaserc ret]. unfold readFile. rewrite Hread. cbn.
  unfold parseFirebaserc_default, parseFirebaserc, parseJson, try_catch, bind.
  cbn [to_string]. rewrite Hparse. reflexivity.
Qed.

Lemma getFirebasercProjects_finds_projects w :
  getFirebasercProjects_default P (VStr directory) w
  = (Returned (VObj [("error", VBool false); ("projects", VObj projects)]), w).
Proof.
  unfold getFirebasercProjects_default, getFirebasercProjects, bind.
  rewrite getFirebaserc_reads_registry. cbn.
  unfold findProjectsInFirebaserc_default, findProjectsInFirebaserc, validateFirebaserc,
    runValidators.
  destruct fields as [| f fs]; [discriminate |].
  destruct projects as [| p ps]; [contradiction |].
  cbn - [assoc]. rewrite Hprojects. reflexivity.
Qed.

Lemma findProjectNameByKey_missing w :
  findProjectNameByKey_default (prop options "projectKey") (VObj projects) w
  = (Returned (response true "The project name is invalid."), w).
Proof.
  unfold findProjectNameByKey_default, findProjectNameByKey, bind. cbn.
  rewrite Hmissing. unfold validateProjectName.
  rewrite is_nonempty_string_prototype. reflexivity.
Qed.

Lemma getProjectName_missing w :
  exists r,
    getProjectName_default P options w = (Returned r, w)
    /\ prop r "error" = VBool true.
Proof.
  unfold getProjectName_default, getProjectName, bind.
  destruct (validateOptions_returns options w options_not_nullish)
    as (v & -> & ([|] & Hv) & Hnv).
  - unfold opt_prop. rewrite Hnv, Hv. cbn. exists v. split; [reflexivity | exact Hv].
  - unfold opt_prop. rewrite Hnv, Hv. cbn [truthy].
    unfold readProjectNameFromFirebaserc_default, readProjectNameFromFirebaserc, bind.
    rewrite (get_not_nullish options "directory" w options_not_nullish).
    rewrite Hdirectory, getFirebasercProjects_finds_projects.
    cbn - [findProjectNameByKey_default].
    rewrite findProjectNameByKey_missing.
    eexists. split; reflexivity.
Qed.

End RegistryWithoutKey.

(** When the reader reports an error, the step returns a failing Result and
    the parser, whatever it is, is not called. *)
Lemma stepConfigureGoogle_reader_error options parser reader w :
  is_nullish options = false ->
  (forall w0, exists r, reader options w0 = (Returned r, w0)
                        /\ prop r "error" = VBool true) ->
  exists r' w',
    stepConfigureGoogle options parser reader w = (Returned r', w')
    /\ prop r' "error" = VBool true /\ has_own r' "messages" = true
    /\ shell_env w' = shell_env w /\ spawned w' = spawned w
    /\ prompted w' = prompted w /\ logins w' = logins w.
Proof.
  intros Hn Hreader. unfold stepConfigureGoogle.
  unfold bind at 1.
  destruct (print_array_returns logger.Info [VStr "Configuring Google Cloud ..."] w)
    as (w1 & E1 & He1 & Hs1 & Hp1 & Hl1).
  unfold logger.info. rewrite E1.
  destruct (Hreader w1) as (r & Hreturned & Herr).
  assert (Hr : is_nullish r = false) by (eapply prop_bool_not_nullish; exact Herr).
  assert (Hor : js_or r (VObj []) = r).
  { unfold js_or. destruct r; try reflexivity; discriminate. }
  unfold bind at 1. rewrite Hreturned.
  rewrite Hor, Herr. cbn [truthy].
  unfold bind at 1. unfold logger.log.
  match goal with
  | |- context [logger.print logger.Log (VArr ?xs) w1] =>
      destruct (print_array_returns logger.Log xs w1)
        as (w2 & E2 & He2 & Hs2 & Hp2 & Hl2); rewrite E2
  end.
  unfold bind at 1. cbn [ret].
  unfold bind at 1. rewrite (get_not_nullish r "error" w2 Hr), Herr. cbn [truthy].
  unfold bind at 1. rewrite (get_not_nullish options "projectKey" w2 Hn).
  cbn [ret].
  eexists _, w2. split; [reflexivity |].
  match goal with
  | |- context [set_prop r "messages" ?lines] =>
      destruct (set_messages_of_failure r lines) as (Hown & Herror & _);
        [rewrite Herr; reflexivity |]
  end.
  repeat split; congruence.
Qed.

(** C4 (missing registry key).  When the registry file of the options'
    directory is read and parsed, its projects mapping is a non-empty object
    and the options' projectKey is not one of its keys, the cloud-project
    step returns a Result with error: true and no command is spawned: the
    gcloud provider is not called. *)
Theorem stepConfigureGoogle_missing_key
    (P : Platform) (options : value) (w : World)
    (directory content : string) (fields projects : list (string * value)) :
  prop options "directory" = VStr directory ->
  fs_readFile P (path_join P directory ".firebaserc") = inl content ->
  JSON_parse P content = inl (VObj fields) ->
  assoc "projects" fields = Some (VObj projects) ->
  projects <> [] ->
  assoc (to_string (prop options "projectKey")) projects = None ->
  exists r w',
    stepConfigureGoogle_default P options w = (Returned r, w')
    /\ prop r "error" = VBool true
    /\ has_own r "messages" = true
    /\ spawned w' = spawned w.
Proof.
  intros Hdirectory Hread Hparse Hprojects Hnonempty Hmissing.
  assert (Hn : is_nullish options = false)
    by (destruct options; try reflexivity; discriminate).
  destruct (stepConfigureGoogle_reader_error options
              (configureGoogleProject_default P) (getProjectName_default P) w Hn)
    as (r & w' & Hstep & Herr & Hown & _ & Hspawned & _).
  - intros w0.
    eapply getProjectName_missing; eassumption.
  - exists r, w'. repeat split; assumption.
Qed.

(** The registry has the key: the project is set with one gcloud command. *)
Example stepConfigureGoogle_sets_the_project :
  let run := stepConfigureGoogle_default sample_platform (sample_options "default")
               empty_world in
  prop (match fst run with Returned r => r | _ => VUndefined end) "error" = VBool false
  /\ spawned (snd run)
     = ["gcloud config set project acme-prod --no-user-output-enabled"].
Proof. split; vm_compute; reflexivity. Qed.

(** ** The package-registry-credential step *)

Lemma obtainFontAwesomeToken_empty_token P (prompter : value -> Provider) w :
  (forall questions w0,
     fst (prompter questions w0) = Promise (Returned empty_token_answer)
     /\ spawned (snd (prompter questions w0)) = spawned w0) ->
  exists w',
    obtainFontAwesomeToken P prompter w = (Returned invalid_token_result, w')
    /\ spawned w' = spawned w.
Proof.
  intros Hprompter. unfold obtainFontAwesomeToken.
  unfold bind at 1. unfold logger.info.
  match goal with
  | |- context [logger.print logger.Info (VArr ?xs) w] =>
      destruct (print_array_returns logger.Info xs w) as (w1 & -> & _ & Hs1 & _)
  end.
  unfold bind at 1. unfold call_catch.
  match goal with
  | |- context [prompter ?q w1] =>
      destruct (Hprompter q w1) as (Hanswer & Hs2);
        destruct (prompter q w1) as [c w2]
  end.
  cbn in Hanswer, Hs2. subst c. cbn.
  exists w2. split; [reflexivity | congruence].
Qed.

(** C5 (empty token).  With a prompter that answers with an empty token,
    the package-registry-credential step returns a Result with error: true
    and the message that the token is invalid, and neither npm command is
    run: the executable, whatever it is, is not called and nothing is
    spawned. *)
Theorem stepConfigureFontAwesome_empty_token
    (P : Platform) (prompter : value -> Provider)
    (executable : string -> M value) (w : World) :
  (forall questions w0,
     fst (prompter questions w0) = Promise (Returned (VObj [("token", VStr "")]))
     /\ spawned (snd (prompter questions w0)) = spawned w0) ->
  exists w',
    stepConfigureFontAwesome
      (configureFontAwesome (makeFontAwesomeConfigurationSteps P prompter executable)) w
    = (Returned
         (VObj [("error", VBool true);
                ("message", VStr "The Font Awesome token is invalid.");
                ("token", VStr "");
                ("messages", VArr [VStr "Failed to configure Font Awesome."])]),
       w')
    /\ spawned w' = spawned w.
Proof.
  intros Hprompter.
  unfold stepConfigureFontAwesome, configureFontAwesome.
  unfold bind at 1. unfold bind at 1. unfold logger.info.
  match goal with
  | |- context [logger.print logger.Info (VArr ?xs) w] =>
      destruct (print_array_returns logger.Info xs w) as (w1 & -> & _ & Hs1 & _)
  end.
  unfold makeFontAwesomeConfigurationSteps.
  cbn [configureFontAwesome_from].
  unfold bind at 1. cbn [get response is_nullish ret prop assoc].
  cbn [String.eqb Ascii.eqb Bool.eqb truthy].
  unfold bind at 1.
  destruct (obtainFontAwesomeToken_empty_token P prompter w1 Hprompter)
    as (w2 & -> & Hs2).
  cbn. exists w2. split; [reflexivity | congruence].
Qed.

(** ** Nothing in the program assigns an exit code *)

Lemma keeps_exit_ret {A} (a : A) : keeps_exitCode (ret a).
Proof. intros w. reflexivity. Qed.

Lemma keeps_exit_throw {A} e : keeps_exitCode (@throw A e).
Proof. intros w. reflexivity. Qed.

Lemma keeps_exit_bind {A B} (m : M A) (f : A -> M B) :
  keeps_exitCode m -> (forall a, keeps_exitCode (f a)) -> keeps_exitCode (bind m f).
Proof.
  intros Hm Hf w. unfold bind. specialize (Hm w).
  destruct (m w) as [[a | e |] w1]; cbn in *; try exact Hm.
  rewrite (Hf a w1). exact Hm.
Qed.

Lemma keeps_exit_get v k : keeps_exitCode (get v k).
Proof.
  unfold get. destruct (is_nullish v); [apply keeps_exit_throw | apply keeps_exit_ret].
Qed.

Lemma keeps_exit_print l messages : keeps_exitCode (logger.print l messages).
Proof.
  intros w. unfold logger.print.
  destruct (logger.styleOutput l messages) as [e | [[color header] content]]; reflexivity.
Qed.

Lemma keeps_exit_when b (m : M unit) : keeps_exitCode m -> keeps_exitCode (when b m).
Proof. intros Hm. destruct b; [exact Hm | apply keeps_exit_ret]. Qed.

Lemma keeps_exit_try_catch {A} (body : M A) (handler : value -> M A) :
  keeps_exitCode body -> (forall e, keeps_exitCode (handler e)) ->
  keeps_exitCode (try_catch body handler).
Proof.
  intros Hb Hh w. unfold try_catch. specialize (Hb w).
  destruct (body w) as [[a | e |] w1]; cbn in *; try exact Hb.
  rewrite (Hh e w1). exact Hb.
Qed.

Lemma keeps_exit_record_spawn command : keeps_exitCode (record_spawn command).
Proof. intros w. reflexivity. Qed.

Lemma keeps_exit_on_event debug ev st : keeps_exitCode (on_event debug ev st).
Proof.
  unfold logger.info, logger.error, logger.log.
  destruct ev; cbn [on_event];
    try apply keeps_exit_ret;
    (apply keeps_exit_bind;
     [apply keeps_exit_when, keeps_exit_print | intros _; apply keeps_exit_ret]).
Qed.

Lemma keeps_exit_emit debug events : forall st, keeps_exitCode (emit debug events st).
Proof.
  induction events as [| ev rest IH]; intros st; cbn [emit].
  - apply keeps_exit_ret.
  - apply keeps_exit_bind; [apply keeps_exit_on_event | exact IH].
Qed.

Lemma keeps_exit_exec_with spawner command options :
  keeps_exitCode (exec_with spawner command options).
Proof.
  intros w. unfold exec_with. cbv zeta.
  generalize (spawner command w). intros events.
  apply keeps_exit_bind; [apply keeps_exit_record_spawn | intros _].
  apply keeps_exit_bind;
    [apply keeps_exit_when; unfold logger.log; apply keeps_exit_print | intros _].
  apply keeps_exit_bind; [apply keeps_exit_emit | intros st].
  destruct (settled st); [apply keeps_exit_ret | intros w0; reflexivity].
Qed.

Lemma keeps_exit_exec P command : keeps_exitCode (exec P command).
Proof. apply keeps_exit_exec_with. Qed.

Lemma keeps_exit_configureNodeEnv env : keeps_exitCode (configureNodeEnv env).
Proof. intros w. reflexivity. Qed.

Lemma keeps_exit_call_catch (provider : Provider) (handler : value -> M value) :
  (forall w, exitCode (snd (provider w)) = exitCode w) ->
  (forall e, keeps_exitCode (handler e)) ->
  keeps_exitCode (call_catch provider handler).
Proof.
  intros Hp Hh w. unfold call_catch. specialize (Hp w).
  destruct (provider w) as [c w1]. cbn [snd] in Hp. unfold await_catch.
  destruct c as [e | [a | e |]]; cbn [snd]; try exact Hp.
  rewrite (Hh e w1). exact Hp.
Qed.

Lemma keeps_exit_login P w : exitCode (snd (login P w)) = exitCode w.
Proof. reflexivity. Qed.

Lemma keeps_exit_prompt P questions w : exitCode (snd (prompt P questions w)) = exitCode w.
Proof. reflexivity. Qed.

Ltac exit_step :=
  first
    [ apply keeps_exit_ret
    | apply keeps_exit_throw
    | apply keeps_exit_get
    | apply keeps_exit_print
    | apply keeps_exit_exec
    | apply keeps_exit_configureNodeEnv
    | apply keeps_exit_when
    | apply keeps_exit_try_catch; [| intros ?]
    | apply keeps_exit_call_catch;
      [first [apply keeps_exit_login | apply keeps_exit_prompt] | intros ?]
    | apply keeps_exit_bind; [| intros ?]
    | match goal with
      | |- keeps_exitCode (if ?c then _ else _) => destruct c
      | |- keeps_exitCode (match ?x with _ => _ end) => destruct x
      end ].

Lemma keeps_exit_runValidators_from validators : forall current,
  (forall v, In v validators -> keeps_exitCode (v tt)) ->
  keeps_exitCode (runValidators_from validators current).
Proof.
  induction validators as [| v rest IH]; intros current Hall; cbn [runValidators_from].
  - apply keeps_exit_ret.
  - apply keeps_exit_bind.
    + destruct (truthy (opt_prop current "error")); [apply keeps_exit_ret |].
      apply Hall. left. reflexivity.
    + intros result. apply keeps_exit_bind; [apply keeps_exit_get |].
      intros error. apply IH. intros v0 Hin. apply Hall. right. exact Hin.
Qed.

Lemma keeps_exit_getProjectName P options :
  keeps_exitCode (getProjectName_default P options).
Proof.
  unfold getProjectName_default, getProjectName, validateOptions, runValidators.
  apply keeps_exit_bind.
  - apply keeps_exit_runValidators_from. intros v [<- | [<- | []]]; repeat exit_step.
  - intros validation.
    destruct (truthy (opt_prop validation "error")); [apply keeps_exit_ret |].
    unfold readProjectNameFromFirebaserc_default, readProjectNameFromFirebaserc.
    apply keeps_exit_bind; [apply keeps_exit_get | intros directory].
    apply keeps_exit_bind.
    + unfold getFirebasercProjects_default, getFirebasercProjects.
      apply keeps_exit_bind.
      * unfold getFirebaserc_default, getFirebaserc, readFirebaserc, readFile,
          path_join_firebaserc, parseFirebaserc_default, parseFirebaserc, parseJson.
        repeat exit_step.
      * intros firebasercJson. apply keeps_exit_bind; [apply keeps_exit_get | intros error].
        destruct (truthy error); [apply keeps_exit_ret |].
        unfold findProjectsInFirebaserc_default, findProjectsInFirebaserc,
          validateFirebaserc, runValidators.
        apply keeps_exit_bind.
        -- apply keeps_exit_runValidators_from.
           intros v [<- | [<- | []]]; repeat exit_step.
        -- intros validationResult. repeat exit_step.
    + intros readerResult. apply keeps_exit_bind; [apply keeps_exit_get | intros error].
      destruct (truthy error); [apply keeps_exit_ret |].
      unfold findProjectNameByKey_default, findProjectNameByKey. repeat exit_step.
Qed.

Lemma keeps_exit_stepConfigureNodeEnv options :
  keeps_exitCode (stepConfigureNodeEnv_default options).
Proof.
  unfold stepConfigureNodeEnv_default, stepConfigureNodeEnv.
  unfold logger.info, logger.log, logger.success. repeat exit_step.
Qed.

Lemma keeps_exit_stepConfigureGoogle P options :
  keeps_exitCode (stepConfigureGoogle_default P options).
Proof.
  unfold stepConfigureGoogle_default, stepConfigureGoogle.
  unfold logger.info, logger.log, logger.success.
  apply keeps_exit_bind; [apply keeps_exit_print | intros _].
  apply keeps_exit_bind; [apply keeps_exit_getProjectName | intros projectNameResult].
  apply keeps_exit_bind; [apply keeps_exit_print | intros _].
  apply keeps_exit_bind.
  - destruct (truthy _); [apply keeps_exit_ret |].
    unfold configureGoogleProject_default, configureGoogleProject, setGoogleCloudProject.
    cbv zeta. repeat exit_step.
  - intros result. repeat exit_step.
Qed.

Lemma keeps_exit_configureFirebase_from steps : forall state,
  (forall s st, In s steps -> keeps_exitCode (s st)) ->
  keeps_exitCode (configureFirebase_from steps state).
Proof.
  induction steps as [| s rest IH]; intros state Hall; cbn [configureFirebase_from].
  - apply keeps_exit_ret.
  - apply keeps_exit_bind.
    + destruct (truthy (opt_prop state "error")); [apply keeps_exit_ret |].
      apply Hall. left. reflexivity.
    + intros result. apply keeps_exit_bind; [apply keeps_exit_get |].
      intros error. apply IH. intros s0 st Hin. apply Hall. right. exact Hin.
Qed.

Lemma keeps_exit_stepConfigureFirebaseProject P options :
  keeps_exitCode (stepConfigureFirebaseProject_default P options).
Proof.
  unfold stepConfigureFirebaseProject_default, stepConfigureFirebaseProject.
  unfold logger.success.
  apply keeps_exit_bind.
  - unfold configureFirebase_default, configureFirebase. cbv zeta.
    apply keeps_exit_configureFirebase_from.
    unfold makeFirebaseConfigurationSteps.
    intros s st [<- | [<- | [<- | []]]];
      unfold configureFirebaseWebFrameworks, configureFirebaseLogin,
        configureFirebaseProject, logger.info, logger.error;
      cbv zeta; repeat exit_step.
  - intros result. repeat exit_step.
Qed.

Lemma keeps_exit_configureFontAwesome_from steps : forall state,
  (forall s st, In s steps -> keeps_exitCode (s st)) ->
  keeps_exitCode (configureFontAwesome_from steps state).
Proof.
  induction steps as [| s rest IH]; intros state Hall; cbn [configureFontAwesome_from].
  - apply keeps_exit_ret.
  - apply keeps_exit_bind; [apply keeps_exit_get | intros stateError].
    apply keeps_exit_bind.
    + destruct (truthy stateError); [apply keeps_exit_ret |].
      apply Hall. left. reflexivity.
    + intros latestState. apply keeps_exit_bind; [apply keeps_exit_get |].
      intros error. cbv zeta. apply IH. intros s0 st Hin. apply Hall. right. exact Hin.
Qed.

Lemma keeps_exit_stepConfigureFontAwesome P options :
  keeps_exitCode (stepConfigureFontAwesome_bound P options).
Proof.
  unfold stepConfigureFontAwesome_bound, stepConfigureFontAwesome.
  apply keeps_exit_bind.
  - unfold configureFontAwesome_default, configureFontAwesome. cbv zeta.
    unfold logger.info.
    apply keeps_exit_bind; [apply keeps_exit_print | intros _].
    apply keeps_exit_configureFontAwesome_from.
    unfold makeFontAwesomeConfigurationSteps.
    intros s st [<- | [<- | [<- | []]]];
      unfold obtainFontAwesomeToken, setFontAwesomeRegistry, setFontAwesomeToken,
        logger.info;
      cbv zeta; repeat exit_step.
  - intros result. repeat exit_step.
Qed.

Lemma keeps_exit_stepFinish options : keeps_exitCode (stepFinish_step options).
Proof. unfold stepFinish_step, stepFinish, logger.success. repeat exit_step. Qed.

Lemma keeps_exit_report r : keeps_exitCode (report r).
Proof. unfold report, logger.error, logger.log. repeat exit_step. Qed.

Lemma keeps_exit_runSteps steps options :
  (forall s, In s steps -> keeps_exitCode (s options)) ->
  forall w, exitCode (world_after (runSteps steps options w)) = exitCode w.
Proof.
  induction steps as [| s rest IH]; intros Hall w.
  - reflexivity.
  - cbn [runSteps].
    pose proof (Hall s (or_introl eq_refl) w) as H1.
    destruct (s options w) as [[r | e |] w1]; cbn in H1; cbn; try exact H1.
    pose proof (keeps_exit_get r "error" w1) as H2.
    destruct (get r "error" w1) as [[err | e |] w2]; cbn in H2; cbn; try congruence.
    pose proof (keeps_exit_when (truthy err) (report r) (keeps_exit_report r) w2) as H3.
    destruct (when (truthy err) (report r) w2) as [[[] | e |] w3]; cbn in H3; cbn;
      try congruence.
    match goal with |- context [if ?c then _ else _] => destruct c end;
      cbn [and_then world_after].
    + rewrite (IH (fun s0 Hin => Hall s0 (or_intror Hin)) w3). congruence.
    + congruence.
Qed.

Lemma keeps_exit_run_sequence steps options :
  (forall s, In s steps -> keeps_exitCode (s options)) ->
  keeps_exitCode (run_sequence steps options).
Proof.
  intros Hall w. unfold run_sequence. cbn [snd]. apply keeps_exit_runSteps. exact Hall.
Qed.

(** Neither subcommand assigns [process.exitCode], whatever the machine,
    the options and the outcome. *)
Lemma keeps_exit_action P c options : keeps_exitCode (action P c options).
Proof.
  destruct c; cbn [action]; unfold setup, setupFirebase; cbv zeta; unfold logger.info;
    (apply keeps_exit_bind; [apply keeps_exit_print | intros _]);
    apply keeps_exit_run_sequence.
  - intros s [<- | [<- | [<- | [<- | [<- | []]]]]].
    + apply keeps_exit_stepConfigureNodeEnv.
    + apply keeps_exit_stepConfigureGoogle.
    + apply keeps_exit_stepConfigureFirebaseProject.
    + apply keeps_exit_stepConfigureFontAwesome.
    + apply keeps_exit_stepFinish.
  - intros s [<- | [<- | [<- | []]]].
    + apply keeps_exit_stepConfigureGoogle.
    + apply keeps_exit_stepConfigureFirebaseProject.
    + apply keeps_exit_stepFinish.
Qed.

(** ** Providers that reject *)

Lemma readFirebaserc_rejected_read P directory e w :
  fs_readFile P (path_join P directory ".firebaserc") = inr e ->
  is_nullish e = false ->
  readFirebaserc P (VStr directory) w
  = (Returned (VObj [("error", VBool true); ("message", prop e "message")]), w).
Proof.
  intros Hread He.
  unfold readFirebaserc, try_catch, bind. cbn [path_join_firebaserc ret].
  unfold readFile. rewrite Hread. cbn [throw].
  rewrite (get_not_nullish e "message" w He). reflexivity.
Qed.

Lemma when_print_frame b l xs w :
  exists w', when b (logger.print l (VArr xs)) w = (Returned tt, w')
             /\ spawned w' = spawned w.
Proof.
  destruct b; cbn.
  - destruct (print_array_returns l xs w) as (w' & E & _ & Hs & _).
    exists w'. split; assumption.
  - exists w. split; reflexivity.
Qed.

Lemma configureFirebaseLogin_rejected options (executable : Provider) e w w1 :
  options <> VNull ->
  executable w = (Promise (Threw e), w1) ->
  is_nullish e = false ->
  truthy (prop e "message") = true ->
  exists w',
    configureFirebaseLogin options executable w
    = (Returned (VObj [("error", VBool true); ("message", prop e "message")]), w')
    /\ spawned w' = spawned w1.
Proof.
  intros Hoptions Hcall He Hmessage. unfold configureFirebaseLogin.
  assert (Hn : is_nullish (default_to (VObj []) options) = false).
  { destruct options; try reflexivity. contradiction. }
  unfold bind at 1. rewrite (get_not_nullish _ "debug" w Hn).
  unfold bind at 1. unfold call_catch. rewrite Hcall. cbn [await_catch].
  unfold bind at 1. rewrite (get_not_nullish e "message" w1 He).
  unfold bind at 1.
  match goal with
  | |- context [when ?b (logger.error (VArr ?xs)) w1] =>
      destruct (when_print_frame b logger.Error xs w1) as (w2 & E & Hs)
  end.
  unfold logger.error. rewrite E. cbn [ret typeof prop assoc String.eqb Ascii.eqb Bool.eqb].
  cbn. unfold js_or, opt_prop. cbn. rewrite Hmessage.
  exists w2. split; [reflexivity | exact Hs].
Qed.

Lemma parseJson_thrown P text e w :
  JSON_parse P text = inr e ->
  is_nullish e = false ->
  parseJson P (VStr text) w
  = (Returned (VObj [("error", VBool true); ("message", prop e "message")]), w).
Proof.
  intros Hparse He. unfold parseJson, try_catch. cbn [to_string].
  rewrite Hparse. cbn [throw]. unfold bind.
  rewrite (get_not_nullish e "message" w He). reflexivity.
Qed.

Lemma obtainFontAwesomeToken_rejected P (prompter : value -> Provider) name stack w :
  (forall questions w0,
     fst (prompter questions w0) = Promise (Threw (VErr name "boom" stack))) ->
  exists w',
    obtainFontAwesomeToken P prompter w
    = (Returned (VObj [("error", VBool true); ("message", VStr "boom");
                       ("token", VUndefined)]), w').
Proof.
  intros Hprompter. unfold obtainFontAwesomeToken.
  unfold bind at 1. unfold logger.info.
  match goal with
  | |- context [logger.print logger.Info (VArr ?xs) w] =>
      destruct (print_array_returns logger.Info xs w) as (w1 & -> & _)
  end.
  unfold bind at 1. unfold call_catch.
  match goal with
  | |- context [prompter ?q w1] =>
      pose proof (Hprompter q w1) as Hanswer;
        destruct (prompter q w1) as [c w2]
  end.
  cbn in Hanswer. subst c. cbn.
  exists w2. reflexivity.
Qed.

(** C8, as the code has it.  Four provider calls are made under a catch:
    the file read of readFirebaserc, JSON.parse in parseJson, the prompt of
    obtainFontAwesomeToken and the login of configureFirebaseLogin.  When
    one of them fails with an Error whose message is boom, the function
    returns a Result with error: true and message boom and nothing of the
    Error's stack, whatever that stack was. *)
Theorem caught_rejection_becomes_a_Result
    (P : Platform) (directory text : string) (options : value)
    (prompter : value -> Provider) (executable : Provider)
    (w w1 : World) (name stack : string) :
  fs_readFile P (path_join P directory ".firebaserc") = inr (VErr name "boom" stack) ->
  JSON_parse P text = inr (VErr name "boom" stack) ->
  (forall questions w0,
     fst (prompter questions w0) = Promise (Threw (VErr name "boom" stack))) ->
  executable w = (Promise (Threw (VErr name "boom" stack)), w1) ->
  options <> VNull ->
  readFirebaserc P (VStr directory) w
  = (Returned (VObj [("error", VBool true); ("message", VStr "boom")]), w)
  /\ parseJson P (VStr text) w
     = (Returned (VObj [("error", VBool true); ("message", VStr "boom")]), w)
  /\ (exists w',
        obtainFontAwesomeToken P prompter w
        = (Returned (VObj [("error", VBool true); ("message", VStr "boom");
                           ("token", VUndefined)]), w'))
  /\ (exists w',
        configureFirebaseLogin options executable w
        = (Returned (VObj [("error", VBool true); ("message", VStr "boom")]), w')).
Proof.
  intros Hread Hparse Hprompter Hcall Hoptions. repeat split.
  - rewrite (readFirebaserc_rejected_read P directory _ w Hread eq_refl). reflexivity.
  - rewrite (parseJson_thrown P text _ w Hparse eq_refl). reflexivity.
  - exact (obtainFontAwesomeToken_rejected P prompter name stack w Hprompter).
  - destruct (configureFirebaseLogin_rejected options executable
                (VErr name "boom" stack) w w1 Hoptions Hcall eq_refl eq_refl)
      as (w' & E & _).
    exists w'. exact E.
Qed.

(** A provider that is awaited without a catch: its rejection is the
    rejection of the step, and of the runner. *)
Lemma stepConfigureFirebaseProject_rejects options executable e w w1 :
  executable options w = (Threw e, w1) ->
  stepConfigureFirebaseProject options executable w = (Threw e, w1).
Proof.
  intros Hcall. unfold stepConfigureFirebaseProject, bind. rewrite Hcall. reflexivity.
Qed.

Lemma setFontAwesomeRegistry_rejects executable e w :
  (forall command w0, executable command w0 = (Threw e, w0)) ->
  setFontAwesomeRegistry executable w = (Threw e, w).
Proof.
  intros Hcall. unfold setFontAwesomeRegistry, bind. rewrite Hcall. reflexivity.
Qed.

(** C8, counterexample: two provider calls that fail with an Error whose
    message is boom and are not caught.  The executable of the
    deployment-link step rejects: the step rejects with it and returns no
    Result.  The login function throws before it returns a promise: the
    .catch of configureFirebaseLogin is never reached. *)
Lemma uncaught_rejection_of_the_executable :
  stepConfigureFirebaseProject (sample_options "default") (fun _ => throw boom) empty_world
  = (Threw boom, empty_world)
  /\ ~ (exists w',
          stepConfigureFirebaseProject (sample_options "default")
            (fun _ => throw boom) empty_world
          = (Returned boom_result, w'))
  /\ configureFirebaseLogin (VObj []) (fun w => (SyncThrow boom, w)) empty_world
     = (Threw boom, empty_world).
Proof.
  split; [reflexivity | split].
  - intros (w' & H). discriminate H.
  - reflexivity.
Qed.

(** ** The exit code *)

(** C3, as the code has it.  When no exit code was assigned before and the
    sequence of the setup or of the firebase subcommand returns a Result,
    the process exits with 0, whether the Result has error: true or
    error: false: nothing the subcommand runs assigns an exit code. *)
Theorem exit_code_is_zero_for_every_Result
    (P : Platform) (c : Subcommand) (options : value) (w : World) (r : value) :
  exitCode w = None ->
  fst (action P c options w) = Returned r ->
  exit_code P c options w = Some 0%Z.
Proof.
  intros Hnone H. unfold exit_code.
  pose proof (keeps_exit_action P c options w) as Hkeeps.
  destruct (action P c options w) as [o w']. cbn [fst snd] in *.
  rewrite H, Hkeeps, Hnone. reflexivity.
Qed.

(** C3, counterexample: setup with a projectKey the registry file does not
    have.  The final Result has error: true and the exit code is 0. *)
Lemma failing_setup_exits_with_zero :
  (exists r,
      fst (setup sample_platform (sample_options "missing-key") empty_world) = Returned r
      /\ prop r "error" = VBool true)
  /\ exit_code sample_platform CmdSetup (sample_options "missing-key") empty_world
     = Some 0%Z.
Proof.
  split.
  - eexists. split; vm_compute; reflexivity.
  - vm_compute. reflexivity.
Qed.

(** ** The theorems at sample inputs *)

Lemma runSteps_short_circuit_witness :
  outcome (runSteps three_steps (sample_options "default") empty_world)
  = Returned failed_result
  /\ remaining (runSteps three_steps (sample_options "default") empty_world)
     = [const_step "three" ok_result].
Proof.
  pose proof (runSteps_short_circuit (sample_options "default")
                [const_step "one" ok_result] (const_step "two" failed_result)
                [const_step "three" ok_result]
                empty_world _ _ [ok_result] failed_result
                eq_refl eq_refl eq_refl eq_refl) as H.
  cbn [app] in H. unfold three_steps. rewrite H. split; reflexivity.
Defined.

Lemma runSteps_pass_through_witness :
  outcome (runSteps two_passing_steps (sample_options "default") empty_world)
  = Returned (VObj [("error", VBool false); ("message", VStr "done")])
  /\ remaining (runSteps two_passing_steps (sample_options "default") empty_world) = [].
Proof.
  rewrite (runSteps_pass_through (sample_options "default") two_passing_steps
             empty_world _ _ ltac:(discriminate) eq_refl).
  split; reflexivity.
Defined.

Lemma runSteps_returns_a_Result_witness :
  exists r,
    outcome (runSteps three_steps (sample_options "default") empty_world) = Returned r
    /\ is_Result r = true.
Proof.
  apply (runSteps_returns_a_Result (sample_options "default") three_steps empty_world).
  - discriminate.
  - intros s w0 [<- | [<- | [<- | []]]]; eexists _, _; split; reflexivity.
Defined.

Lemma exec_stderr_before_exit_witness :
  exists response w',
    exec_with noisy_spawner "npm install" (VObj []) empty_world = (Returned response, w')
    /\ prop response "code" = VNum 1.
Proof.
  apply (exec_stderr_before_exit_is_code_1 noisy_spawner "npm install" (VObj [])
           empty_world [StdoutData "installing"] "npm WARN deprecated"
           [ExitEvent (VNum 0); CloseEvent (VNum 0)]).
  - reflexivity.
  - reflexivity.
Defined.

Lemma stepConfigureGoogle_missing_key_witness :
  exists r w',
    stepConfigureGoogle_default sample_platform (sample_options "missing-key") empty_world
    = (Returned r, w')
    /\ prop r "error" = VBool true
    /\ has_own r "messages" = true
    /\ spawned w' = spawned empty_world.
Proof.
  apply (stepConfigureGoogle_missing_key sample_platform (sample_options "missing-key")
           empty_world "/app" sample_firebaserc_text
           [("projects", VObj [("default", VStr "acme-prod")])]
           [("default", VStr "acme-prod")]).
  - reflexivity.
  - reflexivity.
  - reflexivity.
  - reflexivity.
  - discriminate.
  - reflexivity.
Defined.

Lemma stepConfigureFontAwesome_empty_token_witness :
  exists w',
    stepConfigureFontAwesome_bound sample_platform (sample_options "default") empty_world
    = (Returned
         (VObj [("error", VBool true);
                ("message", VStr "The Font Awesome token is invalid.");
                ("token", VStr "");
                ("messages", VArr [VStr "Failed to configure Font Awesome."])]),
       w')
    /\ spawned w' = spawned empty_world.
Proof.
  apply (stepConfigureFontAwesome_empty_token sample_platform (prompt sample_platform)
           (exec sample_platform) empty_world).
  intros questions w0. split; reflexivity.
Defined.


Lemma caught_rejection_witness :
  readFirebaserc rejecting_platform (VStr "/app") empty_world
  = (Returned boom_result, empty_world)
  /\ parseJson rejecting_platform (VStr "{") empty_world
     = (Returned boom_result, empty_world)
  /\ (exists w',
        obtainFontAwesomeToken rejecting_platform (prompt rejecting_platform) empty_world
        = (Returned (VObj [("error", VBool true); ("message", VStr "boom");
                           ("token", VUndefined)]), w'))
  /\ (exists w',
        configureFirebaseLogin (VObj [("debug", VBool true)]) (login rejecting_platform)
          empty_world
        = (Returned boom_result, w')).
Proof.
  apply (caught_rejection_becomes_a_Result rejecting_platform "/app" "{"
           (VObj [("debug", VBool true)])
           (prompt rejecting_platform) (login rejecting_platform)
           empty_world (mkWorld [] [] [] 0 1 None)
           "Error" "Error: boom at Object.<anonymous> (provider.js:1:1)").
  - reflexivity.
  - reflexivity.
  - intros questions w0. reflexivity.
  - reflexivity.
  - discriminate.
Defined.

Lemma exit_code_of_a_successful_run :
  exit_code sample_platform CmdFirebase (sample_options "default") empty_world = Some 0%Z.
Proof.
  apply (exit_code_is_zero_for_every_Result sample_platform CmdFirebase
           (sample_options "default") empty_world (VObj [("error", VBool false)])).
  - reflexivity.
  - vm_compute. reflexivity.
Defined.

(** ** More on validate.js *)

Lemma runValidators_from_failed rest r w :
  truthy (prop r "error") = true ->
  runValidators_from rest r w = (Returned r, w).
Proof.
  intros Herr. assert (Hn : is_nullish r = false) by (eapply truthy_prop_not_nullish; eauto).
  induction rest as [| v rest IH]; cbn [runValidators_from].
  - reflexivity.
  - unfold opt_prop. rewrite Hn, Herr. unfold bind at 1. cbn [ret].
    unfold bind at 1. rewrite (get_not_nullish r "error" w Hn), Herr. exact IH.
Qed.

Lemma runValidators_from_passing pre : forall rest current w w1,
  truthy (opt_prop current "error") = false ->
  all_succeed (map (fun v => v tt) pre) w = Some w1 ->
  runValidators_from (pre ++ rest) current w = runValidators_from rest current w1.
Proof.
  induction pre as [| v pre IH]; intros rest current w w1 Hcur Hpass.
  - cbn in Hpass. inversion Hpass. reflexivity.
  - cbn [map all_succeed] in Hpass. cbn [app runValidators_from].
    rewrite Hcur. unfold bind at 1.
    destruct (v tt w) as [[r | e |] w0]; try discriminate.
    destruct (is_nullish r) eqn:Hn; try discriminate.
    destruct (truthy (prop r "error")) eqn:Herr; try discriminate.
    unfold bind at 1. rewrite (get_not_nullish r "error" w0 Hn), Herr.
    apply IH; assumption.
Qed.

(** X10.  The first validator that fails decides: its result is returned and the
    validators after it are not called. *)
Theorem runValidators_first_failure
    (pre post : list (unit -> M value)) (failing : unit -> M value)
    (successResponse r : value) (w w1 w2 : World) :
  truthy (opt_prop successResponse "error") = false ->
  all_succeed (map (fun v => v tt) pre) w = Some w1 ->
  failing tt w1 = (Returned r, w2) ->
  truthy (prop r "error") = true ->
  runValidators (pre ++ failing :: post) successResponse w = (Returned r, w2).
Proof.
  intros Hsucc Hpre Hfail Herr. unfold runValidators.
  rewrite (runValidators_from_passing pre (failing :: post) successResponse w w1 Hsucc Hpre).
  cbn [runValidators_from]. rewrite Hsucc. unfold bind at 1. rewrite Hfail.
  unfold bind at 1.
  rewrite (get_not_nullish r "error" w2 (truthy_prop_not_nullish _ _ Herr)), Herr.
  apply runValidators_from_failed. exact Herr.
Qed.

(** X11.  When no validator fails, the result is the success response that was
    passed in, not the result of any validator. *)
Theorem runValidators_all_pass
    (validators : list (unit -> M value)) (successResponse : value) (w w' : World) :
  truthy (opt_prop successResponse "error") = false ->
  all_succeed (map (fun v => v tt) validators) w = Some w' ->
  runValidators validators successResponse w = (Returned successResponse, w').
Proof.
  intros Hsucc Hpass. unfold runValidators.
  rewrite <- (app_nil_r validators).
  rewrite (runValidators_from_passing validators [] successResponse w w' Hsucc Hpass).
  reflexivity.
Qed.

Lemma is_nonempty_string_iff v :
  is_nonempty_string v = true <-> exists s, v = VStr s /\ s <> "".
Proof.
  unfold is_nonempty_string. split.
  - destruct v; cbn; try discriminate.
    destruct s; cbn; [discriminate |]. intros _. eexists; split; [reflexivity | discriminate].
  - intros (s & -> & Hs). destruct s; [contradiction |]. reflexivity.
Qed.

Lemma option_validator_error ok_text error_text v :
  prop (js_or (js_and (VBool (is_nonempty_string v)) (response false ok_text))
              (response true error_text)) "error"
  = VBool (negb (is_nonempty_string v)).
Proof. destruct (is_nonempty_string v); reflexivity. Qed.

(** The four validators of a single option or name accept exactly the
    non-empty strings: undefined, null, numbers, objects and the empty
    string are all errors. *)
Theorem string_validators_accept_nonempty_strings (v : value) :
  (prop (validateDirectory v) "error" = VBool false <-> exists s, v = VStr s /\ s <> "")
  /\ (prop (validateProjectKey v) "error" = VBool false <-> exists s, v = VStr s /\ s <> "")
  /\ (prop (validateProjectName v) "error" = VBool false <-> exists s, v = VStr s /\ s <> "")
  /\ (prop (validateGoogleProjectName v) "error" = VBool false
      <-> exists s, v = VStr s /\ s <> "").
Proof.
  unfold validateDirectory, validateProjectKey, validateProjectName,
    validateGoogleProjectName.
  cbv zeta. rewrite !option_validator_error.
  rewrite <- (is_nonempty_string_iff v).
  destruct (is_nonempty_string v); cbn; repeat split; intros; congruence.
Qed.

(** ** More on the registry file (firebase.js) *)

Lemma defined_projects_iff v :
  (truthy v && String.eqb (typeof v) "object" && negb (is_array v)
   && Nat.ltb 0 (keys_length v)) = true
  <-> exists projects, v = VObj projects /\ projects <> [].
Proof.
  split.
  - destruct v as [| | b | n | s | xs | ps | n m st | n]; cbn;
      rewrite ?andb_false_r; try discriminate.
    destruct ps; cbn; [discriminate |]. intros _. eexists; split; [reflexivity | discriminate].
  - intros (ps & -> & Hne). destruct ps; [contradiction | reflexivity].
Qed.

Lemma bind_ret {A B} (a : A) (f : A -> M B) : bind (ret a) f = f a.
Proof. reflexivity. Qed.

Lemma validateFirebasercProjects_cases v :
  validateFirebasercProjects v
  = if truthy v && String.eqb (typeof v) "object" && negb (is_array v)
       && Nat.ltb 0 (keys_length v)
    then response false ("The .firebaserc file contains a valid " ++ dq ++ "projects"
                           ++ dq ++ " property.")
    else response true ("The .firebaserc file does not contain a valid " ++ dq
                          ++ "projects" ++ dq ++ " property.").
Proof.
  unfold validateFirebasercProjects. cbv zeta.
  destruct (truthy v && String.eqb (typeof v) "object" && negb (is_array v)
            && Nat.ltb 0 (keys_length v)); reflexivity.
Qed.

(** X12.  validateFirebaserc never throws, not even on null, and accepts exactly
    the objects whose projects property is a non-empty object that is not an
    array. *)
Theorem validateFirebaserc_accepts (firebaserc : value) (w : World) :
  exists r,
    validateFirebaserc firebaserc w = (Returned r, w)
    /\ (prop r "error" = VBool false
        <-> exists fields projects,
              firebaserc = VObj fields
              /\ prop firebaserc "projects" = VObj projects
              /\ projects <> []).
Proof.
  unfold validateFirebaserc, runValidators.
  destruct firebaserc as [| | b | n | s | xs | fields | n m st | n];
    try (eexists; split; [reflexivity |]; cbn; split;
         [discriminate | intros (? & ? & ? & _); discriminate]).
  - (* arrays *)
    destruct xs as [| x xs]; cbn;
      (eexists; split; [reflexivity |]; cbn; split;
       [discriminate | intros (? & ? & ? & _); discriminate]).
  - (* objects *)
    destruct fields as [| f fields].
    + eexists; split; [reflexivity |]; cbn; split; [discriminate |].
      intros (fs & ps & _ & Hp & Hne). cbn in Hp. discriminate Hp.
    + rewrite (get_eq (VObj (f :: fields))) by reflexivity.
      rewrite bind_ret, validateFirebasercProjects_cases.
      pose proof (defined_projects_iff (prop (VObj (f :: fields)) "projects")) as Hiff.
      destruct (truthy (prop (VObj (f :: fields)) "projects")
                && String.eqb (typeof (prop (VObj (f :: fields)) "projects")) "object"
                && negb (is_array (prop (VObj (f :: fields)) "projects"))
                && Nat.ltb 0 (keys_length (prop (VObj (f :: fields)) "projects"))).
      * eexists; split; [reflexivity |]. cbn - [prop]. split; [| reflexivity].
        intros _. destruct (proj1 Hiff eq_refl) as (ps & Hp & Hne).
        exists (f :: fields), ps. repeat split; assumption.
      * eexists; split; [reflexivity |]. cbn - [prop]. split; [discriminate |].
        intros (fs & ps & _ & Hp & Hne).
        assert (false = true) by (apply Hiff; exists ps; split; assumption).
        discriminate.
Qed.

(** X13.  The options are checked before any file is touched: with a directory
    that is not a non-empty string, or else a projectKey that is not one,
    the result is the validation error, whatever the machine holds. *)
Theorem getProjectName_validates_first (P : Platform) (options : value) (w : World) :
  is_nullish options = false ->
  (is_nonempty_string (prop options "directory") = false ->
   getProjectName_default P options w
   = (Returned (response true "The directory option is required."), w))
  /\ (is_nonempty_string (prop options "directory") = true ->
      is_nonempty_string (prop options "projectKey") = false ->
      getProjectName_default P options w
      = (Returned (response true "The projectKey option is required."), w)).
Proof.
  intros Hn. unfold getProjectName_default, getProjectName, validateOptions, runValidators.
  rewrite !(get_eq options) by exact Hn. rewrite !bind_ret.
  unfold validateDirectory, validateProjectKey. cbv zeta. split.
  - intros Hd. rewrite Hd. reflexivity.
  - intros Hd Hk. rewrite Hd, Hk. reflexivity.
Qed.

(** X14.  readFirebaserc never rejects and changes nothing.  For a directory
    that is a string the result follows the read of the .firebaserc file in
    it: the text of the file with error: false, or error: true with the
    message of the Error the read was rejected with.  For a directory that is
    not a string the result is error: true with the message of the TypeError
    that path.join throws. *)
Theorem readFirebaserc_outcomes (P : Platform) (directory : value) (w : World) :
  (forall path e, fs_readFile P path = inr e -> is_nullish e = false) ->
  (forall d,
      directory = VStr d ->
      readFirebaserc P directory w
      = (Returned
           match fs_readFile P (path_join P d ".firebaserc") with
           | inl content => VObj [("error", VBool false); ("firebaserc", VStr content)]
           | inr e => VObj [("error", VBool true); ("message", prop e "message")]
           end, w))
  /\ (is_string directory = false ->
      exists message,
        readFirebaserc P directory w
        = (Returned (VObj [("error", VBool true); ("message", VStr message)]), w)).
Proof.
  intros Herrors. split.
  - intros d ->. unfold readFirebaserc, try_catch, bind.
    cbn [path_join_firebaserc ret]. unfold readFile.
    destruct (fs_readFile P (path_join P d ".firebaserc")) as [content | e] eqn:E.
    + reflexivity.
    + cbn [throw]. rewrite (get_not_nullish e "message" w (Herrors _ _ E)). reflexivity.
  - intros Hd. unfold readFirebaserc, try_catch, bind.
    destruct directory; try discriminate Hd; cbn; eexists; reflexivity.
Qed.

(** X15.  getFirebaserc reports the first thing that goes wrong, the read before
    the parse, with the message of its Error; otherwise it returns the parsed
    file. *)
Theorem getFirebaserc_outcomes (P : Platform) (directory : string) (w : World) :
  (forall path e, fs_readFile P path = inr e -> is_nullish e = false) ->
  (forall text e, JSON_parse P text = inr e -> is_nullish e = false) ->
  getFirebaserc_default P (VStr directory) w
  = (Returned
       match fs_readFile P (path_join P directory ".firebaserc") with
       | inr e => VObj [("error", VBool true); ("message", prop e "message")]
       | inl content =>
           match JSON_parse P content with
           | inr e => VObj [("error", VBool true); ("message", prop e "message")]
           | inl json => VObj [("error", VBool false); ("firebaserc", json)]
           end
       end, w).
Proof.
  intros Hread Hparse.
  unfold getFirebaserc_default, getFirebaserc, readFirebaserc, try_catch, bind.
  cbn [path_join_firebaserc ret]. unfold readFile.
  destruct (fs_readFile P (path_join P directory ".firebaserc")) as [content | e] eqn:E.
  - cbn. unfold parseFirebaserc_default, parseFirebaserc, parseJson, try_catch, bind.
    cbn [to_string].
    destruct (JSON_parse P content) as [json | e] eqn:E2.
    + reflexivity.
    + cbn. rewrite (get_not_nullish e "message" w (Hparse _ _ E2)). reflexivity.
  - cbn. rewrite (get_not_nullish e "message" w (Hread _ _ E)). reflexivity.
Qed.

Lemma getFirebasercProjects_of_registry P directory content fields projects w :
  fs_readFile P (path_join P directory ".firebaserc") = inl content ->
  JSON_parse P content = inl (VObj fields) ->
  assoc "projects" fields = Some (VObj projects) ->
  projects <> [] ->
  getFirebasercProjects_default P (VStr directory) w
  = (Returned (VObj [("error", VBool false); ("projects", VObj projects)]), w).
Proof.
  intros Hread Hparse Hprojects Hne.
  unfold getFirebasercProjects_default, getFirebasercProjects, bind.
  unfold getFirebaserc_default, getFirebaserc, readFirebaserc, try_catch, bind.
  cbn [path_join_firebaserc ret]. unfold readFile. rewrite Hread. cbn.
  unfold parseFirebaserc_default, parseFirebaserc, parseJson, try_catch, bind.
  cbn [to_string]. rewrite Hparse. cbn.
  unfold findProjectsInFirebaserc_default, findProjectsInFirebaserc, validateFirebaserc,
    runValidators.
  destruct fields as [| f fs]; [discriminate |].
  destruct projects as [| p ps]; [contradiction |].
  cbn - [assoc]. rewrite Hprojects. reflexivity.
Qed.

Lemma getProjectName_entry
    (P : Platform) (options : value) (w : World)
    (directory key content : string) (fields projects : list (string * value))
    (entry : value) :
  prop options "directory" = VStr directory -> directory <> "" ->
  prop options "projectKey" = VStr key -> key <> "" ->
  fs_readFile P (path_join P directory ".firebaserc") = inl content ->
  JSON_parse P content = inl (VObj fields) ->
  assoc "projects" fields = Some (VObj projects) ->
  assoc key projects = Some entry ->
  getProjectName_default P options w
  = (Returned (if is_nonempty_string entry
               then VObj [("error", VBool false); ("projectName", entry)]
               else response true "The project name is invalid."), w).
Proof.
  intros Hdir Hd Hkey Hk Hread Hparse Hprojects Hentry.
  assert (Hn : is_nullish options = false)
    by (destruct options; try reflexivity; discriminate).
  assert (Hne : projects <> []) by (destruct projects; [discriminate | discriminate]).
  unfold getProjectName_default, getProjectName, validateOptions, runValidators.
  rewrite !(get_eq options) by exact Hn. rewrite !bind_ret.
  unfold validateDirectory, validateProjectKey. cbv zeta.
  rewrite Hdir, Hkey.
  rewrite (proj2 (is_nonempty_string_iff (VStr directory)))
    by (eexists; split; [reflexivity | exact Hd]).
  rewrite (proj2 (is_nonempty_string_iff (VStr key)))
    by (eexists; split; [reflexivity | exact Hk]).
  cbn - [readProjectNameFromFirebaserc_default].
  unfold readProjectNameFromFirebaserc_default, readProjectNameFromFirebaserc, bind.
  rewrite (get_not_nullish options "directory" w Hn), Hdir, Hkey.
  rewrite (getFirebasercProjects_of_registry P directory content fields projects w
             Hread Hparse Hprojects Hne).
  cbn - [findProjectNameByKey_default].
  unfold findProjectNameByKey_default, findProjectNameByKey, bind. cbn - [is_nonempty_string].
  rewrite Hentry. unfold validateProjectName. cbv zeta.
  destruct (is_nonempty_string entry); reflexivity.
Qed.

(** X16.  What getProjectName makes of a registry entry: a non-empty string is
    returned as the project name, anything else (an empty name, a number,
    null) is the error that the project name is invalid. *)
Theorem getProjectName_of_entry
    (P : Platform) (options : value) (w : World)
    (directory key content : string) (fields projects : list (string * value))
    (entry : value) :
  prop options "directory" = VStr directory -> directory <> "" ->
  prop options "projectKey" = VStr key -> key <> "" ->
  fs_readFile P (path_join P directory ".firebaserc") = inl content ->
  JSON_parse P content = inl (VObj fields) ->
  assoc "projects" fields = Some (VObj projects) ->
  assoc key projects = Some entry ->
  getProjectName_default P options w
  = (Returned (if is_nonempty_string entry
               then VObj [("error", VBool false); ("projectName", entry)]
               else response true "The project name is invalid."), w).
Proof.
  intros Hdir Hd Hkey Hk Hread Hparse Hprojects Hentry.
  eapply getProjectName_entry; eassumption.
Qed.

(** ** More on exec.js *)

Lemma when_print_effect (b : bool) l xs w :
  exists w', when b (logger.print l (VArr xs)) w = (Returned tt, w')
             /\ same_but_console w w' /\ (b = false -> w' = w).
Proof.
  destruct b; cbn.
  - destruct (print_array_returns l xs w) as (w' & E & H).
    exists w'. repeat split; try apply H; try exact E. discriminate.
  - exists w. repeat split.
Qed.

Lemma on_event_effect debug ev st w :
  exists st' w',
    on_event debug ev st w = (Returned st', w')
    /\ same_but_console w w' /\ (debug = false -> w' = w)
    /\ (forall v, settled st = Some v -> settled st' = Some v)
    /\ (settled st = None -> (settled st' = None <-> is_stdout ev = true)).
Proof.
  destruct ev as [data | data | code | code]; cbn [on_event]; unfold bind.
  - destruct (when_print_effect debug logger.Info [VStr "STDOUT: "; VStr data] w)
      as (w' & E & Hf & Hs).
    unfold logger.info. rewrite E. eexists _, w'. split; [reflexivity |].
    split; [exact Hf |]. split; [exact Hs |]. cbn. split.
    + intros v Hv. exact Hv.
    + intros Hnone. split; [reflexivity | intros _; exact Hnone].
  - destruct (when_print_effect debug logger.Error [VStr ("STDERR: " ++ data)] w)
      as (w' & E & Hf & Hs).
    unfold logger.error. rewrite E. eexists _, w'. split; [reflexivity |].
    split; [exact Hf |]. split; [exact Hs |]. unfold resolve; cbn. split.
    + intros v Hv. rewrite Hv. reflexivity.
    + intros Hnone. rewrite Hnone. split; discriminate.
  - eexists _, w. split; [reflexivity |].
    split; [repeat split |]. split; [reflexivity |]. unfold resolve. split.
    + intros v Hv. rewrite Hv. exact Hv.
    + intros Hnone. rewrite Hnone. split; discriminate.
  - eexists _, w. split; [reflexivity |].
    split; [repeat split |]. split; [reflexivity |]. unfold resolve. split.
    + intros v Hv. rewrite Hv. exact Hv.
    + intros Hnone. rewrite Hnone. split; discriminate.
Qed.

Lemma emit_effect debug events : forall st w,
  exists st' w',
    emit debug events st w = (Returned st', w')
    /\ same_but_console w w' /\ (debug = false -> w' = w)
    /\ (forall v, settled st = Some v -> settled st' = Some v)
    /\ (settled st = None -> (settled st' = None <-> forallb is_stdout events = true)).
Proof.
  induction events as [| ev rest IH]; intros st w; cbn [emit forallb].
  - exists st, w. split; [reflexivity |].
    split; [repeat split |]. split; [reflexivity |]. split; [auto |].
    intros Hnone. split; [reflexivity | intros _; exact Hnone].
  - destruct (on_event_effect debug ev st w)
      as (st1 & w1 & E1 & (He1 & Hs1 & Hp1 & Hl1) & Hq1 & Hk1 & Hn1).
    unfold bind. rewrite E1.
    destruct (IH st1 w1) as (st2 & w2 & E2 & (He2 & Hs2 & Hp2 & Hl2) & Hq2 & Hk2 & Hn2).
    exists st2, w2. split; [exact E2 |].
    split; [repeat split; congruence |].
    split; [intros Hd; rewrite (Hq2 Hd); apply Hq1; exact Hd |].
    split; [intros v Hv; apply Hk2, Hk1; exact Hv |].
    intros Hnone. specialize (Hn1 Hnone).
    destruct (settled st1) as [v |] eqn:Est1.
    + rewrite (Hk2 v eq_refl). split; [discriminate |].
      intros H. apply andb_prop in H as [Hev _].
      apply Hn1 in Hev. discriminate.
    + rewrite (Hn2 eq_refl). rewrite (proj1 Hn1 eq_refl). reflexivity.
Qed.

Lemma exec_effect spawner command options w :
  exists o w',
    exec_with spawner command options w = (o, w')
    /\ (forall e, o <> Threw e)
    /\ (o = Pending <-> forallb is_stdout (spawner command w) = true)
    /\ same_but_console (after_spawn command w) w'
    /\ (truthy (match prop options "debug" with
                 | VUndefined => prop options "verbose"
                 | d => d
                 end) = false -> w' = after_spawn command w).
Proof.
  unfold exec_with.
  set (debug := truthy _).
  unfold bind at 1. cbn [record_spawn].
  unfold bind at 1.
  destruct (when_print_effect debug logger.Log
              [VStr ("Executing `" ++ command ++ "` ...")]
              (mkWorld (console w) (shell_env w) (spawned w ++ [command])
                       (prompted w) (logins w) (exitCode w)))
    as (w1 & E & (He1 & Hs1 & Hp1 & Hl1) & Hq1).
  unfold logger.log. rewrite E. unfold bind at 1.
  destruct (emit_effect debug (spawner command w) (mkExecState "" "" None) w1)
    as (st & w2 & -> & (He2 & Hs2 & Hp2 & Hl2) & Hq2 & _ & Hn).
  specialize (Hn eq_refl).
  assert (Hframe : same_but_console (after_spawn command w) w2)
    by (cbn in He1, Hs1, Hp1, Hl1; unfold same_but_console, after_spawn; cbn;
        repeat split; congruence).
  assert (Hquiet : debug = false -> w2 = after_spawn command w)
    by (intros Hd; rewrite (Hq2 Hd); apply Hq1; exact Hd).
  destruct (settled st) as [v |] eqn:Est.
  - eexists _, w2. split; [reflexivity |].
    split; [discriminate |]. split; [| split; assumption].
    split; [discriminate |]. intros H. apply Hn in H. discriminate.
  - eexists _, w2. split; [reflexivity |].
    split; [discriminate |]. split; [| split; assumption].
    split; [intros _; apply Hn; reflexivity | reflexivity].
Qed.


Lemma append_empty_r (s : string) : s ++ "" = s.
Proof. induction s as [| c s IH]; cbn; [reflexivity | rewrite IH; reflexivity]. Qed.

Lemma append_assoc (a b c : string) : (a ++ b) ++ c = a ++ (b ++ c).
Proof. induction a as [| x a IH]; cbn; [reflexivity | rewrite IH; reflexivity]. Qed.

Lemma chunks_cons (out : string) (outs : list string) :
  chunks (out :: outs) = out ++ chunks outs.
Proof.
  unfold chunks. destruct outs as [| o outs]; cbn.
  - rewrite append_empty_r. reflexivity.
  - reflexivity.
Qed.

Lemma emit_stdout (outs : list string) : forall st w,
  emit false (map StdoutData outs) st w
  = (Returned (mkExecState (stdout st ++ chunks outs) (stderr st) (settled st)), w).
Proof.
  induction outs as [| out outs IH]; intros st w.
  - cbn. rewrite append_empty_r. destruct st; reflexivity.
  - cbn [map emit on_event when]. unfold bind at 1. cbn [ret bind].
    rewrite IH. cbn [stdout stderr settled].
    rewrite chunks_cons, append_assoc. reflexivity.
Qed.

Lemma exec_exit_response
    (spawner : string -> World -> list ProcEvent) (command : string) (w : World)
    (outs : list string) (settle : ProcEvent) (code : value) (post : list ProcEvent) :
  settle = ExitEvent code \/ settle = CloseEvent code ->
  spawner command w = (map StdoutData outs ++ settle :: post)%list ->
  exec_with spawner command (VObj []) w
  = (Returned (ExecResponse code "" (chunks outs)), after_spawn command w).
Proof.
  intros Hsettle Hevents. unfold exec_with. rewrite Hevents.
  cbn [prop assoc object_prototype existsb object_prototype_methods String.eqb
       Ascii.eqb Bool.eqb orb truthy when].
  unfold bind at 1. cbn [record_spawn]. unfold bind at 1. cbn [ret].
  unfold bind at 1. rewrite emit_app. unfold bind at 1.
  rewrite emit_stdout. cbn [stdout stderr settled emit].
  unfold bind at 1.
  assert (Hon : on_event false settle (mkExecState ("" ++ chunks outs) "" None)
                  (after_spawn command w)
                = (Returned (mkExecState ("" ++ chunks outs) ""
                               (Some (ExecResponse code "" (chunks outs)))),
                   after_spawn command w)).
  { destruct Hsettle as [-> | ->]; reflexivity. }
  unfold after_spawn in Hon. rewrite Hon.
  destruct (emit_effect false post
              (mkExecState ("" ++ chunks outs) "" (Some (ExecResponse code "" (chunks outs))))
              (mkWorld (console w) (shell_env w) (spawned w ++ [command])
                       (prompted w) (logins w) (exitCode w)))
    as (st & w' & -> & _ & Hq & Hk & _).
  rewrite (Hk _ eq_refl), (Hq eq_refl). reflexivity.
Qed.

(** X9.  A command that writes to stdout only and then exits (or closes) is
    resolved with that exit code, an empty stderr and the chunks of stdout
    in order; without the debug option nothing is printed. *)
Theorem exec_clean_exit
    (spawner : string -> World -> list ProcEvent) (command : string) (w : World)
    (outs : list string) (settle : ProcEvent) (code : value) (post : list ProcEvent) :
  settle = ExitEvent code \/ settle = CloseEvent code ->
  spawner command w = (map StdoutData outs ++ settle :: post)%list ->
  exec_with spawner command (VObj []) w
  = (Returned (ExecResponse code "" (chunks outs)), after_spawn command w).
Proof.
  intros Hsettle Hevents.
  eapply exec_exit_response; eassumption.
Qed.

(** ** More on gcloud.js and the cloud-project step *)

Lemma configureGoogleProject_valid executable name resp w w1 :
  name <> "" ->
  executable (gcloud_command name) w = (Returned resp, w1) ->
  is_nullish resp = false ->
  configureGoogleProject (VStr name) executable w
  = (Returned
       (response (negb (strict_eq (prop resp "code") (VNum 0)))
          (if negb (strict_eq (prop resp "code") (VNum 0))
           then "Failed to set the Google Cloud project to " ++ dq ++ name ++ dq ++ "."
           else "The Google Cloud project has been set to " ++ dq ++ name ++ dq ++ ".")),
     w1).
Proof.
  intros Hname Hcall Hresp.
  unfold configureGoogleProject, validateGoogleProjectName. cbv zeta.
  rewrite (proj2 (is_nonempty_string_iff (VStr name)))
    by (eexists; split; [reflexivity | exact Hname]).
  cbn [negb response prop assoc String.eqb Ascii.eqb Bool.eqb truthy].
  unfold setGoogleCloudProject. cbv zeta.
  assert (Hcmd : "gcloud config set project " ++ to_string (VStr name) ++ " "
                   ++ "--no-user-output-enabled" = gcloud_command name) by reflexivity.
  rewrite Hcmd. cbn [to_string]. unfold bind at 1. rewrite Hcall.
  unfold bind at 1. rewrite (get_not_nullish resp "code" w1 Hresp). reflexivity.
Qed.

(** configureGoogleProject runs no command for a project name that is not
    a non-empty string, whatever executable it is given; for a name it runs
    the one gcloud command with that name and reports an error exactly when
    the exit code is not the number 0. *)
Theorem configureGoogleProject_command
    (executable : string -> M value) (projectName : value) (w : World) :
  (is_nonempty_string projectName = false ->
   configureGoogleProject projectName executable w
   = (Returned (response true "The Google Cloud project name is invalid."), w))
  /\ (forall name resp w1,
        projectName = VStr name -> name <> "" ->
        executable ("gcloud config set project " ++ name ++ " --no-user-output-enabled") w
        = (Returned resp, w1) ->
        is_nullish resp = false ->
        exists r,
          configureGoogleProject projectName executable w = (Returned r, w1)
          /\ prop r "error" = VBool (negb (strict_eq (prop resp "code") (VNum 0)))).
Proof.
  split.
  - intros Hinvalid. unfold configureGoogleProject, validateGoogleProjectName. cbv zeta.
    rewrite Hinvalid. reflexivity.
  - intros name resp w1 -> Hname Hcall Hresp.
    rewrite (configureGoogleProject_valid executable name resp w w1 Hname Hcall Hresp).
    eexists. split; reflexivity.
Qed.

Lemma stepConfigureGoogle_gcloud
    (P : Platform) (options : value) (w : World)
    (directory key content name : string) (fields projects : list (string * value))
    (outs : list string) (settle : ProcEvent) (code : value) (post : list ProcEvent) :
  prop options "directory" = VStr directory -> directory <> "" ->
  prop options "projectKey" = VStr key -> key <> "" ->
  fs_readFile P (path_join P directory ".firebaserc") = inl content ->
  JSON_parse P content = inl (VObj fields) ->
  assoc "projects" fields = Some (VObj projects) ->
  assoc key projects = Some (VStr name) -> name <> "" ->
  settle = ExitEvent code \/ settle = CloseEvent code ->
  (forall w0, spawn P (gcloud_command name) w0
              = (map StdoutData outs ++ settle :: post)%list) ->
  exists r w',
    stepConfigureGoogle_default P options w = (Returned r, w')
    /\ prop r "error" = VBool (negb (strict_eq code (VNum 0)))
    /\ spawned w' = (spawned w ++ [gcloud_command name])%list.
Proof.
  intros Hdir Hd Hkey Hk Hread Hparse Hprojects Hentry Hname Hsettle Hspawn.
  assert (Hn : is_nullish options = false)
    by (destruct options; try reflexivity; discriminate).
  unfold stepConfigureGoogle_default, stepConfigureGoogle.
  unfold bind at 1. unfold logger.info.
  destruct (print_array_returns logger.Info [VStr "Configuring Google Cloud ..."] w)
    as (w1 & -> & _ & Hs1 & _).
  unfold bind at 1.
  rewrite (getProjectName_entry P options w1 directory key content fields projects
             (VStr name) Hdir Hd Hkey Hk Hread Hparse Hprojects Hentry).
  rewrite (proj2 (is_nonempty_string_iff (VStr name)))
    by (eexists; split; [reflexivity | exact Hname]).
  cbn [js_or truthy prop assoc String.eqb Ascii.eqb Bool.eqb].
  unfold bind at 1. unfold logger.log.
  match goal with
  | |- context [logger.print logger.Log (VArr ?xs) w1] =>
      destruct (print_array_returns logger.Log xs w1) as (w2 & -> & _ & Hs2 & _)
  end.
  unfold bind at 1. unfold configureGoogleProject_default.
  rewrite (configureGoogleProject_valid (exec P) name
             (ExecResponse code "" (chunks outs)) w2 (after_spawn (gcloud_command name) w2)
             Hname
             (exec_exit_response (spawn P) (gcloud_command name) w2 outs settle code post
                Hsettle (Hspawn w2))
             eq_refl).
  cbn [ExecResponse prop assoc String.eqb Ascii.eqb Bool.eqb].
  unfold bind at 1.
  destruct (negb (strict_eq code (VNum 0))).
  - cbn [get is_nullish response ret prop assoc String.eqb Ascii.eqb Bool.eqb truthy].
    unfold bind at 1. rewrite (get_not_nullish options "projectKey" _ Hn).
    cbn [ret]. eexists _, _. split; [reflexivity |].
    split; [reflexivity |].
    unfold after_spawn. cbn [spawned]. rewrite Hs2, Hs1. reflexivity.
  - cbn [get is_nullish response ret prop assoc String.eqb Ascii.eqb Bool.eqb truthy].
    unfold bind at 1. unfold logger.success.
    match goal with
    | |- context [logger.print logger.Success (VArr ?xs) ?w0] =>
        destruct (print_array_returns logger.Success xs w0) as (w3 & -> & _ & Hs3 & _)
    end.
    cbn [ret]. eexists _, _. split; [reflexivity |].
    split; [reflexivity |].
    rewrite Hs3. unfold after_spawn. cbn [spawned]. rewrite Hs2, Hs1. reflexivity.
Qed.


(** ** More on the deployment-link functions (firebase.js) *)

Lemma configureFirebase_from_failed rest r w :
  truthy (prop r "error") = true ->
  configureFirebase_from rest r w = (Returned r, w).
Proof.
  intros Herr. assert (Hn : is_nullish r = false) by (eapply truthy_prop_not_nullish; eauto).
  induction rest as [| s rest IH]; cbn [configureFirebase_from].
  - reflexivity.
  - unfold opt_prop. rewrite Hn, Herr. unfold bind at 1. cbn [ret].
    unfold bind at 1. rewrite (get_not_nullish r "error" w Hn), Herr. exact IH.
Qed.

Lemma configureFirebase_from_passing pre : forall rest state w w1,
  truthy (opt_prop state "error") = false ->
  all_succeed (map (fun s => s state) pre) w = Some w1 ->
  configureFirebase_from (pre ++ rest) state w = configureFirebase_from rest state w1.
Proof.
  induction pre as [| s pre IH]; intros rest state w w1 Hstate Hpass.
  - cbn in Hpass. inversion Hpass. reflexivity.
  - cbn [map all_succeed] in Hpass. cbn [app configureFirebase_from].
    rewrite Hstate. unfold bind at 1.
    destruct (s state w) as [[r | e |] w0]; try discriminate.
    destruct (is_nullish r) eqn:Hn; try discriminate.
    destruct (truthy (prop r "error")) eqn:Herr; try discriminate.
    unfold bind at 1. rewrite (get_not_nullish r "error" w0 Hn), Herr.
    apply IH; assumption.
Qed.

Lemma configureFirebase_from_first failing post state r w w2 :
  truthy (opt_prop state "error") = false ->
  failing state w = (Returned r, w2) ->
  truthy (prop r "error") = true ->
  configureFirebase_from (failing :: post) state w = (Returned r, w2).
Proof.
  intros Hstate Hfail Herr. cbn [configureFirebase_from]. rewrite Hstate.
  unfold bind at 1. rewrite Hfail. unfold bind at 1.
  rewrite (get_not_nullish r "error" w2 (truthy_prop_not_nullish _ _ Herr)), Herr.
  apply configureFirebase_from_failed. exact Herr.
Qed.

(** X17.  configureFirebase stops at the first step whose result has an error:
    that result is returned and the steps after it are not called. *)
Theorem configureFirebase_first_failure
    (options : value) (pre post : list (value -> M value)) (failing : value -> M value)
    (r : value) (w w1 w2 : World) :
  all_succeed (map (fun s => s (response false "Firebase has been configured.")) pre) w
  = Some w1 ->
  failing (response false "Firebase has been configured.") w1 = (Returned r, w2) ->
  truthy (prop r "error") = true ->
  configureFirebase options (pre ++ failing :: post) w = (Returned r, w2).
Proof.
  intros Hpre Hfail Herr. unfold configureFirebase. cbv zeta.
  rewrite (configureFirebase_from_passing pre (failing :: post)
             (response false "Firebase has been configured.") w w1 eq_refl Hpre).
  cbn [configureFirebase_from]. unfold bind at 1.
  cbn [opt_prop is_nullish response prop assoc String.eqb Ascii.eqb Bool.eqb truthy].
  rewrite Hfail. unfold bind at 1.
  rewrite (get_not_nullish r "error" w2 (truthy_prop_not_nullish _ _ Herr)), Herr.
  apply configureFirebase_from_failed. exact Herr.
Qed.

(** X18.  When every step succeeds, configureFirebase returns its own success
    response: what the steps returned (the email of the login, say) is not
    passed on, and every step was called with that same response. *)
Theorem configureFirebase_all_pass
    (options : value) (steps : list (value -> M value)) (w w' : World) :
  all_succeed (map (fun s => s (response false "Firebase has been configured.")) steps) w
  = Some w' ->
  configureFirebase options steps w
  = (Returned (response false "Firebase has been configured."), w').
Proof.
  intros Hpass. unfold configureFirebase. cbv zeta.
  rewrite <- (app_nil_r steps).
  rewrite (configureFirebase_from_passing steps []
             (response false "Firebase has been configured.") w w' eq_refl Hpass).
  reflexivity.
Qed.

(** X19.  When the webframeworks command fails, the default sequence stops there:
    no login is attempted and firebase use is not run. *)
Theorem configureFirebase_stops_before_login
    (P : Platform) (options : value) (w : World) :
  (forall w0, exists resp w1,
      exec P webframeworks_command w0 = (Returned resp, w1)
      /\ is_nullish resp = false
      /\ strict_eq (prop resp "code") (VNum 0) = false) ->
  exists w',
    configureFirebase_default P options w
    = (Returned (response true "The Firebase webframeworks feature could not be enabled."),
       w')
    /\ logins w' = logins w
    /\ spawned w' = (spawned w ++ [webframeworks_command])%list.
Proof.
  intros Hexec. unfold configureFirebase_default, configureFirebase. cbv zeta.
  unfold makeFirebaseConfigurationSteps.
  destruct (print_array_returns logger.Info
              [VStr "Enabling Firebase's experimental webframeworks feature ..."] w)
    as (w1 & Hlog & _ & Hs1 & _ & Hl1).
  destruct (Hexec w1) as (resp & w2 & Hcall & Hresp & Hcode).
  exists w2. split.
  - apply configureFirebase_from_first; [reflexivity | | reflexivity].
    unfold bind at 1. unfold logger.info. rewrite Hlog.
    unfold configureFirebaseWebFrameworks. unfold bind at 1.
    fold webframeworks_command. rewrite Hcall.
    unfold bind at 1. rewrite (get_not_nullish resp "code" w2 Hresp), Hcode.
    reflexivity.
  - destruct (exec_effect (spawn P) webframeworks_command (VObj []) w1)
      as (o & w2' & E & _ & _ & (_ & Hs & _ & Hl) & _).
    unfold exec in Hcall. rewrite Hcall in E. inversion E; subst.
    unfold after_spawn in Hs, Hl. cbn in Hs, Hl. split; congruence.
Qed.

(** A login counts only if it yields an object with an email.  Then the
    result carries that email; otherwise it is an error with the message of
    what the login resolved to, or a fixed message when there is none. *)
Theorem configureFirebaseLogin_needs_email
    (options : value) (executable : Provider) (answer : value) (w w1 : World) :
  options <> VNull ->
  executable w = (Promise (Returned answer), w1) ->
  configureFirebaseLogin options executable w
  = (Returned
       (if String.eqb (typeof answer) "object" && truthy (prop answer "email")
        then VObj [("email", prop answer "email"); ("error", VBool false);
                   ("message", VStr "The user has been logged in to Firebase.")]
        else VObj [("error", VBool true);
                   ("message",
                    if truthy (prop answer "message") then prop answer "message"
                    else VStr "The Firebase login attempt failed.")]),
     w1).
Proof.
  intros Hoptions Hcall. unfold configureFirebaseLogin.
  assert (Hn : is_nullish (default_to (VObj []) options) = false).
  { destruct options; try reflexivity. contradiction. }
  unfold bind at 1. rewrite (get_not_nullish _ "debug" w Hn).
  unfold bind at 1. unfold call_catch. rewrite Hcall. cbn [await_catch].
  destruct answer as [| | b | n | s | xs | fields | n m st | n]; try reflexivity.
  - cbn. unfold js_or, opt_prop. cbn.
    repeat match goal with |- context [truthy ?x] => destruct (truthy x) end;
      reflexivity.
Qed.

(** ** More on ops.js *)

Lemma exec_exits_zero P command w :
  (forall cmd w0, exists outs settle post,
      (settle = ExitEvent (VNum 0) \/ settle = CloseEvent (VNum 0))
      /\ spawn P cmd w0 = (map StdoutData outs ++ settle :: post)%list) ->
  exists outs,
    exec P command w
    = (Returned (ExecResponse (VNum 0) "" (chunks outs)), after_spawn command w).
Proof.
  intros Hspawn. destruct (Hspawn command w) as (outs & settle & post & Hsettle & E).
  exists outs. unfold exec.
  exact (exec_exit_response (spawn P) command w outs settle (VNum 0) post Hsettle E).
Qed.

Lemma configureFontAwesome_from_step step rest state r w w1 :
  is_nullish state = false ->
  truthy (prop state "error") = false ->
  step state w = (Returned r, w1) ->
  is_nullish r = false ->
  truthy (prop r "error") = false ->
  configureFontAwesome_from (step :: rest) state w
  = configureFontAwesome_from rest
      (if truthy (prop r "token") && gt_zero (prop (prop r "token") "length")
       then set_prop state "token" (prop r "token")
       else state) w1.
Proof.
  intros Hstate Hok Hstep Hr Herr. cbn [configureFontAwesome_from].
  unfold bind at 1. rewrite (get_not_nullish state "error" w Hstate), Hok.
  unfold bind at 1. rewrite Hstep.
  unfold bind at 1. rewrite (get_not_nullish r "error" w1 Hr), Herr.
  cbn [negb andb]. reflexivity.
Qed.

Lemma obtainFontAwesomeToken_valid P c t w :
  (forall questions w0,
      inquirer_prompt P questions w0
      = Promise (Returned (VObj [("token", VStr (String c t))]))) ->
  exists w',
    obtainFontAwesomeToken P (prompt P) w
    = (Returned (VObj [("error", VBool false);
                       ("message", VStr "The Font Awesome token has been obtained.");
                       ("token", VStr (String c t))]), w')
    /\ spawned w' = spawned w /\ prompted w' = S (prompted w).
Proof.
  intros Hprompt. unfold obtainFontAwesomeToken.
  unfold bind at 1. unfold logger.info.
  match goal with
  | |- context [logger.print logger.Info (VArr ?xs) w] =>
      destruct (print_array_returns logger.Info xs w) as (w1 & -> & _ & Hs1 & Hp1 & _)
  end.
  unfold bind at 1. unfold call_catch, prompt. rewrite Hprompt. cbn.
  eexists. split; [reflexivity |]. cbn. split; congruence.
Qed.

Lemma exec_step_succeeds P command w (message_failed message_ok : string) :
  (forall cmd w0, exists outs settle post,
      (settle = ExitEvent (VNum 0) \/ settle = CloseEvent (VNum 0))
      /\ spawn P cmd w0 = (map StdoutData outs ++ settle :: post)%list) ->
  (result <- exec P command ;;
   code <- get result "code" ;;
   let error := negb (strict_eq code (VNum 0)) in
   let message := if error then message_failed else message_ok in
   ret (response error message)) w
  = (Returned (response false message_ok), after_spawn command w).
Proof.
  intros Hspawn. destruct (exec_exits_zero P command w Hspawn) as (outs & E).
  unfold bind at 1. rewrite E. reflexivity.
Qed.

Lemma configureFontAwesome_token
    (P : Platform) (token : string) (w : World) :
  token <> "" ->
  (forall questions w0,
      inquirer_prompt P questions w0 = Promise (Returned (VObj [("token", VStr token)]))) ->
  (forall cmd w0, exists outs settle post,
      (settle = ExitEvent (VNum 0) \/ settle = CloseEvent (VNum 0))
      /\ spawn P cmd w0 = (map StdoutData outs ++ settle :: post)%list) ->
  exists w',
    configureFontAwesome_default P w
    = (Returned (VObj [("error", VBool false);
                       ("message", VStr "Font Awesome is ready.");
                       ("token", VStr token)]), w')
    /\ spawned w' = (spawned w ++ [npm_registry_command; npm_token_command token])%list
    /\ prompted w' = S (prompted w).
Proof.
  intros Htoken Hprompt Hspawn.
  destruct token as [| c t]; [contradiction |].
  unfold configureFontAwesome_default, configureFontAwesome.
  unfold bind at 1. unfold logger.info.
  match goal with
  | |- context [logger.print logger.Info (VArr ?xs) w] =>
      destruct (print_array_returns logger.Info xs w) as (w1 & -> & _ & Hs1 & Hp1 & _)
  end.
  unfold makeFontAwesomeConfigurationSteps.
  destruct (obtainFontAwesomeToken_valid P c t w1 Hprompt) as (w2 & E2 & Hs2 & Hp2).
  erewrite configureFontAwesome_from_step;
    [ | reflexivity | reflexivity | exact E2 | reflexivity | reflexivity ].
  cbn [prop assoc String.eqb Ascii.eqb Bool.eqb truthy negb andb gt_zero to_number
       String.length Z.of_nat Z.ltb Z.compare Pos.of_succ_nat response set_prop assign].
  erewrite configureFontAwesome_from_step;
    [ | reflexivity | reflexivity
      | exact (exec_step_succeeds P _ w2 _ _ Hspawn) | reflexivity | reflexivity ].
  cbn [prop assoc String.eqb Ascii.eqb Bool.eqb truthy negb andb response
       object_prototype existsb object_prototype_methods orb].
  match goal with
  | |- context [configureFontAwesome_from [?step] ?state ?w0] =>
      assert (E3 : exists w3, step state w0
                              = (Returned (response false "The Font Awesome token has been set."),
                                 w3)
                              /\ spawned w3 = (spawned w0 ++ [npm_token_command (String c t)])%list
                              /\ prompted w3 = prompted w0)
  end.
  { unfold setFontAwesomeToken. unfold bind at 1. unfold logger.info.
    match goal with
    | |- context [logger.print logger.Info (VArr ?xs) ?w0] =>
        destruct (print_array_returns logger.Info xs w0) as (w3 & -> & _ & Hs3 & Hp3 & _)
    end.
    rewrite (exec_step_succeeds P _ w3 _ _ Hspawn).
    eexists. split; [reflexivity |]. unfold after_spawn. cbn [spawned prompted].
    rewrite Hs3, Hp3. split; reflexivity. }
  destruct E3 as (w3 & E3 & Hs3 & Hp3).
  erewrite configureFontAwesome_from_step;
    [ | reflexivity | reflexivity | exact E3 | reflexivity | reflexivity ].
  cbn [prop assoc String.eqb Ascii.eqb Bool.eqb truthy negb andb response
       object_prototype existsb object_prototype_methods orb configureFontAwesome_from ret].
  exists w3. split; [reflexivity |].
  unfold after_spawn in Hs3, Hp3. cbn [spawned prompted] in Hs3, Hp3.
  split.
  - rewrite Hs3, Hs2, Hs1. rewrite <- app_assoc. reflexivity.
  - rewrite Hp3, Hp2, Hp1. reflexivity.
Qed.

(** X7.  The token the developer enters is the token npm is configured with:
    when it is not empty and both npm commands write nothing to stderr and
    exit with 0, the default Font Awesome sequence prompts once, runs the
    registry command and then the token command with that token, and returns
    the token in its result. *)
Theorem configureFontAwesome_passes_the_token
    (P : Platform) (token : string) (w : World) :
  token <> "" ->
  (forall questions w0,
      inquirer_prompt P questions w0 = Promise (Returned (VObj [("token", VStr token)]))) ->
  (forall cmd w0, exists outs settle post,
      (settle = ExitEvent (VNum 0) \/ settle = CloseEvent (VNum 0))
      /\ spawn P cmd w0 = (map StdoutData outs ++ settle :: post)%list) ->
  exists w',
    configureFontAwesome_default P w
    = (Returned (VObj [("error", VBool false);
                       ("message", VStr "Font Awesome is ready.");
                       ("token", VStr token)]), w')
    /\ spawned w' = (spawned w ++ [npm_registry_command; npm_token_command token])%list
    /\ prompted w' = S (prompted w).
Proof.
  intros Htoken Hprompt Hspawn.
  apply configureFontAwesome_token; assumption.
Qed.

Lemma get_env_set_env_same k v env : get_env k (set_env k v env) = VStr v.
Proof.
  induction env as [| [k' v'] env IH]; cbn.
  - rewrite String.eqb_refl. reflexivity.
  - destruct (String.eqb k k') eqn:E; cbn.
    + rewrite String.eqb_refl. reflexivity.
    + rewrite E. exact IH.
Qed.


Lemma strict_eq_of_string env : strict_eq (VStr (to_string env)) env = is_string env.
Proof. destruct env; cbn; try reflexivity. apply String.eqb_refl. Qed.


(** X1.  A step that rejects, or whose promise never settles, ends the run with
    that outcome: the runner has no catch of its own, and the steps after it
    are not called. *)
Theorem runSteps_propagates_a_rejection
    (options : value) (pre : list Step) (step : Step) (post : list Step)
    (w w1 w2 : World) (rs : list value) (o : Outcome value) :
  pass_all options pre w = Some (rs, w1) ->
  step options w1 = (o, w2) ->
  (forall r, o <> Returned r) ->
  runSteps (pre ++ step :: post) options w
  = mkRun o (map (fun s => (s, options)) (pre ++ [step])) post w2.
Proof.
  intros Hpre Hstep Ho. revert w rs Hpre.
  induction pre as [| s steps IH]; intros w rs Hpre.
  - cbn in Hpre. inversion Hpre; subst.
    cbn [app map runSteps]. rewrite Hstep.
    destruct o as [r | e |]; [exfalso; apply (Ho r); reflexivity | reflexivity | reflexivity].
  - apply pass_all_cons in Hpre as (r0 & w0 & rs' & Hs & Hok & Hrest & _).
    cbn [app map].
    rewrite (runSteps_passing_step _ _ _ _ _ _ Hs Hok).
    rewrite (IH _ _ Hrest).
    destruct steps; reflexivity.
Qed.


(** ** The runner and results that cannot be printed *)

Lemma runSteps_after_passing options pre rest w rs w1 :
  pass_all options pre w = Some (rs, w1) ->
  rest <> [] ->
  runSteps (pre ++ rest) options w
  = mkRun (outcome (runSteps rest options w1))
          (map (fun s => (s, options)) pre ++ invoked (runSteps rest options w1))
          (remaining (runSteps rest options w1))
          (world_after (runSteps rest options w1)).
Proof.
  intros Hpre Hrest. revert w rs Hpre.
  induction pre as [| s steps IH]; intros w rs Hpre.
  - cbn in Hpre. inversion Hpre; subst. cbn [app map].
    destruct (runSteps rest options w1); reflexivity.
  - apply pass_all_cons in Hpre as (r0 & w0 & rs' & Hs & Hok & Hpre & _).
    cbn [app map].
    rewrite (runSteps_passing_step _ _ _ _ _ _ Hs Hok).
    rewrite (IH _ _ Hpre).
    destruct (steps ++ rest)%list eqn:E; [| reflexivity].
    apply app_eq_nil in E as [_ E]. contradiction.
Qed.

Lemma report_unprintable r w :
  truthy (prop r "messages") = true ->
  is_iterable (prop r "messages") = false ->
  exists e w', report r w = (Threw e, w') /\ is_TypeError (Threw e) = true.
Proof.
  intros Ht Hi. unfold report, bind.
  assert (Hfirst : exists w1,
             when (truthy (prop r "message")) (logger.error (VArr [prop r "message"])) w
             = (Returned tt, w1)).
  { destruct (truthy (prop r "message")); cbn [when].
    - destruct (print_array_returns logger.Error [prop r "message"] w) as (w1 & E & _).
      exists w1. exact E.
    - exists w. reflexivity. }
  destruct Hfirst as (w1 & ->). rewrite Ht. cbn [when].
  unfold logger.log, logger.print.
  destruct (prop r "messages"); cbn in Hi |- *; try discriminate;
    eexists _, _; split; reflexivity.
Qed.

(** X25.  A failing result whose messages property is truthy but neither an
    array nor a string (an object, a number, true) makes the runner itself
    reject with a TypeError while it reports the failure: the result is not
    returned, and the later steps are not called. *)
Theorem runSteps_rejects_on_unprintable_messages
    (options : value) (pre : list Step) (step : Step) (post : list Step)
    (w w1 w2 : World) (rs : list value) (r : value) :
  pass_all options pre w = Some (rs, w1) ->
  step options w1 = (Returned r, w2) ->
  truthy (prop r "error") = true ->
  truthy (prop r "messages") = true ->
  is_iterable (prop r "messages") = false ->
  is_TypeError (outcome (runSteps (pre ++ step :: post) options w)) = true
  /\ invoked (runSteps (pre ++ step :: post) options w)
     = map (fun s => (s, options)) (pre ++ [step])
  /\ remaining (runSteps (pre ++ step :: post) options w) = post.
Proof.
  intros Hpre Hstep Herr Hmsgs Hiter.
  rewrite (runSteps_after_passing options pre (step :: post) w rs w1 Hpre)
    by discriminate.
  cbn [outcome invoked remaining runSteps]. rewrite Hstep.
  rewrite (get_not_nullish r "error" w2 (truthy_prop_not_nullish _ _ Herr)).
  rewrite Herr. cbn [when].
  destruct (report_unprintable r w2 Hmsgs Hiter) as (e & w3 & -> & He).
  cbn [outcome invoked remaining]. rewrite map_app. cbn [map].
  repeat split. exact He.
Qed.

(** ** What the firebase subcommand never calls *)

Lemma quiet_ret {A} (a : A) : quiet (ret a).
Proof. intros w. split; reflexivity. Qed.

Lemma quiet_throw {A} e : quiet (@throw A e).
Proof. intros w. split; reflexivity. Qed.

Lemma quiet_bind {A B} (m : M A) (f : A -> M B) :
  quiet m -> (forall a, quiet (f a)) -> quiet (bind m f).
Proof.
  intros Hm Hf w. unfold bind. specialize (Hm w).
  destruct (m w) as [[a | e |] w1]; cbn in *; try exact Hm.
  destruct (Hf a w1) as [Hp He]. destruct Hm as [Hp1 He1]. split; congruence.
Qed.

Lemma quiet_get v k : quiet (get v k).
Proof. unfold get. destruct (is_nullish v); [apply quiet_throw | apply quiet_ret]. Qed.

Lemma quiet_print l messages : quiet (logger.print l messages).
Proof.
  intros w. unfold logger.print.
  destruct (logger.styleOutput l messages) as [e | [[color header] content]];
    split; reflexivity.
Qed.

Lemma quiet_when b (m : M unit) : quiet m -> quiet (when b m).
Proof. intros Hm. destruct b; [exact Hm | apply quiet_ret]. Qed.

Lemma quiet_try_catch {A} (body : M A) (handler : value -> M A) :
  quiet body -> (forall e, quiet (handler e)) -> quiet (try_catch body handler).
Proof.
  intros Hb Hh w. unfold try_catch. specialize (Hb w).
  destruct (body w) as [[a | e |] w1]; cbn in *; try exact Hb.
  destruct (Hh e w1) as [Hp He]. destruct Hb as [Hp1 He1]. split; congruence.
Qed.

Lemma quiet_exec P command : quiet (exec P command).
Proof.
  intros w. unfold exec.
  destruct (exec_effect (spawn P) command (VObj []) w)
    as (o & w' & -> & _ & _ & (He & _ & Hp & _) & _).
  cbn. split; assumption.
Qed.

Lemma quiet_login_catch P (handler : value -> M value) :
  (forall e, quiet (handler e)) -> quiet (call_catch (login P) handler).
Proof.
  intros Hh w. unfold call_catch, login, await_catch.
  destruct (cli_login P w) as [e | [a | e |]]; try (split; reflexivity).
  exact (Hh e (mkWorld (console w) (shell_env w) (spawned w) (prompted w) (S (logins w)) (exitCode w))).
Qed.

Ltac quiet_step :=
  first
    [ apply quiet_ret
    | apply quiet_throw
    | apply quiet_get
    | apply quiet_print
    | apply quiet_exec
    | apply quiet_when
    | apply quiet_try_catch; [| intros ?]
    | apply quiet_login_catch; intros ?
    | apply quiet_bind; [| intros ?]
    | match goal with
      | |- quiet (if ?c then _ else _) => destruct c
      | |- quiet (match ?x with _ => _ end) => destruct x
      end ].

Lemma quiet_runValidators_from validators : forall current,
  (forall v, In v validators -> quiet (v tt)) ->
  quiet (runValidators_from validators current).
Proof.
  induction validators as [| v rest IH]; intros current Hall; cbn [runValidators_from].
  - apply quiet_ret.
  - apply quiet_bind.
    + destruct (truthy (opt_prop current "error")); [apply quiet_ret |].
      apply Hall. left. reflexivity.
    + intros result. apply quiet_bind; [apply quiet_get |].
      intros error. apply IH. intros v0 Hin. apply Hall. right. exact Hin.
Qed.

Lemma quiet_getProjectName P options : quiet (getProjectName_default P options).
Proof.
  unfold getProjectName_default, getProjectName, validateOptions, runValidators.
  apply quiet_bind.
  - apply quiet_runValidators_from. intros v [<- | [<- | []]]; repeat quiet_step.
  - intros validation.
    destruct (truthy (opt_prop validation "error")); [apply quiet_ret |].
    unfold readProjectNameFromFirebaserc_default, readProjectNameFromFirebaserc.
    apply quiet_bind; [apply quiet_get | intros directory].
    apply quiet_bind.
    + unfold getFirebasercProjects_default, getFirebasercProjects.
      apply quiet_bind.
      * unfold getFirebaserc_default, getFirebaserc, readFirebaserc, readFile,
          path_join_firebaserc, parseFirebaserc_default, parseFirebaserc, parseJson.
        repeat quiet_step.
      * intros firebasercJson. apply quiet_bind; [apply quiet_get | intros error].
        destruct (truthy error); [apply quiet_ret |].
        unfold findProjectsInFirebaserc_default, findProjectsInFirebaserc,
          validateFirebaserc, runValidators.
        apply quiet_bind.
        -- apply quiet_runValidators_from. intros v [<- | [<- | []]]; repeat quiet_step.
        -- intros validationResult. repeat quiet_step.
    + intros readerResult. apply quiet_bind; [apply quiet_get | intros error].
      destruct (truthy error); [apply quiet_ret |].
      unfold findProjectNameByKey_default, findProjectNameByKey. repeat quiet_step.
Qed.

Lemma quiet_stepConfigureGoogle P options : quiet (stepConfigureGoogle_default P options).
Proof.
  unfold stepConfigureGoogle_default, stepConfigureGoogle.
  unfold logger.info, logger.log, logger.success.
  apply quiet_bind; [apply quiet_print | intros _].
  apply quiet_bind; [apply quiet_getProjectName | intros projectNameResult].
  apply quiet_bind; [apply quiet_print | intros _].
  apply quiet_bind.
  - destruct (truthy _); [apply quiet_ret |].
    unfold configureGoogleProject_default, configureGoogleProject, setGoogleCloudProject.
    cbv zeta. repeat quiet_step.
  - intros result. repeat quiet_step.
Qed.

Lemma quiet_configureFirebase_from steps : forall state,
  (forall s st, In s steps -> quiet (s st)) ->
  quiet (configureFirebase_from steps state).
Proof.
  induction steps as [| s rest IH]; intros state Hall; cbn [configureFirebase_from].
  - apply quiet_ret.
  - apply quiet_bind.
    + destruct (truthy (opt_prop state "error")); [apply quiet_ret |].
      apply Hall. left. reflexivity.
    + intros result. apply quiet_bind; [apply quiet_get |].
      intros error. apply IH. intros s0 st Hin. apply Hall. right. exact Hin.
Qed.

Lemma quiet_stepConfigureFirebaseProject P options :
  quiet (stepConfigureFirebaseProject_default P options).
Proof.
  unfold stepConfigureFirebaseProject_default, stepConfigureFirebaseProject.
  unfold logger.success.
  apply quiet_bind.
  - unfold configureFirebase_default, configureFirebase. cbv zeta.
    apply quiet_configureFirebase_from.
    unfold makeFirebaseConfigurationSteps.
    intros s st [<- | [<- | [<- | []]]];
      unfold configureFirebaseWebFrameworks, configureFirebaseLogin,
        configureFirebaseProject, logger.info, logger.error;
      cbv zeta; repeat quiet_step.
  - intros result. repeat quiet_step.
Qed.

Lemma quiet_report r : quiet (report r).
Proof. unfold report, logger.error, logger.log. repeat quiet_step. Qed.

Lemma quiet_runSteps steps options :
  (forall s, In s steps -> quiet (s options)) ->
  forall w,
    prompted (world_after (runSteps steps options w)) = prompted w
    /\ shell_env (world_after (runSteps steps options w)) = shell_env w.
Proof.
  induction steps as [| s rest IH]; intros Hall w.
  - split; reflexivity.
  - cbn [runSteps].
    destruct (Hall s (or_introl eq_refl) w) as [Hp1 He1].
    destruct (s options w) as [[r | e |] w1]; cbn in Hp1, He1; cbn;
      try (split; assumption).
    destruct (quiet_get r "error" w1) as [Hp2 He2].
    destruct (get r "error" w1) as [[err | e |] w2]; cbn in Hp2, He2; cbn;
      try (split; congruence).
    destruct (quiet_when (truthy err) (report r) (quiet_report r) w2) as [Hp3 He3].
    destruct (when (truthy err) (report r) w2) as [[[] | e |] w3]; cbn in Hp3, He3; cbn;
      try (split; congruence).
    match goal with |- context [if ?c then _ else _] => destruct c end;
      cbn [and_then world_after].
    + destruct (IH (fun s0 Hin => Hall s0 (or_intror Hin)) w3) as [Hp4 He4].
      split; congruence.
    + split; congruence.
Qed.

Lemma quiet_run_sequence steps options :
  (forall s, In s steps -> quiet (s options)) -> quiet (run_sequence steps options).
Proof.
  intros Hall w. unfold run_sequence. cbn [snd]. apply quiet_runSteps. exact Hall.
Qed.

(** X4.  The sequence of the firebase subcommand never calls inquirer.prompt
    and never assigns a variable of shelljs.env, with any options and
    whatever its outcome: it does not ask for the Font Awesome token and
    leaves NODE_ENV as it was.  (What the login of firebase-tools asks of the
    developer is counted as a login, not as a prompt.) *)
Theorem setupFirebase_is_quiet (P : Platform) (options : value) (w : World) :
  prompted (snd (setupFirebase P options w)) = prompted w
  /\ shell_env (snd (setupFirebase P options w)) = shell_env w.
Proof.
  revert w. change (quiet (setupFirebase P options)).
  unfold setupFirebase. cbv zeta. unfold logger.info.
  apply quiet_bind; [apply quiet_print | intros _].
  apply quiet_run_sequence.
  intros s [<- | [<- | [<- | []]]].
  - apply quiet_stepConfigureGoogle.
  - apply quiet_stepConfigureFirebaseProject.
  - unfold stepFinish_step, stepFinish, logger.success. repeat quiet_step.
Qed.

(** ** More on the earlier draft (src/ops.js) *)

Lemma Legacy_on_event_effect ev st w :
  exists st' w',
    Legacy.on_event ev st w = (Returned st', w')
    /\ same_but_console w w'
    /\ (forall v, settled st = Some v -> settled st' = Some v)
    /\ (settled st = None -> (settled st' = None <-> settles_the_draft ev = false))
    /\ ((forall v, settled st = Some v -> is_nullish v = false) ->
        forall v, settled st' = Some v -> is_nullish v = false).
Proof.
  destruct ev as [data | data | code | code]; cbn [Legacy.on_event]; unfold bind.
  - cbn. eexists _, _. split; [reflexivity |]. split; [repeat split |].
    split; [auto |]. split; [| auto].
    intros Hnone. split; [reflexivity | intros _; exact Hnone].
  - destruct (print_array_returns logger.Error [VStr ("STDERR: " ++ data)] w)
      as (w' & E & Hf).
    unfold logger.error. rewrite E. eexists _, w'. split; [reflexivity |].
    split; [exact Hf |]. unfold resolve; cbn. split; [| split].
    + intros v Hv. rewrite Hv. reflexivity.
    + intros Hnone. rewrite Hnone. split; discriminate.
    + intros Hok v. destruct (settled st) as [v0 |] eqn:Est; cbn.
      * intros Hv. apply Hok. exact Hv.
      * intros Hv. inversion Hv. reflexivity.
  - eexists _, w. split; [reflexivity |]. split; [repeat split |].
    unfold resolve. split; [| split].
    + intros v Hv. rewrite Hv. exact Hv.
    + intros Hnone. rewrite Hnone. split; discriminate.
    + intros Hok v. destruct (settled st) as [v0 |] eqn:Est; cbn.
      * rewrite Est. intros Hv. apply Hok. exact Hv.
      * intros Hv. inversion Hv. reflexivity.
  - eexists _, w. split; [reflexivity |]. split; [repeat split |].
    split; [auto |]. split; [| auto].
    intros Hnone. split; [reflexivity | intros _; exact Hnone].
Qed.

Lemma Legacy_emit_effect events : forall st w,
  exists st' w',
    Legacy.emit events st w = (Returned st', w')
    /\ same_but_console w w'
    /\ (forall v, settled st = Some v -> settled st' = Some v)
    /\ (settled st = None ->
        (settled st' = None <-> existsb settles_the_draft events = false))
    /\ ((forall v, settled st = Some v -> is_nullish v = false) ->
        forall v, settled st' = Some v -> is_nullish v = false).
Proof.
  induction events as [| ev rest IH]; intros st w; cbn [Legacy.emit existsb].
  - exists st, w. split; [reflexivity |]. split; [repeat split |].
    split; [auto |]. split; [| auto].
    intros Hnone. split; [reflexivity | intros _; exact Hnone].
  - destruct (Legacy_on_event_effect ev st w)
      as (st1 & w1 & E1 & (He1 & Hs1 & Hp1 & Hl1) & Hk1 & Hn1 & Hok1).
    unfold bind. rewrite E1.
    destruct (IH st1 w1) as (st2 & w2 & E2 & (He2 & Hs2 & Hp2 & Hl2) & Hk2 & Hn2 & Hok2).
    exists st2, w2. split; [exact E2 |].
    split; [repeat split; congruence |].
    split; [intros v Hv; apply Hk2, Hk1; exact Hv |].
    split; [| intros Hok; apply Hok2, Hok1; exact Hok].
    intros Hnone. specialize (Hn1 Hnone).
    destruct (settled st1) as [v |] eqn:Est1.
    + rewrite (Hk2 v eq_refl).
      destruct (settles_the_draft ev) eqn:Eev.
      * cbn. split; discriminate.
      * assert (Some v = None) by (apply Hn1; reflexivity). discriminate.
    + rewrite (Hn2 eq_refl).
      rewrite (proj1 Hn1 eq_refl). reflexivity.
Qed.

Lemma Legacy_exec_effect P command w :
  exists o w',
    Legacy.exec P command w = (o, w')
    /\ (forall e, o <> Threw e)
    /\ (o = Pending <-> existsb settles_the_draft (spawn P command w) = false)
    /\ (forall v, o = Returned v -> is_nullish v = false)
    /\ same_but_console (after_spawn command w) w'.
Proof.
  unfold Legacy.exec.
  unfold bind at 1. cbn [record_spawn]. unfold bind at 1.
  destruct (print_array_returns logger.Log [VStr ("Running `" ++ command ++ "` ...")]
              (mkWorld (console w) (shell_env w) (spawned w ++ [command])
                       (prompted w) (logins w) (exitCode w)))
    as (w1 & E & He1 & Hs1 & Hp1 & Hl1).
  unfold logger.log. rewrite E. unfold bind at 1.
  destruct (Legacy_emit_effect (spawn P command w) (mkExecState "" "" None) w1)
    as (st & w2 & -> & (He2 & Hs2 & Hp2 & Hl2) & _ & Hn & Hok).
  specialize (Hn eq_refl).
  assert (Hframe : same_but_console (after_spawn command w) w2)
    by (cbn in He1, Hs1, Hp1, Hl1; unfold same_but_console, after_spawn; cbn;
        repeat split; congruence).
  destruct (settled st) as [v |] eqn:Est.
  - eexists _, w2. split; [reflexivity |].
    split; [discriminate |]. split; [| split; [| exact Hframe]].
    + split; [discriminate |]. intros H. apply Hn in H. discriminate.
    + intros v0 Hv0. inversion Hv0; subst. apply (Hok ltac:(discriminate) v0 eq_refl).
  - eexists _, w2. split; [reflexivity |].
    split; [discriminate |]. split; [| split; [| exact Hframe]].
    + split; [intros _; apply Hn; reflexivity | reflexivity].
    + discriminate.
Qed.

(** X21.  The earlier exec never rejects either, but it listens to stderr and
    exit only: a child that emits close without exit leaves its promise
    pending, and so does any child that emits neither. *)
Theorem Legacy_exec_settles_on_stderr_or_exit
    (P : Platform) (command : string) (w : World) :
  let run := Legacy.exec P command w in
  (forall e, fst run <> Threw e)
  /\ (fst run = Pending <-> existsb settles_the_draft (spawn P command w) = false)
  /\ spawned (snd run) = (spawned w ++ [command])%list.
Proof.
  cbv zeta.
  destruct (Legacy_exec_effect P command w)
    as (o & w' & -> & Hthrow & Hpending & _ & (_ & Hs & _)).
  cbn [fst snd]. split; [exact Hthrow |]. split; [exact Hpending | exact Hs].
Qed.

Lemma Legacy_exec_returns P command w :
  (forall cmd w0, existsb settles_the_draft (spawn P cmd w0) = true) ->
  exists v w',
    Legacy.exec P command w = (Returned v, w')
    /\ is_nullish v = false
    /\ spawned w' = (spawned w ++ [command])%list.
Proof.
  intros Hsettles.
  destruct (Legacy_exec_effect P command w)
    as (o & w' & E & Hthrow & Hpending & Hok & (_ & Hs & _)).
  destruct o as [v | e |].
  - exists v, w'. split; [exact E |]. split; [apply Hok; reflexivity | exact Hs].
  - exfalso. apply (Hthrow e). reflexivity.
  - assert (H : existsb settles_the_draft (spawn P command w) = false)
      by (apply Hpending; reflexivity).
    rewrite Hsettles in H. discriminate.
Qed.

(** X24.  The earlier configureFontAwesome checks neither the token nor an exit
    code: whatever the developer enters, the empty token included, both npm
    commands are run with it and the result is error: false. *)
Theorem Legacy_configureFontAwesome_checks_nothing
    (P : Platform) (token : string) (w : World) :
  (forall questions w0,
      inquirer_prompt P questions w0 = Promise (Returned (VObj [("token", VStr token)]))) ->
  (forall cmd w0, existsb settles_the_draft (spawn P cmd w0) = true) ->
  exists w',
    Legacy.configureFontAwesome P w = (Returned (VObj [("error", VBool false)]), w')
    /\ spawned w' = (spawned w ++ [npm_registry_command; npm_token_command token])%list.
Proof.
  intros Hprompt Hsettles. unfold Legacy.configureFontAwesome.
  unfold logger.info, logger.success.
  unfold bind at 1.
  match goal with
  | |- context [logger.print logger.Info (VArr ?xs) w] =>
      destruct (print_array_returns logger.Info xs w) as (w1 & -> & _ & Hs1 & _)
  end.
  unfold bind at 1.
  match goal with
  | |- context [logger.print logger.Info (VArr ?xs) w1] =>
      destruct (print_array_returns logger.Info xs w1) as (w2 & -> & _ & Hs2 & _)
  end.
  unfold bind at 1. unfold prompt. rewrite Hprompt. cbn [await].
  unfold bind at 1.
  match goal with
  | |- context [logger.print logger.Info (VArr ?xs) ?w0] =>
      destruct (print_array_returns logger.Info xs w0) as (w3 & -> & _ & Hs3 & _)
  end.
  unfold bind at 1.
  match goal with
  | |- context [Legacy.exec P ?cmd w3] =>
      destruct (Legacy_exec_returns P cmd w3 Hsettles) as (v1 & w4 & -> & _ & Hs4)
  end.
  unfold bind at 1.
  cbn [get is_nullish ret prop assoc String.eqb Ascii.eqb Bool.eqb to_string].
  unfold bind at 1.
  match goal with
  | |- context [Legacy.exec P ?cmd w4] =>
      destruct (Legacy_exec_returns P cmd w4 Hsettles) as (v2 & w5 & -> & _ & Hs5)
  end.
  unfold bind at 1.
  match goal with
  | |- context [logger.print logger.Success (VArr ?xs) w5] =>
      destruct (print_array_returns logger.Success xs w5) as (w6 & -> & _ & Hs6 & _)
  end.
  cbn [ret]. exists w6. split; [reflexivity |].
  cbn [spawned] in Hs3. rewrite Hs6, Hs5, Hs4, Hs3, Hs2, Hs1.
  rewrite <- app_assoc. reflexivity.
Qed.

(** X23.  The earlier configureFirebase looks at no exit code: when the login
    command succeeds it runs the webframeworks command and firebase use and
    returns error: false, whatever those two commands exit with. *)
Theorem Legacy_configureFirebase_checks_nothing
    (P : Platform) (execSync : string -> M unit) (options : value) (w : World) :
  is_nullish options = false ->
  (forall w0, exists w1, execSync "firebase login" w0 = (Returned tt, w1)
                         /\ spawned w1 = spawned w0) ->
  (forall cmd w0, existsb settles_the_draft (spawn P cmd w0) = true) ->
  exists w',
    Legacy.configureFirebase P execSync options w
    = (Returned (VObj [("error", VBool false)]), w')
    /\ spawned w'
       = (spawned w ++ [webframeworks_command;
                        firebase_use_command (to_string (prop options "projectKey"))])%list.
Proof.
  intros Hn HexecSync Hsettles. unfold Legacy.configureFirebase.
  unfold logger.info, logger.success.
  unfold bind at 1.
  match goal with
  | |- context [logger.print logger.Info (VArr ?xs) w] =>
      destruct (print_array_returns logger.Info xs w) as (w1 & -> & _ & Hs1 & _)
  end.
  unfold bind at 1.
  destruct (Legacy_exec_returns P webframeworks_command w1 Hsettles)
    as (v1 & w2 & E2 & _ & Hs2).
  unfold webframeworks_command in E2. rewrite E2.
  unfold bind at 1.
  match goal with
  | |- context [logger.print logger.Info (VArr ?xs) w2] =>
      destruct (print_array_returns logger.Info xs w2) as (w3 & -> & _ & Hs3 & _)
  end.
  unfold bind at 1. destruct (HexecSync w3) as (w4 & -> & Hs4).
  unfold bind at 1. unfold Legacy.configureFirebaseProject.
  unfold bind at 1. rewrite (get_not_nullish options "projectKey" w4 Hn).
  unfold bind at 1.
  destruct (Legacy_exec_returns P
              (firebase_use_command (to_string (prop options "projectKey"))) w4 Hsettles)
    as (v2 & w5 & E5 & Hv2 & Hs5).
  unfold firebase_use_command in E5. rewrite E5.
  unfold bind at 1. rewrite (get_not_nullish v2 "code" w5 Hv2). cbn [ret].
  unfold bind at 1.
  match goal with
  | |- context [logger.print logger.Success (VArr ?xs) w5] =>
      destruct (print_array_returns logger.Success xs w5) as (w6 & -> & _ & Hs6 & _)
  end.
  cbn [ret]. exists w6. split; [reflexivity |].
  rewrite Hs6, Hs5, Hs4, Hs3, Hs2, Hs1. rewrite <- app_assoc. reflexivity.
Qed.

(** X22.  The earlier configureGoogleProject tests the registry entry for
    truthiness only.  A projectKey that is no key of the mapping and no
    member every object inherits is an error without a command; one that
    names an inherited member, such as constructor, passes the test and
    gcloud is run with the text of that member. *)
Theorem Legacy_configureGoogleProject_missing_key
    (P : Platform) (firebaserc options : value) (projects : list (string * value))
    (w : World) :
  is_nullish options = false ->
  prop firebaserc "projects" = VObj projects ->
  assoc (to_string (prop options "projectKey")) projects = None ->
  (forall cmd w0, existsb settles_the_draft (spawn P cmd w0) = true) ->
  (object_prototype (to_string (prop options "projectKey")) = VUndefined ->
   Legacy.configureGoogleProject P firebaserc options w
   = (Returned (VObj [("error", VBool true)]), w))
  /\ (object_prototype (to_string (prop options "projectKey")) <> VUndefined ->
      exists r w',
        Legacy.configureGoogleProject P firebaserc options w = (Returned r, w')
        /\ spawned w'
           = (spawned w
              ++ [gcloud_command
                    (to_string (object_prototype
                                  (to_string (prop options "projectKey"))))])%list).
Proof.
  intros Hn Hprojects Hmissing Hsettles.
  assert (Hf : is_nullish firebaserc = false)
    by (destruct firebaserc; try reflexivity; discriminate).
  unfold Legacy.configureGoogleProject.
  split.
  - intros Hproto.
    unfold bind at 1. rewrite (get_not_nullish options "projectKey" w Hn).
    unfold bind at 1. rewrite (get_not_nullish firebaserc "projects" w Hf), Hprojects.
    unfold bind at 1. cbn [get is_nullish ret prop]. rewrite Hmissing.
    rewrite Hproto. reflexivity.
  - intros Hproto.
    assert (Htruthy : truthy (object_prototype (to_string (prop options "projectKey")))
                      = true).
    { revert Hproto. unfold object_prototype.
      destruct (String.eqb _ "constructor"); [reflexivity |].
      destruct (existsb _ object_prototype_methods); [reflexivity |].
      destruct (String.eqb _ "__proto__"); [reflexivity | contradiction]. }
    unfold bind at 1. rewrite (get_not_nullish options "projectKey" w Hn).
    unfold bind at 1. rewrite (get_not_nullish firebaserc "projects" w Hf), Hprojects.
    unfold bind at 1. cbn [get is_nullish ret prop]. rewrite Hmissing.
    rewrite Htruthy. cbn [negb].
    unfold bind at 1.
    match goal with
    | |- context [Legacy.exec P ?cmd w] =>
        destruct (Legacy_exec_returns P cmd w Hsettles) as (v & w1 & -> & Hv & Hs)
    end.
    unfold bind at 1. rewrite (get_not_nullish v "code" w1 Hv). cbn [ret].
    eexists _, w1. split; [reflexivity | exact Hs].
Qed.

(** ** A setup in which nothing fails *)

Lemma configureFirebase_from_pass_one step rest state r w w1 :
  truthy (opt_prop state "error") = false ->
  step state w = (Returned r, w1) ->
  is_nullish r = false ->
  truthy (prop r "error") = false ->
  configureFirebase_from (step :: rest) state w = configureFirebase_from rest state w1.
Proof.
  intros Hstate Hstep Hr Herr. cbn [configureFirebase_from]. rewrite Hstate.
  unfold bind at 1. rewrite Hstep. unfold bind at 1.
  rewrite (get_not_nullish r "error" w1 Hr), Herr. reflexivity.
Qed.

Lemma configureFirebaseLogin_default_succeeds P answer w :
  (forall w0, cli_login P w0 = Promise (Returned answer)) ->
  String.eqb (typeof answer) "object" && truthy (prop answer "email") = true ->
  exists r w',
    configureFirebaseLogin VUndefined (login P) w = (Returned r, w')
    /\ is_nullish r = false /\ truthy (prop r "error") = false
    /\ spawned w' = spawned w /\ logins w' = S (logins w).
Proof.
  intros Hlogin Hanswer. unfold configureFirebaseLogin.
  unfold bind at 1. cbn [default_to get is_nullish ret].
  unfold bind at 1. unfold call_catch, login. rewrite Hlogin. cbn [await_catch].
  apply andb_prop in Hanswer as [Htype Hemail].
  assert (Htruthy : truthy answer = true).
  { destruct answer; try reflexivity; discriminate. }
  rewrite Htype, Htruthy, Hemail. cbn [andb ret].
  eexists _, _. split; [reflexivity |]. repeat split.
Qed.

Lemma configureFirebase_default_ok P options answer w :
  is_nullish options = false ->
  (forall cmd w0, exists outs settle post,
      (settle = ExitEvent (VNum 0) \/ settle = CloseEvent (VNum 0))
      /\ spawn P cmd w0 = (map StdoutData outs ++ settle :: post)%list) ->
  (forall w0, cli_login P w0 = Promise (Returned answer)) ->
  String.eqb (typeof answer) "object" && truthy (prop answer "email") = true ->
  exists w',
    configureFirebase_default P options w
    = (Returned (response false "Firebase has been configured."), w')
    /\ spawned w'
       = (spawned w ++ [webframeworks_command;
                        firebase_use_command (to_string (prop options "projectKey"))])%list
    /\ logins w' = S (logins w).
Proof.
  intros Hn Hspawn Hlogin Hanswer.
  unfold configureFirebase_default, configureFirebase. cbv zeta.
  unfold makeFirebaseConfigurationSteps.
  (* webframeworks *)
  destruct (print_array_returns logger.Info
              [VStr "Enabling Firebase's experimental webframeworks feature ..."] w)
    as (w1 & Hlog1 & _ & Hs1 & _ & Hl1).
  erewrite configureFirebase_from_pass_one;
    [ | reflexivity
      | unfold bind at 1; unfold logger.info; rewrite Hlog1;
        unfold configureFirebaseWebFrameworks;
        apply (exec_step_succeeds P webframeworks_command w1 _ _ Hspawn)
      | reflexivity | reflexivity ].
  (* login *)
  destruct (print_array_returns logger.Info [VStr "Signing into Firebase ..."]
              (after_spawn webframeworks_command w1))
    as (w2 & Hlog2 & _ & Hs2 & _ & Hl2).
  destruct (configureFirebaseLogin_default_succeeds P answer w2 Hlogin Hanswer)
    as (r3 & w3 & E3 & Hr3 & Herr3 & Hs3 & Hl3).
  erewrite configureFirebase_from_pass_one;
    [ | reflexivity
      | unfold bind at 1; unfold logger.info; rewrite Hlog2; exact E3
      | exact Hr3 | exact Herr3 ].
  (* firebase use *)
  destruct (print_array_returns logger.Info [VStr "Configuring the Firebase project ..."] w3)
    as (w4 & Hlog4 & _ & Hs4 & _ & Hl4).
  erewrite configureFirebase_from_pass_one;
    [ | reflexivity
      | unfold bind at 1; unfold logger.info; rewrite Hlog4;
        unfold configureFirebaseProject; unfold bind at 1;
        rewrite (get_not_nullish options "projectKey" w4 Hn);
        apply (exec_step_succeeds P
                 (firebase_use_command (to_string (prop options "projectKey"))) w4 _ _ Hspawn)
      | reflexivity | reflexivity ].
  cbn [configureFirebase_from ret]. eexists. split; [reflexivity |].
  unfold after_spawn in *. cbn [spawned logins] in *. split.
  - rewrite Hs4, Hs3, Hs2, Hs1. rewrite <- app_assoc. reflexivity.
  - rewrite Hl4, Hl3, Hl2, Hl1. reflexivity.
Qed.

(** X20.  When neither command writes to stderr, both exit with 0 and the
    login yields an object with an email, the default deployment-link
    sequence succeeds; it has spawned the webframeworks command and then
    firebase use with the projectKey, no other command, and has called the
    login once. *)
Theorem configureFirebase_default_runs_in_order
    (P : Platform) (options answer : value) (w : World) :
  is_nullish options = false ->
  (forall cmd w0, exists outs settle post,
      (settle = ExitEvent (VNum 0) \/ settle = CloseEvent (VNum 0))
      /\ spawn P cmd w0 = (map StdoutData outs ++ settle :: post)%list) ->
  (forall w0, cli_login P w0 = Promise (Returned answer)) ->
  String.eqb (typeof answer) "object" && truthy (prop answer "email") = true ->
  exists w',
    configureFirebase_default P options w
    = (Returned (response false "Firebase has been configured."), w')
    /\ spawned w'
       = (spawned w ++ [webframeworks_command;
                        firebase_use_command (to_string (prop options "projectKey"))])%list
    /\ logins w' = S (logins w).
Proof.
  intros Hn Hspawn Hlogin Hanswer.
  apply (configureFirebase_default_ok P options answer w Hn Hspawn Hlogin Hanswer).
Qed.

Section NothingFails.

Variable P : Platform.
Variables (options answer : value).
Variables (directory key env content name token : string).
Variables (fields projects : list (string * value)).

Hypothesis Hdirectory : prop options "directory" = VStr directory.
Hypothesis Hdirectory_set : directory <> "".
Hypothesis Hkey : prop options "projectKey" = VStr key.
Hypothesis Hkey_set : key <> "".
Hypothesis Henv : prop options "env" = VStr env.
Hypothesis Hread : fs_readFile P (path_join P directory ".firebaserc") = inl content.
Hypothesis Hparse : JSON_parse P content = inl (VObj fields).
Hypothesis Hprojects : assoc "projects" fields = Some (VObj projects).
Hypothesis Hentry : assoc key projects = Some (VStr name).
Hypothesis Hname : name <> "".
Hypothesis Hspawn :
  forall cmd, exists outs settle post,
    (settle = ExitEvent (VNum 0) \/ settle = CloseEvent (VNum 0))
    /\ forall w0, spawn P cmd w0 = (map StdoutData outs ++ settle :: post)%list.
Hypothesis Hlogin : forall w0, cli_login P w0 = Promise (Returned answer).
Hypothesis Hanswer :
  String.eqb (typeof answer) "object" && truthy (prop answer "email") = true.
Hypothesis Hprompt :
  forall questions w0,
    inquirer_prompt P questions w0 = Promise (Returned (VObj [("token", VStr token)])).
Hypothesis Htoken : token <> "".

Lemma happy_options_not_nullish : is_nullish options = false.
Proof. destruct options; try reflexivity; discriminate. Qed.

Lemma happy_spawn :
  forall cmd w0, exists outs settle post,
    (settle = ExitEvent (VNum 0) \/ settle = CloseEvent (VNum 0))
    /\ spawn P cmd w0 = (map StdoutData outs ++ settle :: post)%list.
Proof.
  intros cmd w0. destruct (Hspawn cmd) as (outs & settle & post & Hsettle & E).
  exists outs, settle, post. split; [exact Hsettle | apply E].
Qed.

Lemma happy_env w :
  exists w',
    stepConfigureNodeEnv_default options w = (Returned (VObj [("error", VBool false)]), w')
    /\ spawned w' = spawned w.
Proof.
  unfold stepConfigureNodeEnv_default, stepConfigureNodeEnv.
  unfold bind at 1. rewrite (get_not_nullish options "env" w happy_options_not_nullish).
  rewrite Henv. unfold bind at 1. unfold logger.info.
  match goal with
  | |- context [logger.print logger.Info (VArr ?xs) w] =>
      destruct (print_array_returns logger.Info xs w) as (w1 & -> & _ & Hs1 & _)
  end.
  unfold bind at 1. unfold configureNodeEnv. cbn [shell_env].
  rewrite get_env_set_env_same, strict_eq_of_string. cbn [is_string negb].
  unfold bind at 1.
  cbn [get is_nullish ret prop assoc String.eqb Ascii.eqb Bool.eqb truthy].
  unfold bind at 1. unfold logger.log.
  match goal with
  | |- context [logger.print logger.Log (VArr ?xs) ?w0] =>
      destruct (print_array_returns logger.Log xs w0) as (w2 & -> & _ & Hs2 & _)
  end.
  unfold bind at 1. unfold logger.success.
  match goal with
  | |- context [logger.print logger.Success (VArr ?xs) w2] =>
      destruct (print_array_returns logger.Success xs w2) as (w3 & -> & _ & Hs3 & _)
  end.
  cbn [ret]. exists w3. split; [reflexivity |].
  cbn [spawned] in Hs2. congruence.
Qed.

Lemma happy_google w :
  exists r w',
    stepConfigureGoogle_default P options w = (Returned r, w')
    /\ prop r "error" = VBool false
    /\ spawned w' = (spawned w ++ [gcloud_command name])%list.
Proof.
  destruct (Hspawn (gcloud_command name)) as (outs & settle & post & Hsettle & E).
  destruct (stepConfigureGoogle_gcloud P options w directory key content name fields
              projects outs settle (VNum 0) post
              Hdirectory Hdirectory_set Hkey Hkey_set Hread Hparse Hprojects Hentry Hname
              Hsettle E)
    as (r & w' & Hstep & Herr & Hs).
  exists r, w'. repeat split; assumption.
Qed.

Lemma happy_firebase w :
  exists r w',
    stepConfigureFirebaseProject_default P options w = (Returned r, w')
    /\ prop r "error" = VBool false
    /\ spawned w' = (spawned w ++ [webframeworks_command; firebase_use_command key])%list.
Proof.
  unfold stepConfigureFirebaseProject_default, stepConfigureFirebaseProject.
  destruct (configureFirebase_default_ok P options answer w happy_options_not_nullish
              happy_spawn Hlogin Hanswer) as (w1 & E1 & Hs1 & _).
  unfold bind at 1. rewrite E1.
  unfold bind at 1.
  cbn [get is_nullish response ret prop assoc String.eqb Ascii.eqb Bool.eqb truthy].
  unfold bind at 1. unfold logger.success.
  destruct (print_array_returns logger.Success [VStr "Firebase is ready."] w1)
    as (w2 & -> & _ & Hs2 & _).
  cbn [ret]. eexists _, w2. split; [reflexivity |]. split; [reflexivity |].
  rewrite Hs2, Hs1, Hkey. reflexivity.
Qed.

Lemma happy_fontawesome w :
  exists r w',
    stepConfigureFontAwesome_bound P options w = (Returned r, w')
    /\ prop r "error" = VBool false
    /\ spawned w' = (spawned w ++ [npm_registry_command; npm_token_command token])%list.
Proof.
  unfold stepConfigureFontAwesome_bound, stepConfigureFontAwesome.
  destruct (configureFontAwesome_token P token w Htoken Hprompt happy_spawn)
    as (w1 & E1 & Hs1 & _).
  unfold bind at 1. rewrite E1. cbn.
  eexists _, w1. split; [reflexivity |]. split; [reflexivity | exact Hs1].
Qed.

Lemma happy_finish w :
  exists w',
    stepFinish_step options w = (Returned (VObj [("error", VBool false)]), w')
    /\ spawned w' = spawned w.
Proof.
  unfold stepFinish_step, stepFinish. unfold bind at 1. unfold logger.success.
  match goal with
  | |- context [logger.print logger.Success (VArr ?xs) w] =>
      destruct (print_array_returns logger.Success xs w) as (w1 & -> & _ & Hs1 & _)
  end.
  exists w1. split; [reflexivity | exact Hs1].
Qed.

Lemma happy_setup w :
  exists w',
    setup P options w = (Returned (VObj [("error", VBool false)]), w')
    /\ spawned w'
       = (spawned w ++ [ gcloud_command name;
                         webframeworks_command;
                         firebase_use_command key;
                         npm_registry_command;
                         npm_token_command token ])%list.
Proof.
  unfold setup. cbv zeta.
  assert (Hopts : default_to (VObj []) options = options)
    by (destruct options; try reflexivity; discriminate).
  rewrite Hopts. unfold bind at 1. unfold logger.info.
  destruct (print_array_returns logger.Info [VStr "Setting up the environment ..."] w)
    as (w0 & -> & _ & Hs0 & _).
  unfold run_sequence, setup_steps.
  destruct (happy_env w0) as (w1 & E1 & Hs1).
  rewrite (runSteps_passing_step _ _ _ _ _ _ E1 eq_refl).
  destruct (happy_google w1) as (r2 & w2 & E2 & Herr2 & Hs2).
  rewrite (runSteps_passing_step _ _ _ _ _ _ E2 Herr2).
  destruct (happy_firebase w2) as (r3 & w3 & E3 & Herr3 & Hs3).
  rewrite (runSteps_passing_step _ _ _ _ _ _ E3 Herr3).
  destruct (happy_fontawesome w3) as (r4 & w4 & E4 & Herr4 & Hs4).
  rewrite (runSteps_passing_step _ _ _ _ _ _ E4 Herr4).
  destruct (happy_finish w4) as (w5 & E5 & Hs5).
  rewrite (runSteps_passing_step _ _ _ _ _ _ E5 eq_refl).
  cbn [and_then outcome world_after].
  exists w5. split; [reflexivity |].
  rewrite Hs5, Hs4, Hs3, Hs2, Hs1, Hs0.
  rewrite <- !app_assoc. reflexivity.
Qed.

End NothingFails.

(** X2.  A setup in which nothing fails: with a string for env, a registry entry
    for the projectKey, commands that all write nothing to stderr and exit
    with 0, a login that yields an email and a token that is not empty,
    setup returns error: false and
    has run exactly five commands, in this order: gcloud with the registry's
    project name, the webframeworks command, firebase use with the
    projectKey, the npm registry command and the npm token command with the
    token that was entered. *)
Theorem setup_runs_five_commands
    (P : Platform) (options answer : value)
    (directory key env content name token : string)
    (fields projects : list (string * value)) (w : World) :
  prop options "directory" = VStr directory -> directory <> "" ->
  prop options "projectKey" = VStr key -> key <> "" ->
  prop options "env" = VStr env ->
  fs_readFile P (path_join P directory ".firebaserc") = inl content ->
  JSON_parse P content = inl (VObj fields) ->
  assoc "projects" fields = Some (VObj projects) ->
  assoc key projects = Some (VStr name) -> name <> "" ->
  (forall cmd, exists outs settle post,
      (settle = ExitEvent (VNum 0) \/ settle = CloseEvent (VNum 0))
      /\ forall w0, spawn P cmd w0 = (map StdoutData outs ++ settle :: post)%list) ->
  (forall w0, cli_login P w0 = Promise (Returned answer)) ->
  String.eqb (typeof answer) "object" && truthy (prop answer "email") = true ->
  (forall questions w0,
      inquirer_prompt P questions w0 = Promise (Returned (VObj [("token", VStr token)]))) ->
  token <> "" ->
  exists w',
    setup P options w = (Returned (VObj [("error", VBool false)]), w')
    /\ spawned w'
       = (spawned w ++ [ gcloud_command name;
                         webframeworks_command;
                         firebase_use_command key;
                         npm_registry_command;
                         npm_token_command token ])%list.
Proof.
  intros. eapply happy_setup; eassumption.
Qed.

(** ** The further theorems at sample inputs *)

Lemma sample_spawn_exits_zero (P : Platform) :
  spawn P = spawn sample_platform ->
  forall cmd w0, exists outs settle post,
    (settle = ExitEvent (VNum 0) \/ settle = CloseEvent (VNum 0))
    /\ spawn P cmd w0 = (map StdoutData outs ++ settle :: post)%list.
Proof.
  intros E cmd w0. rewrite E.
  exists [], (ExitEvent (VNum 0)), [CloseEvent (VNum 0)].
  split; [left; reflexivity | reflexivity].
Defined.

Lemma sample_read_errors :
  forall path e, fs_readFile sample_platform path = inr e -> is_nullish e = false.
Proof.
  intros path e H. cbn in H.
  match type of H with (if ?c then _ else _) = _ => destruct c end;
    inversion H; reflexivity.
Defined.

Lemma sample_parse_errors :
  forall text e, JSON_parse sample_platform text = inr e -> is_nullish e = false.
Proof.
  intros text e H. cbn in H.
  match type of H with (if ?c then _ else _) = _ => destruct c end;
    inversion H; reflexivity.
Defined.

Lemma runValidators_first_failure_witness :
  runValidators sample_validators (response false "The options are valid.") empty_world
  = (Returned (response true "The projectKey option is required."), empty_world).
Proof.
  exact (runValidators_first_failure
           [fun _ => ret (validateDirectory (VStr "/app"))] [unreachable_validator]
           (fun _ => ret (validateProjectKey (VStr "")))
           (response false "The options are valid.")
           (response true "The projectKey option is required.")
           empty_world empty_world empty_world eq_refl eq_refl eq_refl eq_refl).
Defined.

Lemma runValidators_all_pass_witness :
  runValidators passing_validators (response false "The options are valid.") empty_world
  = (Returned (response false "The options are valid."), empty_world).
Proof.
  exact (runValidators_all_pass passing_validators (response false "The options are valid.")
           empty_world empty_world eq_refl eq_refl).
Defined.

Lemma getProjectName_validates_first_witness :
  getProjectName_default sample_platform (VObj [("projectKey", VStr "default")]) empty_world
  = (Returned (response true "The directory option is required."), empty_world).
Proof.
  apply (proj1 (getProjectName_validates_first sample_platform
                  (VObj [("projectKey", VStr "default")]) empty_world eq_refl)).
  reflexivity.
Defined.

Lemma readFirebaserc_outcomes_witness :
  readFirebaserc sample_platform (VStr "/app") empty_world
  = (Returned (VObj [("error", VBool false); ("firebaserc", VStr sample_firebaserc_text)]),
     empty_world)
  /\ readFirebaserc sample_platform (VStr "/nowhere") empty_world
     = (Returned (VObj [("error", VBool true);
                        ("message",
                         VStr "ENOENT: no such file or directory, open '/nowhere/.firebaserc'")]),
        empty_world)
  /\ exists message,
       readFirebaserc sample_platform VUndefined empty_world
       = (Returned (VObj [("error", VBool true); ("message", VStr message)]), empty_world).
Proof.
  split; [| split].
  - exact (proj1 (readFirebaserc_outcomes sample_platform (VStr "/app") empty_world
                    sample_read_errors) "/app" eq_refl).
  - exact (proj1 (readFirebaserc_outcomes sample_platform (VStr "/nowhere") empty_world
                    sample_read_errors) "/nowhere" eq_refl).
  - exact (proj2 (readFirebaserc_outcomes sample_platform VUndefined empty_world
                    sample_read_errors) eq_refl).
Defined.

Lemma getFirebaserc_outcomes_witness :
  getFirebaserc_default sample_platform (VStr "/app") empty_world
  = (Returned (VObj [("error", VBool false); ("firebaserc", sample_firebaserc)]),
     empty_world).
Proof.
  rewrite (getFirebaserc_outcomes sample_platform "/app" empty_world
             sample_read_errors sample_parse_errors).
  reflexivity.
Defined.

Lemma getProjectName_of_entry_witness :
  getProjectName_default sample_platform (sample_options "default") empty_world
  = (Returned (VObj [("error", VBool false); ("projectName", VStr "acme-prod")]),
     empty_world).
Proof.
  exact (getProjectName_of_entry sample_platform (sample_options "default") empty_world
           "/app" "default" sample_firebaserc_text
           [("projects", VObj [("default", VStr "acme-prod")])]
           [("default", VStr "acme-prod")] (VStr "acme-prod")
           eq_refl ltac:(discriminate) eq_refl ltac:(discriminate)
           eq_refl eq_refl eq_refl eq_refl).
Defined.


Lemma exec_clean_exit_witness :
  exec_with chatty_spawner "npm install" (VObj []) empty_world
  = (Returned (ExecResponse (VNum 0) "" "added 1 package in 2s"),
     after_spawn "npm install" empty_world).
Proof.
  exact (exec_clean_exit chatty_spawner "npm install" empty_world
           ["added 1 package"; " in 2s"] (ExitEvent (VNum 0)) (VNum 0) []
           (or_introl eq_refl) eq_refl).
Defined.

Lemma configureGoogleProject_command_witness :
  configureGoogleProject (VStr "") (exec sample_platform) empty_world
  = (Returned (response true "The Google Cloud project name is invalid."), empty_world).
Proof.
  apply (proj1 (configureGoogleProject_command (exec sample_platform) (VStr "") empty_world)).
  reflexivity.
Defined.


Lemma configureFirebase_first_failure_witness :
  configureFirebase (sample_options "default") sample_state_steps empty_world
  = (Returned (response true "second failed"), empty_world).
Proof.
  exact (configureFirebase_first_failure (sample_options "default")
           [fun _ => ret (response false "first")]
           [fun _ => throw (type_error "not reached")]
           (fun _ => ret (response true "second failed"))
           (response true "second failed") empty_world empty_world empty_world
           eq_refl eq_refl eq_refl).
Defined.

Lemma configureFirebase_all_pass_witness :
  configureFirebase (sample_options "default") passing_state_steps empty_world
  = (Returned (response false "Firebase has been configured."), empty_world).
Proof.
  exact (configureFirebase_all_pass (sample_options "default") passing_state_steps
           empty_world empty_world eq_refl).
Defined.

Lemma configureFirebase_stops_before_login_witness :
  exists w',
    configureFirebase_default failing_platform (sample_options "default") empty_world
    = (Returned (response true "The Firebase webframeworks feature could not be enabled."),
       w')
    /\ logins w' = 0
    /\ spawned w' = [webframeworks_command].
Proof.
  apply (configureFirebase_stops_before_login failing_platform (sample_options "default")
           empty_world).
  intros w0. eexists _, _. split; [reflexivity | split; reflexivity].
Defined.

Lemma configureFirebaseLogin_needs_email_witness :
  configureFirebaseLogin VUndefined (login sample_platform) empty_world
  = (Returned (VObj [("email", VStr "dev@example.com"); ("error", VBool false);
                     ("message", VStr "The user has been logged in to Firebase.")]),
     mkWorld [] [] [] 0 1 None).
Proof.
  exact (configureFirebaseLogin_needs_email VUndefined (login sample_platform)
           (VObj [("email", VStr "dev@example.com")]) empty_world (mkWorld [] [] [] 0 1 None)
           ltac:(discriminate) eq_refl).
Defined.

Lemma configureFontAwesome_passes_the_token_witness :
  exists w',
    configureFontAwesome_default (token_platform sample_token) empty_world
    = (Returned (VObj [("error", VBool false);
                       ("message", VStr "Font Awesome is ready.");
                       ("token", VStr sample_token)]), w')
    /\ spawned w' = [npm_registry_command; npm_token_command sample_token]
    /\ prompted w' = 1.
Proof.
  apply (configureFontAwesome_passes_the_token (token_platform sample_token) sample_token
           empty_world).
  - discriminate.
  - intros questions w0. reflexivity.
  - apply sample_spawn_exits_zero. reflexivity.
Defined.

Lemma runSteps_propagates_a_rejection_witness :
  outcome (runSteps rejecting_steps (sample_options "default") empty_world) = Threw boom
  /\ remaining (runSteps rejecting_steps (sample_options "default") empty_world)
     = [const_step "three" ok_result].
Proof.
  pose proof (runSteps_propagates_a_rejection (sample_options "default")
                [const_step "one" ok_result] (fun _ => throw boom)
                [const_step "three" ok_result]
                empty_world _ _ [ok_result] (Threw boom)
                eq_refl eq_refl ltac:(discriminate)) as H.
  split; [exact (f_equal outcome H) | exact (f_equal remaining H)].
Defined.


Lemma configureFirebase_default_runs_in_order_witness :
  exists w',
    configureFirebase_default sample_platform (sample_options "default") empty_world
    = (Returned (response false "Firebase has been configured."), w')
    /\ spawned w' = [webframeworks_command; firebase_use_command "default"]
    /\ logins w' = 1.
Proof.
  apply (configureFirebase_default_runs_in_order sample_platform (sample_options "default")
           (VObj [("email", VStr "dev@example.com")]) empty_world).
  - reflexivity.
  - apply sample_spawn_exits_zero. reflexivity.
  - intros w0. reflexivity.
  - reflexivity.
Defined.

Lemma setup_runs_five_commands_witness :
  exists w',
    setup (token_platform sample_token) (sample_options "default") empty_world
    = (Returned (VObj [("error", VBool false)]), w')
    /\ spawned w'
       = [ gcloud_command "acme-prod"; webframeworks_command;
           firebase_use_command "default"; npm_registry_command;
           npm_token_command sample_token ].
Proof.
  apply (setup_runs_five_commands (token_platform sample_token) (sample_options "default")
           (VObj [("email", VStr "dev@example.com")])
           "/app" "default" "development" sample_firebaserc_text "acme-prod" sample_token
           [("projects", VObj [("default", VStr "acme-prod")])]
           [("default", VStr "acme-prod")] empty_world).
  - reflexivity.
  - discriminate.
  - reflexivity.
  - discriminate.
  - reflexivity.
  - reflexivity.
  - reflexivity.
  - reflexivity.
  - reflexivity.
  - discriminate.
  - intros cmd. exists [], (ExitEvent (VNum 0)), [CloseEvent (VNum 0)].
    split; [left; reflexivity | intros w0; reflexivity].
  - intros w0. reflexivity.
  - reflexivity.
  - intros questions w0. reflexivity.
  - discriminate.
Defined.

Lemma Legacy_configureFontAwesome_checks_nothing_witness :
  exists w',
    Legacy.configureFontAwesome sample_platform empty_world
    = (Returned (VObj [("error", VBool false)]), w')
    /\ spawned w' = [npm_registry_command; npm_token_command ""].
Proof.
  apply (Legacy_configureFontAwesome_checks_nothing sample_platform "" empty_world).
  - intros questions w0. reflexivity.
  - intros cmd w0. reflexivity.
Defined.

Lemma Legacy_configureFirebase_checks_nothing_witness :
  exists w',
    Legacy.configureFirebase failing_platform execSync_ok (sample_options "default")
      empty_world
    = (Returned (VObj [("error", VBool false)]), w')
    /\ spawned w' = [webframeworks_command; firebase_use_command "default"].
Proof.
  apply (Legacy_configureFirebase_checks_nothing failing_platform execSync_ok
           (sample_options "default") empty_world).
  - reflexivity.
  - intros w0. exists w0. split; reflexivity.
  - intros cmd w0. reflexivity.
Defined.

Lemma Legacy_configureGoogleProject_missing_key_witness :
  Legacy.configureGoogleProject sample_platform sample_firebaserc
    (sample_options "missing-key") empty_world
  = (Returned (VObj [("error", VBool true)]), empty_world)
  /\ exists r w',
       Legacy.configureGoogleProject sample_platform sample_firebaserc
         (sample_options "constructor") empty_world
       = (Returned r, w')
       /\ spawned w' = [gcloud_command "function Object() { [native code] }"].
Proof.
  split.
  - apply (proj1 (Legacy_configureGoogleProject_missing_key sample_platform
                    sample_firebaserc (sample_options "missing-key")
                    [("default", VStr "acme-prod")] empty_world
                    eq_refl eq_refl eq_refl (fun _ _ => eq_refl))).
    reflexivity.
  - destruct (proj2 (Legacy_configureGoogleProject_missing_key sample_platform
                       sample_firebaserc (sample_options "constructor")
                       [("default", VStr "acme-prod")] empty_world
                       eq_refl eq_refl eq_refl (fun _ _ => eq_refl))
                ltac:(discriminate)) as (r & w' & E & Hs).
    exists r, w'. split; [exact E | exact Hs].
Defined.

Lemma runSteps_rejects_on_unprintable_messages_witness :
  is_TypeError (outcome (runSteps unprintable_steps (sample_options "default") empty_world))
  = true
  /\ invoked (runSteps unprintable_steps (sample_options "default") empty_world)
     = [(const_step "one" ok_result, sample_options "default");
        ((fun _ => ret unprintable_result), sample_options "default")]
  /\ remaining (runSteps unprintable_steps (sample_options "default") empty_world)
     = [const_step "three" ok_result].
Proof.
  exact (runSteps_rejects_on_unprintable_messages (sample_options "default")
           [const_step "one" ok_result] (fun _ => ret unprintable_result)
           [const_step "three" ok_result]
           empty_world _ _ [ok_result] unprintable_result
           eq_refl eq_refl eq_refl eq_refl eq_refl).
Defined.
